(** * yafowil: the widget execution engine

    A shallow embedding of [yafowil/base.py] and [yafowil/compound.py]
    (Python 2): the [RuntimeData] record and its accessors, the [Widget]
    extract / render / preprocess pipelines, the [Factory] blueprint
    composition and the compound (parent / children) protocol.

    Python objects are first-order values; a callable stored in a chain is
    a tag, so that a widget can hold chains of callables that themselves
    receive the widget.  Exceptions are an explicit [Raise] outcome, and
    the objects the engine mutates in place (the widget tree, the record
    under work) are threaded explicitly through every call. *)

From Stdlib Require Import List String Ascii ZArith Lia Bool Arith.
From stdpp Require Import gmap strings.
Import ListNotations.
Local Open Scope string_scope.
Local Open Scope list_scope.

Set Warnings "-register-all".

(* ================================================================== *)
(** * Python objects *)
(* ================================================================== *)

(** Exception classes.  [ExtractionError] carries its [abort] attribute;
    the message is the first entry of the exception's [args]. *)
Inductive exc_class :=
| ExtractionError (abort : bool)
| ValueError
| KeyError
| TypeError
| AttributeError
| IndexError
| RuntimeError
| OtherException (name : string).

(** The callables of a chain.  The three compound callables are the
    functions of [compound.py]; every other callable is supplied from
    outside the engine and is known by an identifier only. *)
Inductive callable :=
| Fn_compound_extractor
| Fn_compound_renderer
| Fn_compound_preprocessor
| External (id : string).

(** Values.  [VDict] is a plain [dict] and [VRuntimeData] an instance of
    the [dict] subclass [RuntimeData]; both list their items in the
    order the dictionary iterates them, with string keys. *)
Inductive value :=
| UNSET
| VNone
| VBool (b : bool)
| VInt (z : Z)
| VStr (s : string)
| VList (l : list value)
| VDict (m : list (string * value))
| VRuntimeData (m : list (string * value))
| VCallable (c : callable)
| VExc (cls : exc_class) (args : list value).

Definition dict := list (string * value).

(** The outcome of running Python code: a value, or a raised exception
    with its class and [args]. *)
Inductive result (A : Type) :=
| Ok (a : A)
| Raise (cls : exc_class) (args : list value).
Arguments Ok {A} a.
Arguments Raise {A} cls args.

Definition bind {A B} (r : result A) (k : A -> result B) : result B :=
  match r with
  | Ok a => k a
  | Raise cls args => Raise cls args
  end.

Notation "'let!' x ':=' e 'in' k" := (bind e (fun x => k))
  (at level 10, x name, e at level 200, k at level 200).

(** ** Dictionaries *)

Fixpoint dict_get (k : string) (m : dict) : option value :=
  match m with
  | [] => None
  | (k', v) :: m' => if String.eqb k k' then Some v else dict_get k m'
  end.

(** [m[k] = v]: an existing key keeps its place, a new key is added. *)
Fixpoint dict_set (k : string) (v : value) (m : dict) : dict :=
  match m with
  | [] => [(k, v)]
  | (k', v') :: m' =>
      if String.eqb k k' then (k', v) :: m' else (k', v') :: dict_set k v m'
  end.

Definition dict_has (k : string) (m : dict) : bool :=
  match dict_get k m with Some _ => true | None => false end.

Definition dict_values (m : dict) : list value := List.map snd m.

Definition dict_keys (m : dict) : list string := List.map fst m.

(** [dict(items)]: later items overwrite earlier ones. *)
Definition dict_of_items (items : list (string * value)) : dict :=
  fold_left (fun m kv => dict_set (fst kv) (snd kv) m) items [].

(** [m.get(k, default)] *)
Definition dict_get_or (m : dict) (k : string) (default : value) : value :=
  match dict_get k m with Some v => v | None => default end.

(** [m[k]] as an expression. *)
Definition dict_getitem (m : dict) (k : string) : result value :=
  match dict_get k m with
  | Some v => Ok v
  | None => Raise KeyError [VStr k]
  end.

(** ** Builtins

    An exception the interpreter itself raises for an operation a value
    does not support ([TypeError], [AttributeError], [IndexError])
    carries the interpreter's message, which names the type of the
    value.  The model keeps the class of such an exception and leaves
    the message out of its [args]; the statements below speak of its
    class only, or of whatever the operation raises.  The argument of a
    [KeyError] is the key. *)

(** [bool(v)].  [Unset.__nonzero__] answers [False]; functions and
    exception instances have neither [__nonzero__] nor [__len__]. *)
Definition truth (v : value) : bool :=
  match v with
  | UNSET => false
  | VNone => false
  | VBool b => b
  | VInt z => negb (Z.eqb z 0)
  | VStr s => negb (String.eqb s "")
  | VList l => match l with [] => false | _ => true end
  | VDict m | VRuntimeData m => match m with [] => false | _ => true end
  | VCallable _ => true
  | VExc _ _ => true
  end.

(** [len(v)] *)
Definition len (v : value) : result nat :=
  match v with
  | VStr s => Ok (String.length s)
  | VList l => Ok (List.length l)
  | VDict m | VRuntimeData m => Ok (List.length m)
  | _ => Raise TypeError []
  end.

Fixpoint last_char (s : string) : string :=
  match s with
  | EmptyString => EmptyString
  | String c EmptyString => String c EmptyString
  | String _ s' => last_char s'
  end.

(** [v[-1]] *)
Definition index_last (v : value) : result value :=
  match v with
  | VList l =>
      match l with
      | [] => Raise IndexError []
      | _ => Ok (List.last l VNone)
      end
  | VStr s =>
      match s with
      | EmptyString => Raise IndexError []
      | _ => Ok (VStr (last_char s))
      end
  | VDict _ | VRuntimeData _ => Raise KeyError [VInt (-1)]
  | VExc _ args =>
      match args with
      | [] => Raise IndexError []
      | _ => Ok (List.last args VNone)
      end
  | _ => Raise TypeError []
  end.

(** [v[0]] *)
Definition index_first (v : value) : result value :=
  match v with
  | VList l =>
      match l with
      | [] => Raise IndexError []
      | x :: _ => Ok x
      end
  | VStr s =>
      match s with
      | EmptyString => Raise IndexError []
      | String c _ => Ok (VStr (String c EmptyString))
      end
  | VDict _ | VRuntimeData _ => Raise KeyError [VInt 0]
  | VExc _ args =>
      match args with
      | [] => Raise IndexError []
      | x :: _ => Ok x
      end
  | _ => Raise TypeError []
  end.

(** [v[k]] for a string key [k]: only mappings can be indexed so. *)
Definition getitem (v : value) (k : string) : result value :=
  match v with
  | VDict m | VRuntimeData m => dict_getitem m k
  | _ => Raise TypeError []
  end.

(** [v[k] = x] *)
Definition setitem (v : value) (k : string) (x : value) : result value :=
  match v with
  | VDict m => Ok (VDict (dict_set k x m))
  | VRuntimeData m => Ok (VRuntimeData (dict_set k x m))
  | _ => Raise TypeError []
  end.

(** [v[k].append(x)]: the list stored under [k] grows in place. *)
Definition append_item (v : value) (k : string) (x : value) : result value :=
  let! cur := getitem v k in
  match cur with
  | VList l => setitem v k (VList (l ++ [x]))
  | _ => Raise AttributeError []
  end.

Definition isinstance_RuntimeData (v : value) : bool :=
  match v with VRuntimeData _ => true | _ => false end.

(** The size of a value bounds the nesting of records inside it. *)
Fixpoint vsize (v : value) : nat :=
  match v with
  | VList l => S (list_sum (List.map vsize l))
  | VDict m | VRuntimeData m => S (list_sum (List.map (fun kv => vsize (snd kv)) m))
  | VExc _ args => S (list_sum (List.map vsize args))
  | _ => 1
  end.

(* ================================================================== *)
(** * RuntimeData *)
(* ================================================================== *)

Module RuntimeData.

(** [RuntimeData.__init__(self, *args, **kw)]: the [dict] constructor on
    the items of the positional mapping and the keywords, then the three
    sequences. *)
Definition __init__ (args kw : list (string * value)) : dict :=
  let self := dict_of_items (args ++ kw) in
  let self := dict_set "extracted" (VList []) self in
  let self := dict_set "rendered" (VList []) self in
  let self := dict_set "errors" (VList []) self in
  self.

(** [RuntimeData()] *)
Definition new : dict := __init__ [] [].

Definition _last (self : dict) (key : string) (default : value) : result value :=
  let! seq := dict_getitem self key in
  let! n := len seq in
  if Nat.eqb n 0 then Ok default
  else index_last (dict_get_or self key VNone).

Definition last_extracted (self : dict) : result value :=
  _last self "extracted" UNSET.

Definition last_rendered (self : dict) : result value :=
  _last self "rendered" (VStr "").

(** [for value in values: if value.has_extracted: return True] *)
Fixpoint first_true (f : value -> result bool) (values : list value) : result bool :=
  match values with
  | [] => Ok false
  | v :: rest =>
      let! b := f v in
      if b then Ok true else first_true f rest
  end.

(** [[_ for _ in last if _.has_extracted]] *)
Fixpoint comprehension (f : value -> result bool) (l : list value) : result (list value) :=
  match l with
  | [] => Ok []
  | v :: rest =>
      let! b := f v in
      let! tl := comprehension f rest in
      Ok (if b then v :: tl else tl)
  end.

(** The property [has_extracted], read on any object: only a
    [RuntimeData] has the attribute.  The recursion follows the nesting
    of records; [n] bounds its depth, and a recursion deeper than [n]
    ends as Python's does at its recursion limit. *)
Fixpoint has_extracted_depth (n : nat) (self : value) : result bool :=
  match n with
  | O => Raise RuntimeError []
  | S n' =>
      match self with
      | VRuntimeData m =>
          let! last := last_extracted m in
          match last with
          | VDict lm | VRuntimeData lm =>
              let values := dict_values lm in
              let lvalues := List.length values in
              let ldata := List.length (List.filter isinstance_RuntimeData values) in
              if Nat.eqb ldata 0 then Ok (truth (VList values))
              else if negb (Nat.eqb ldata lvalues) then Raise ValueError []
              else first_true (has_extracted_depth n') values
          | VList l =>
              if truth (VList (List.filter isinstance_RuntimeData l))
              then
                let! hits := comprehension (has_extracted_depth n') l in
                Ok (truth (VList hits))
              else Ok (truth last)
          | _ => Ok (truth last)
          end
      | _ => Raise AttributeError []
      end
  end.

(** [self.has_extracted]: a value nests no deeper than its size. *)
Definition has_extracted (self : value) : result bool :=
  has_extracted_depth (vsize self) self.

(** The body of [has_extracted] as the source writes it, the recursive
    reads being reads of [has_extracted] itself. *)
Definition has_extracted_body (m : dict) : result bool :=
  let! last := last_extracted m in
  match last with
  | VDict lm | VRuntimeData lm =>
      let values := dict_values lm in
      let lvalues := List.length values in
      let ldata := List.length (List.filter isinstance_RuntimeData values) in
      if Nat.eqb ldata 0 then Ok (truth (VList values))
      else if negb (Nat.eqb ldata lvalues) then Raise ValueError []
      else first_true has_extracted values
  | VList l =>
      if truth (VList (List.filter isinstance_RuntimeData l))
      then
        let! hits := comprehension has_extracted l in
        Ok (truth (VList hits))
      else Ok (truth last)
  | _ => Ok (truth last)
  end.

End RuntimeData.


(* ================================================================== *)
(** * Widget *)
(* ================================================================== *)

(** A widget is a node of the tree: its getter, its three chains, its
    name, its attributes and its children, by name, in insertion order. *)
Inductive Widget := mkWidget {
  getter : value;
  extractors : list callable;
  renderers : list callable;
  preprocessors : list callable;
  __name__ : option string;
  attributes : dict;
  children : list (string * Widget)
}.

Definition set_getter (w : Widget) (g : value) : Widget :=
  mkWidget g (extractors w) (renderers w) (preprocessors w)
           (__name__ w) (attributes w) (children w).

Definition set_name (w : Widget) (name : option string) : Widget :=
  mkWidget (getter w) (extractors w) (renderers w) (preprocessors w)
           name (attributes w) (children w).

Definition set_children (w : Widget) (cs : list (string * Widget)) : Widget :=
  mkWidget (getter w) (extractors w) (renderers w) (preprocessors w)
           (__name__ w) (attributes w) cs.

(** The number of levels of a tree of widgets. *)
Fixpoint height (w : Widget) : nat :=
  match w with
  | mkWidget _ _ _ _ _ _ cs =>
      S ((fix below (cs : list (string * Widget)) : nat :=
            match cs with
            | [] => 0
            | (_, c) :: rest => Nat.max (height c) (below rest)
            end) cs)
  end.

(** The height of the tallest of some children. *)
Fixpoint max_height (cs : list (string * Widget)) : nat :=
  match cs with
  | [] => 0
  | (_, c) :: rest => Nat.max (height c) (max_height rest)
  end.

(** The three chains of a node. *)
Definition chains (w : Widget) : list callable * list callable * list callable :=
  (extractors w, renderers w, preprocessors w).

Definition name_value (name : option string) : value :=
  match name with Some n => VStr n | None => VNone end.

(** Modelled from the spec: the tree collaborator ([zodict]'s
    [LifecycleNode], not part of these sources) computes a node's
    [path], the names from the root down to the node; [ancestors] is the
    path of the parent, empty at the root. *)
Definition path (ancestors : list value) (self : Widget) : list value :=
  ancestors ++ [name_value (__name__ self)].

(** Modelled from the spec: [LifecycleNode.__setitem__] stores the child
    under its name; a name already present keeps its position. *)
Fixpoint node_setitem (name : string) (widget : Widget)
    (cs : list (string * Widget)) : list (string * Widget) :=
  match cs with
  | [] => [(name, widget)]
  | (n, c) :: rest =>
      if String.eqb name n then (n, widget) :: rest
      else (n, c) :: node_setitem name widget rest
  end.

(** [Widget.__init__]: a node without children whose attributes are the
    given properties, copied key by key. *)
Definition Widget_init (extractors renderers preprocessors : list callable)
    (uniquename : option string) (value_or_getter : value)
    (properties : dict) : Widget :=
  {| getter := value_or_getter;
     extractors := extractors;
     renderers := renderers;
     preprocessors := match preprocessors with [] => [] | _ => preprocessors end;
     __name__ := uniquename;
     attributes :=
       fold_left (fun attrs key => dict_set key (dict_get_or properties key VNone) attrs)
                 (dict_keys properties) [];
     children := [] |}.

(** [Widget.__setitem__]: a child without a name takes the key. *)
Definition Widget_setitem (self : Widget) (name : string) (widget : Widget) : Widget :=
  let widget :=
    match __name__ widget with
    | None | Some EmptyString => set_name widget (Some name)
    | Some _ => widget
    end in
  set_children self (node_setitem name widget (children self)).

(* ================================================================== *)
(** * The pipelines *)
(* ================================================================== *)

(** [v.get(k, default)] *)
Definition method_get (v : value) (k : string) (default : value) : result value :=
  match v with
  | VDict m | VRuntimeData m => Ok (dict_get_or m k default)
  | _ => Raise AttributeError []
  end.

(** [data.last_rendered] *)
Definition attr_last_rendered (data : value) : result value :=
  match data with
  | VRuntimeData m => RuntimeData.last_rendered m
  | _ => Raise AttributeError []
  end.

(** [u + v] for a unicode string [u] *)
Definition add_unicode (u : string) (v : value) : result string :=
  match v with
  | VStr s => Ok (u ++ s)%string
  | _ => Raise TypeError []
  end.

Definition is_None (v : value) : bool :=
  match v with VNone => true | _ => false end.

(** The object [container[0]] after its item has become [x]. *)
Definition with_first (container x : value) : value :=
  match container with
  | VList (_ :: others) => VList (x :: others)
  | VExc cls (_ :: others) => VExc cls (x :: others)
  | _ => container
  end.

(** [data['extracted'][0][childname]] is the very object a child
    renders on: what the child appended to it shows in the parent's
    record.  [d] is that object after the child's call. *)
Definition store_child_data (data : value) (childname : string) (d : value) : value :=
  match getitem data "extracted" with
  | Ok extracted =>
      match index_first extracted with
      | Ok first =>
          match setitem first childname d with
          | Ok first' =>
              match setitem data "extracted" (with_first extracted first') with
              | Ok data' => data'
              | Raise _ _ => data
              end
          | Raise _ _ => data
          end
      | Raise _ _ => data
      end
  | Raise _ _ => data
  end.

Section Engine.

(** Whatever the callables supplied from outside act upon. *)
Variable World : Type.

(** What a callable supplied from outside does when it is called with
    [(widget, data)] on a node whose parent has path [ancestors]: it may
    read both, act on the outside, and returns or raises.  It leaves the
    widget tree and the record as they are: a preprocessor hands over
    the record to go on with as its return value. *)
Variable call_external :
  string -> list value -> Widget -> value -> World -> World * result value.

(** [str(callable)] *)
Variable str_callable : callable -> string.

(** A call [c(widget, data)] ends with the outside, the widget and the
    record as the call left them, and what it returned or raised. *)
Definition called : Type := World * Widget * value * result value.

Definition widget_of (r : called) : Widget := snd (fst (fst r)).
Definition outcome_of (r : called) : result value := snd r.

(** A way of calling that leaves some reading [f] of every node as it
    was: its height, or its chains. *)
Definition keeps {A : Type} (f : Widget -> A)
    (inv : callable -> list value -> Widget -> value -> World -> called) : Prop :=
  forall c anc w d s, f (widget_of (inv c anc w d s)) = f w.

Section Bodies.

(** The calls made on a node, given the calls on its chains. *)
Variable invoke_callable :
  callable -> list value -> Widget -> value -> World -> called.

Definition annotated (c : callable) (ancestors : list value) (self : Widget)
    (args : list value) : list value :=
  args ++ [VStr (str_callable c)] ++ path ancestors self.

(** The loop of [Widget._runpreprocessors]. *)
Fixpoint preprocess_loop (ancestors : list value) (pps : list callable)
    (s : World) (self : Widget) (data : value) : World * Widget * result value :=
  match pps with
  | [] => (s, self, Ok data)
  | pp :: rest =>
      let '(s, self, _, r) := invoke_callable pp ancestors self data s in
      match r with
      | Raise cls args => (s, self, Raise cls (annotated pp ancestors self args))
      | Ok data => preprocess_loop ancestors rest s self data
      end
  end.

Definition runpreprocessors_body (ancestors : list value) (self : Widget)
    (request : value) (data : dict) (s : World) : World * Widget * result value :=
  if dict_has "value" data && dict_has "request" data then
    (s, self, Ok (VRuntimeData data))
  else
    let data := dict_set "request" request data in
    let '(s, self, r) :=
      match getter self with
      | VCallable g =>
          let '(s, self, data, r) :=
            invoke_callable g ancestors self (VRuntimeData data) s in
          (s, self, let! v := r in setitem data "value" v)
      | v => (s, self, Ok (VRuntimeData (dict_set "value" v data)))
      end in
    match r with
    | Raise cls args => (s, self, Raise cls args)
    | Ok data => preprocess_loop ancestors (preprocessors self) s self data
    end.

(** The loop of [Widget.extract]. *)
Fixpoint extract_loop (ancestors : list value) (exs : list callable)
    (s : World) (self : Widget) (data : value) : World * Widget * result value :=
  match exs with
  | [] => (s, self, Ok data)
  | extractor :: rest =>
      let '(s, self, data, r) := invoke_callable extractor ancestors self data s in
      match r with
      | Ok v =>
          match append_item data "extracted" v with
          | Ok data => extract_loop ancestors rest s self data
          | Raise cls args => (s, self, Raise cls args)
          end
      | Raise (ExtractionError abort) args =>
          match append_item data "errors" (VExc (ExtractionError abort) args) with
          | Ok data =>
              if abort then (s, self, Ok data)
              else extract_loop ancestors rest s self data
          | Raise cls args => (s, self, Raise cls args)
          end
      | Raise cls args =>
          (s, self, Raise cls (annotated extractor ancestors self args))
      end
  end.

Definition extract_body (ancestors : list value) (self : Widget)
    (request : value) (s : World) : World * Widget * result value :=
  let '(s, self, r) :=
    runpreprocessors_body ancestors self request RuntimeData.new s in
  match r with
  | Raise cls args => (s, self, Raise cls args)
  | Ok data => extract_loop ancestors (extractors self) s self data
  end.

(** The loop of [Widget.__call__]. *)
Fixpoint render_loop (ancestors : list value) (rens : list callable)
    (s : World) (self : Widget) (data : value) : called :=
  match rens with
  | [] => (s, self, data, attr_last_rendered data)
  | renderer :: rest =>
      let '(s, self, data, r) := invoke_callable renderer ancestors self data s in
      match r with
      | Raise cls args =>
          (s, self, data, Raise cls (annotated renderer ancestors self args))
      | Ok v =>
          match append_item data "rendered" v with
          | Ok data => render_loop ancestors rest s self data
          | Raise cls args => (s, self, data, Raise cls args)
          end
      end
  end.

(** [Widget.__call__(self, request, data)], [VNone] standing for an
    absent [data].  The record of the outcome is the one the renderers
    worked on; when the call fails before rendering it is the argument. *)
Definition call_body (ancestors : list value) (self : Widget)
    (request data : value) (s : World) : called :=
  let '(s, self, r) :=
    if is_None data && negb (truth request) then
      runpreprocessors_body ancestors self request RuntimeData.new s
    else if is_None data && truth request then
      extract_body ancestors self request s
    else (s, self, Ok data) in
  match r with
  | Raise cls args => (s, self, data, Raise cls args)
  | Ok data => render_loop ancestors (renderers self) s self data
  end.

(** The loop of [compound_extractor], over the children in order. *)
Fixpoint extract_children (here : list value) (cs : list (string * Widget))
    (data : value) (res : dict) (s : World)
    : World * list (string * Widget) * result value :=
  match cs with
  | [] => (s, [], Ok (VDict res))
  | (childname, child) :: rest =>
      match getitem data "request" with
      | Raise cls args => (s, cs, Raise cls args)
      | Ok request =>
          let '(s, child, r) := extract_body here child request s in
          match r with
          | Raise cls args => (s, (childname, child) :: rest, Raise cls args)
          | Ok d =>
              let '(s, rest, r) :=
                extract_children here rest data (dict_set childname d res) s in
              (s, (childname, child) :: rest, r)
          end
      end
  end.

Definition compound_extractor_body (ancestors : list value) (widget : Widget)
    (data : value) (s : World) : called :=
  let '(s, cs, r) :=
    extract_children (path ancestors widget) (children widget) data [] s in
  (s, set_children widget cs, data, r).

(** The keyword arguments [compound_renderer] builds for one child:
    the request, and the child's record when there is one. *)
Definition child_kw (data : value) (childname : string)
    : result (value * option value) :=
  let! extracted := getitem data "extracted" in
  let! kwdata :=
    (if truth extracted then
       let! first := index_first extracted in
       let! sub := getitem first childname in
       Ok (Some sub)
     else Ok None) in
  let! request := getitem data "request" in
  Ok (request, kwdata).

(** The loop of [compound_renderer], over the children in order. *)
Fixpoint render_children (here : list value) (cs : list (string * Widget))
    (data : value) (res : string) (s : World)
    : World * list (string * Widget) * value * result value :=
  match cs with
  | [] => (s, [], data, Ok (VStr res))
  | (childname, child) :: rest =>
      match child_kw data childname with
      | Raise cls args => (s, cs, data, Raise cls args)
      | Ok (request, kwdata) =>
          let '(s, child, d, r) :=
            call_body here child request
                      (match kwdata with Some sub => sub | None => VNone end) s in
          let data :=
            match kwdata with
            | Some sub => if is_None sub then data else store_child_data data childname d
            | None => data
            end in
          match (let! out := r in add_unicode res out) with
          | Raise cls args => (s, (childname, child) :: rest, data, Raise cls args)
          | Ok res =>
              let '(s, rest, data, r) := render_children here rest data res s in
              (s, (childname, child) :: rest, data, r)
          end
      end
  end.

Definition compound_renderer_body (ancestors : list value) (widget : Widget)
    (data : value) (s : World) : called :=
  let '(s, cs, data, r) :=
    render_children (path ancestors widget) (children widget) data "" s in
  (s, set_children widget cs, data, r).

End Bodies.

(** The loop of [compound_preprocessor]: every child's getter becomes
    its entry of the parent's value. *)
Fixpoint delegate_children (cs : list (string * Widget)) (data : value)
    : list (string * Widget) * result unit :=
  match cs with
  | [] => ([], Ok tt)
  | (childname, child) :: rest =>
      match (let! value := getitem data "value" in method_get value childname VNone) with
      | Raise cls args => (cs, Raise cls args)
      | Ok g =>
          let '(rest, r) := delegate_children rest data in
          ((childname, set_getter child g) :: rest, r)
      end
  end.

Definition compound_preprocessor_body (widget : Widget) (data : value)
    (s : World) : called :=
  if truth (dict_get_or (attributes widget) "delegation" (VBool false)) then
    let '(cs, r) := delegate_children (children widget) data in
    (s, set_children widget cs, data, let! _ := r in Ok data)
  else (s, widget, data, Ok data).

(** Calling a callable on a node.  A compound callable calls into the
    children; [n] bounds the depth of these calls below the node, and a
    deeper call ends as Python's does at its recursion limit. *)
Fixpoint invoke (n : nat) (c : callable) (ancestors : list value)
    (self : Widget) (data : value) (s : World) : called :=
  match c with
  | External id =>
      let '(s, r) := call_external id ancestors self data s in
      (s, self, data, r)
  | Fn_compound_preprocessor => compound_preprocessor_body self data s
  | Fn_compound_extractor =>
      match n with
      | O => (s, self, data, Raise RuntimeError [])
      | S n' => compound_extractor_body (invoke n') ancestors self data s
      end
  | Fn_compound_renderer =>
      match n with
      | O => (s, self, data, Raise RuntimeError [])
      | S n' => compound_renderer_body (invoke n') ancestors self data s
      end
  end.

(** ** The entry points

    A node of height [h] has [h - 1] levels below it. *)

Definition call (c : callable) (ancestors : list value) (self : Widget)
    (data : value) (s : World) : called :=
  invoke (height self) c ancestors self data s.

Definition Widget_runpreprocessors (ancestors : list value) (self : Widget)
    (request : value) (data : dict) (s : World) : World * Widget * result value :=
  runpreprocessors_body (invoke (height self)) ancestors self request data s.

Definition Widget_extract (ancestors : list value) (self : Widget)
    (request : value) (s : World) : World * Widget * result value :=
  extract_body (invoke (height self)) ancestors self request s.

Definition Widget_call (ancestors : list value) (self : Widget)
    (request data : value) (s : World) : called :=
  call_body (invoke (height self)) ancestors self request data s.

Definition compound_extractor (ancestors : list value) (widget : Widget)
    (data : value) (s : World) : called :=
  call Fn_compound_extractor ancestors widget data s.

Definition compound_renderer (ancestors : list value) (widget : Widget)
    (data : value) (s : World) : called :=
  call Fn_compound_renderer ancestors widget data s.

Definition compound_preprocessor (ancestors : list value) (widget : Widget)
    (data : value) (s : World) : called :=
  call Fn_compound_preprocessor ancestors widget data s.

(** The loops of the entry points, on a node of any state. *)

Definition preprocess_chain (ancestors : list value) (pps : list callable)
    (s : World) (self : Widget) (data : value) : World * Widget * result value :=
  preprocess_loop (invoke (height self)) ancestors pps s self data.

Definition extract_chain (ancestors : list value) (exs : list callable)
    (s : World) (self : Widget) (data : value) : World * Widget * result value :=
  extract_loop (invoke (height self)) ancestors exs s self data.

Definition render_chain (ancestors : list value) (rens : list callable)
    (s : World) (self : Widget) (data : value) : called :=
  render_loop (invoke (height self)) ancestors rens s self data.

(** ** The chains, step by step

    What the specification says of each chain, as rules: which callable
    is called on which state, and what becomes of its outcome. *)

(** Preprocessing: each preprocessor in order, the record it returns
    being the record from then on. *)
Inductive preprocess_run (ancestors : list value) :
  list callable -> World -> Widget -> value -> World -> Widget -> value -> Prop :=
| preprocess_done s w d :
    preprocess_run ancestors [] s w d s w d
| preprocess_step pp rest s w d s1 w1 d1 d2 s' w' d' :
    call pp ancestors w d s = (s1, w1, d1, Ok d2) ->
    preprocess_run ancestors rest s1 w1 d2 s' w' d' ->
    preprocess_run ancestors (pp :: rest) s w d s' w' d'.

(** Extraction: each extractor in order; a returned value is appended
    to [extracted]; an [ExtractionError] is appended to [errors] and
    ends the chain when its [abort] is set.  The log lists the
    extractors that ran, each with what it returned or raised. *)
Inductive extract_run (ancestors : list value) :
  list callable -> World -> Widget -> value ->
  list (callable * result value) -> World -> Widget -> value -> Prop :=
| extract_done s w d :
    extract_run ancestors [] s w d [] s w d
| extract_value ex rest s w d s1 w1 d1 v d2 log s' w' d' :
    call ex ancestors w d s = (s1, w1, d1, Ok v) ->
    append_item d1 "extracted" v = Ok d2 ->
    extract_run ancestors rest s1 w1 d2 log s' w' d' ->
    extract_run ancestors (ex :: rest) s w d ((ex, Ok v) :: log) s' w' d'
| extract_error ex rest s w d s1 w1 d1 args d2 log s' w' d' :
    call ex ancestors w d s = (s1, w1, d1, Raise (ExtractionError false) args) ->
    append_item d1 "errors" (VExc (ExtractionError false) args) = Ok d2 ->
    extract_run ancestors rest s1 w1 d2 log s' w' d' ->
    extract_run ancestors (ex :: rest) s w d
      ((ex, Raise (ExtractionError false) args) :: log) s' w' d'
| extract_abort ex rest s w d s1 w1 d1 args d2 :
    call ex ancestors w d s = (s1, w1, d1, Raise (ExtractionError true) args) ->
    append_item d1 "errors" (VExc (ExtractionError true) args) = Ok d2 ->
    extract_run ancestors (ex :: rest) s w d
      [(ex, Raise (ExtractionError true) args)] s1 w1 d2.

(** The values a log appended to [extracted], and the errors it
    appended to [errors]. *)
Definition successes (log : list (callable * result value)) : list value :=
  flat_map (fun e => match snd e with Ok v => [v] | Raise _ _ => [] end) log.

Definition failures (log : list (callable * result value)) : list value :=
  flat_map (fun e => match snd e with
                     | Ok _ => []
                     | Raise cls args => [VExc cls args]
                     end) log.

Definition aborting (e : callable * result value) : Prop :=
  exists args, snd e = Raise (ExtractionError true) args.

(** An extractor's outcome the chain takes in: a value, or an
    [ExtractionError]. *)
Definition recoverable (r : result value) : Prop :=
  match r with
  | Ok _ => True
  | Raise (ExtractionError _) _ => True
  | Raise _ _ => False
  end.

(** Rendering: each renderer in order, each returned value appended to
    [rendered]. *)
Inductive render_run (ancestors : list value) :
  list callable -> World -> Widget -> value ->
  list value -> World -> Widget -> value -> Prop :=
| render_done s w d :
    render_run ancestors [] s w d [] s w d
| render_step ren rest s w d s1 w1 d1 v d2 vs s' w' d' :
    call ren ancestors w d s = (s1, w1, d1, Ok v) ->
    append_item d1 "rendered" v = Ok d2 ->
    render_run ancestors rest s1 w1 d2 vs s' w' d' ->
    render_run ancestors (ren :: rest) s w d (v :: vs) s' w' d'.

(** Compound extraction: each child's [extract] called directly with
    the request, child after child; the items pair each child's name
    with the record its [extract] returned. *)
Fixpoint extract_each (here : list value) (cs : list (string * Widget))
    (request : value) (s : World)
    : World * list (string * Widget) * result (list (string * value)) :=
  match cs with
  | [] => (s, [], Ok [])
  | (childname, child) :: rest =>
      let '(s, child, r) := Widget_extract here child request s in
      match r with
      | Raise cls args => (s, (childname, child) :: rest, Raise cls args)
      | Ok d =>
          let '(s, rest, r) := extract_each here rest request s in
          (s, (childname, child) :: rest, let! items := r in Ok ((childname, d) :: items))
      end
  end.

(** Compound rendering: each child called with the request and the
    record [sub] finds for its name, child after child; the outputs are
    the strings the children returned. *)
Fixpoint render_each (here : list value) (cs : list (string * Widget))
    (request : value) (sub : string -> result value) (s : World)
    : World * list (string * Widget) * result (list string) :=
  match cs with
  | [] => (s, [], Ok [])
  | (childname, child) :: rest =>
      match sub childname with
      | Raise cls args => (s, cs, Raise cls args)
      | Ok data =>
          let '(s, child, _, r) := Widget_call here child request data s in
          match (let! out := r in add_unicode "" out) with
          | Raise cls args => (s, (childname, child) :: rest, Raise cls args)
          | Ok out =>
              let '(s, rest, r) := render_each here rest request sub s in
              (s, (childname, child) :: rest, let! outs := r in Ok (out :: outs))
          end
      end
  end.

End Engine.

Arguments widget_of {World} r.
Arguments outcome_of {World} r.
Arguments keeps {World A} f inv.

(* ================================================================== *)
(** * Factory *)
(* ================================================================== *)

(** A registered entry: [(extractors, renderers, preprocessors,
    subwidgets)].  A subwidget function is supplied from outside and is
    known by an identifier. *)
Definition blueprint : Type :=
  list callable * list callable * list callable * list string.

Record Factory := mkFactory {
  _factories : gmap string blueprint;
  _global_preprocessors : list callable
}.

(** [Factory.__init__] *)
Definition Factory_init : Factory := mkFactory ∅ [].

(** [name.startswith('*')] *)
Definition startswith_asterisk (name : string) : bool := String.prefix "*" name.

(** [name[1:]] *)
Definition drop_first (name : string) : string :=
  match name with
  | EmptyString => EmptyString
  | String _ rest => rest
  end.

(** [s.split(sep)] for a one-character separator. *)
Fixpoint split (sep : ascii) (s : string) : list string :=
  match s with
  | EmptyString => [EmptyString]
  | String c s' =>
      if Ascii.eqb c sep then EmptyString :: split sep s'
      else
        match split sep s' with
        | [] => [String c EmptyString]
        | word :: words => String c word :: words
        end
  end.

(** [sep in s] *)
Fixpoint contains_char (sep : ascii) (s : string) : bool :=
  match s with
  | EmptyString => false
  | String c s' => Ascii.eqb c sep || contains_char sep s'
  end.

Definition Factory_register (self : Factory) (name : string)
    (extractors renderers preprocessors : list callable)
    (subwidgets : list string) : result Factory :=
  if startswith_asterisk name then
    Raise ValueError [VStr "Asterisk * as first sign not allowed as name."]
  else
    Ok (mkFactory
          (<[name := (extractors, renderers, preprocessors, subwidgets)]>
             (_factories self))
          (_global_preprocessors self)).

Definition Factory_register_global_preprocessors (self : Factory)
    (preprocessors : list callable) : Factory :=
  mkFactory (_factories self) (_global_preprocessors self ++ preprocessors).

Definition registry_getitem (m : gmap string blueprint) (k : string)
    : result blueprint :=
  match m !! k with
  | Some bp => Ok bp
  | None => Raise KeyError [VStr k]
  end.

(** The loop of [Factory.__call__] over the names of [reg_names]. *)
Fixpoint compose (self : Factory) (custom : gmap string blueprint)
    (reg_names : list string) (acc : blueprint) : result blueprint :=
  match reg_names with
  | [] => Ok acc
  | reg_name :: rest =>
      let! found :=
        (if startswith_asterisk reg_name
         then registry_getitem custom (drop_first reg_name)
         else registry_getitem (_factories self) reg_name) in
      let '(ex, ren, pre, sub) := found in
      let '(extractors, renderers, preprocessors, subwidgets) := acc in
      compose self custom rest
        (ex ++ extractors, ren ++ renderers, preprocessors ++ pre, subwidgets ++ sub)
  end.

Definition Factory_extractors (self : Factory) (name : string) : result (list callable) :=
  let! found := registry_getitem (_factories self) name in
  Ok (fst (fst (fst found))).

Definition Factory_renderers (self : Factory) (name : string) : result (list callable) :=
  let! found := registry_getitem (_factories self) name in
  Ok (snd (fst (fst found))).

Definition Factory_preprocessors (self : Factory) (name : string) : result (list callable) :=
  let! found := registry_getitem (_factories self) name in
  Ok (_global_preprocessors self ++ snd (fst found)).

Definition Factory_subwidgets (self : Factory) (name : string) : result (list string) :=
  let! found := registry_getitem (_factories self) name in
  Ok (snd found).

Section Composition.

(** Modelled from the spec: a subwidget function is called once with
    [(widget, factory)] after the widget is constructed, to attach
    children; it is supplied from outside, and what it does is given by
    the named children it assigns into the widget, in order. *)
Variable call_subwidget_func :
  string -> Widget -> Factory -> result (list (string * Widget)).

Fixpoint run_subwidgets (subwidgets : list string) (self : Factory)
    (widget : Widget) : result Widget :=
  match subwidgets with
  | [] => Ok widget
  | subwidget_func :: rest =>
      let! assigned := call_subwidget_func subwidget_func widget self in
      run_subwidgets rest self
        (fold_left (fun w nc => Widget_setitem w (fst nc) (snd nc)) assigned widget)
  end.

(** [Factory.__call__(self, reg_names, name, value, props, custom)] *)
Definition Factory_call (self : Factory) (reg_names : string)
    (name : option string) (value : value) (props : dict)
    (custom : gmap string blueprint) : result Widget :=
  let! composed := compose self custom (split ":" reg_names) ([], [], [], []) in
  let '(extractors, renderers, preprocessors, subwidgets) := composed in
  let widget :=
    Widget_init extractors renderers
                (_global_preprocessors self ++ preprocessors)
                name value props in
  run_subwidgets subwidgets self widget.

End Composition.

(** The registrations of [compound.py]. *)
Definition register_compound (self : Factory) : result Factory :=
  Factory_register self "compound"
    [Fn_compound_extractor] [Fn_compound_renderer] [Fn_compound_preprocessor] [].

(* ================================================================== *)
(** * Sample records *)
(* ================================================================== *)

Module Samples.

(** A record after extraction left [extracted] as given. *)
Definition record_with (extracted : list value) : dict :=
  dict_set "extracted" (VList extracted) RuntimeData.new.

(** A record whose last extracted value is a plain string. *)
Definition entered : value := VRuntimeData (record_with [VStr "v"]).

(** A record whose last extracted value maps one name to a record and
    another to a number. *)
Definition mixed : value :=
  VRuntimeData (record_with [VDict [("x", VRuntimeData RuntimeData.new); ("y", VInt 1)]]).

(** The record of a compound over two children, after extraction. *)
Definition over_children : dict :=
  record_with [VDict [("a", mixed); ("b", entered)]].

(** A record whose last extracted value is a mapping with the empty
    string as its only value. *)
Definition blank_field : dict := record_with [VDict [("k", VStr "")]].

(** Callables supplied from outside, acting on a log of the calls made:
    an extractor that copies the record's value unless the request has
    a key ["x"], a renderer that returns the record's value, and a
    preprocessor that hands the record back. *)
Definition external (id : string) (ancestors : list value) (w : Widget)
    (data : value) (log : list string) : list string * result value :=
  (log ++ [id],
   if String.eqb id "extract_value" then
     let! request := getitem data "request" in
     match request with
     | VDict m | VRuntimeData m =>
         if dict_has "x" m then Raise (ExtractionError true) [VStr "invalid"]
         else getitem data "value"
     | _ => getitem data "value"
     end
   else if String.eqb id "render_value" then getitem data "value"
   else if String.eqb id "keep" then Ok data
   else Raise (OtherException "NameError") [VStr id]).

Definition name_of (c : callable) : string :=
  match c with
  | Fn_compound_extractor => "compound_extractor"
  | Fn_compound_renderer => "compound_renderer"
  | Fn_compound_preprocessor => "compound_preprocessor"
  | External id => id
  end.

(** A text field. *)
Definition text (name : string) (value : value) : Widget :=
  Widget_init [External "extract_value"] [External "render_value"] [External "keep"]
              (Some name) value [].

(** A compound over two text fields. *)
Definition form : Widget :=
  Widget_setitem
    (Widget_setitem
       (Widget_init [Fn_compound_extractor] [Fn_compound_renderer]
                    [Fn_compound_preprocessor] (Some "form") VNone [])
       "a" (text "a" (VStr "3")))
    "b" (text "b" (VStr "4")).

(** A factory with two blueprints. *)
Definition two_blueprints : Factory :=
  mkFactory
    (<["b" := ([External "eb"], [External "rb"], [External "pb"], [])]>
       (<["a" := ([External "ea"], [External "ra"], [External "pa"], [])]> ∅))
    [External "global"].

Definition no_subwidgets (f : string) (w : Widget) (self : Factory)
    : result (list (string * Widget)) :=
  Ok [].

End Samples.

(* ================================================================== *)
(** * More of the sources *)
(* ================================================================== *)

(** What a call may not change of the node it is made on: everything but
    the children below their names. *)
Definition shell (w : Widget)
    : value * (list callable * list callable * list callable) *
      option string * dict * list string :=
  (getter w, chains w, __name__ w, attributes w, List.map fst (children w)).

(** A tree of widgets with every getter forgotten: what is left of it
    when the getters, at the node and everywhere below it, are not
    looked at. *)
Fixpoint bare (w : Widget) : Widget :=
  match w with
  | mkWidget _ ex ren pre name attrs cs =>
      mkWidget VNone ex ren pre name attrs
        ((fix below (cs : list (string * Widget)) : list (string * Widget) :=
            match cs with
            | [] => []
            | (n, c) :: rest => (n, bare c) :: below rest
            end) cs)
  end.

(** The children of a node, their getters forgotten. *)
Fixpoint bare_children (cs : list (string * Widget)) : list (string * Widget) :=
  match cs with
  | [] => []
  | (n, c) :: rest => (n, bare c) :: bare_children rest
  end.

(** [sep.join(names)] *)
Fixpoint join (sep : string) (names : list string) : string :=
  match names with
  | [] => EmptyString
  | [name] => name
  | name :: rest => (name ++ sep ++ join sep rest)%string
  end.


(** The renderers of [compound.py] that build markup with the helpers
    of [yafowil.utils]: callables known by their names. *)
Definition Fn_fieldset_renderer : callable := External "fieldset_renderer".
Definition Fn_form_renderer : callable := External "form_renderer".

(** [factory.register('fieldset', factory.extractors('compound'),
    factory.renderers('compound')+[fieldset_renderer],
    factory.preprocessors('compound'))] *)
Definition register_fieldset (self : Factory) : result Factory :=
  let! ex := Factory_extractors self "compound" in
  let! ren := Factory_renderers self "compound" in
  let! pre := Factory_preprocessors self "compound" in
  Factory_register self "fieldset" ex (ren ++ [Fn_fieldset_renderer]) pre [].

(** [factory.register('form', ...)] *)
Definition register_form (self : Factory) : result Factory :=
  let! ex := Factory_extractors self "compound" in
  let! ren := Factory_renderers self "compound" in
  let! pre := Factory_preprocessors self "compound" in
  Factory_register self "form" ex (ren ++ [Fn_form_renderer]) pre [].

(** The registrations [compound.py] makes when it is imported. *)
Definition import_compound (self : Factory) : result Factory :=
  let! self := register_compound self in
  let! self := register_fieldset self in
  register_form self.

(** Where [Factory.__call__] finds a name: [custom[reg_name[1:]]] for a
    name with a leading asterisk, [self._factories[reg_name]] for any
    other. *)
Definition resolve (self : Factory) (custom : gmap string blueprint)
    (reg_name : string) : option blueprint :=
  if startswith_asterisk reg_name then custom !! drop_first reg_name
  else _factories self !! reg_name.

(** The key a name is looked up under. *)
Definition lookup_key (reg_name : string) : string :=
  if startswith_asterisk reg_name then drop_first reg_name else reg_name.

(* ================================================================== *)
(** * More sample inputs *)
(* ================================================================== *)

Module Cases.

(** A record after preprocessing. *)
Definition preprocessed : value :=
  VRuntimeData (dict_set "value" (VStr "hello")
                  (dict_set "request" (VDict []) RuntimeData.new)).

(** A text field without preprocessors. *)
Definition plain : Widget :=
  Widget_init [External "extract_value"] [External "render_value"] []
              (Some "plain") (VStr "hello") [].

(** A compound over two text fields that delegates its value. *)
Definition delegating : Widget :=
  Widget_setitem
    (Widget_setitem
       (Widget_init [Fn_compound_extractor] [Fn_compound_renderer]
                    [Fn_compound_preprocessor] (Some "form")
                    (VDict [("a", VStr "A")]) [("delegation", VBool true)])
       "a" (Samples.text "a" (VStr "3")))
    "b" (Samples.text "" (VStr "4")).

(** A text field whose getter is called. *)
Definition computed : Widget :=
  Widget_init [External "extract_value"] [External "render_value"] [External "keep"]
              (Some "computed") (VCallable (External "missing")) [].

End Cases.

(* ================================================================== *)
(** * Properties of the record *)
(* ================================================================== *)

Lemma dict_get_set_eq k v m : dict_get k (dict_set k v m) = Some v.
Proof.
  induction m as [|[k' v'] m IH]; simpl.
  - now rewrite String.eqb_refl.
  - destruct (String.eqb k k') eqn:E; simpl; rewrite E; auto.
Qed.

Lemma dict_get_set_ne k k' v m :
  k <> k' -> dict_get k' (dict_set k v m) = dict_get k' m.
Proof.
  intros Hne. induction m as [|[k0 v0] m IH]; simpl.
  - destruct (String.eqb k' k) eqn:E; auto.
    apply String.eqb_eq in E. congruence.
  - destruct (String.eqb k k0) eqn:E; simpl.
    + apply String.eqb_eq in E. subst k0.
      destruct (String.eqb k' k) eqn:E'; auto.
      apply String.eqb_eq in E'. congruence.
    + destruct (String.eqb k' k0); auto.
Qed.

Lemma last_indep {A} (l : list A) d d' : l <> [] -> List.last l d = List.last l d'.
Proof.
  induction l as [|x l IH]; [congruence|].
  intros _. destruct l as [|y l]; [reflexivity|].
  change (List.last (y :: l) d = List.last (y :: l) d').
  apply IH. discriminate.
Qed.

Lemma _last_list self key default l :
  dict_get key self = Some (VList l) ->
  RuntimeData._last self key default = Ok (List.last l default).
Proof.
  intros H. unfold RuntimeData._last, dict_getitem, dict_get_or. rewrite H. simpl.
  destruct l as [|x l]; [reflexivity|].
  simpl Nat.eqb. cbv iota. unfold index_last.
  f_equal. apply last_indep. discriminate.
Qed.

Lemma vsize_pos v : 1 <= vsize v.
Proof. destruct v; simpl; lia. Qed.

Lemma vsize_In x l : In x l -> vsize x <= list_sum (List.map vsize l).
Proof.
  induction l as [|y l IH]; simpl; [tauto|].
  intros [->|H]; [lia|]. apply IH in H. lia.
Qed.

Lemma vsize_values x (m : dict) :
  In x (dict_values m) -> vsize x <= list_sum (List.map (fun kv => vsize (snd kv)) m).
Proof.
  unfold dict_values. induction m as [|[k y] m IH]; simpl; [tauto|].
  intros [->|H]; [lia|]. apply IH in H. lia.
Qed.

Lemma vsize_dict_get k (m : dict) x :
  dict_get k m = Some x -> vsize x <= list_sum (List.map (fun kv => vsize (snd kv)) m).
Proof.
  induction m as [|[k' y] m IH]; simpl; [discriminate|].
  destruct (String.eqb k k').
  - intros [= ->]. lia.
  - intros H. apply IH in H. lia.
Qed.

Lemma last_In {A} (l : list A) d : l <> [] -> In (List.last l d) l.
Proof.
  induction l as [|x l IH]; [congruence|].
  intros _. destruct l as [|y l]; [left; reflexivity|].
  right. apply IH. discriminate.
Qed.

Lemma vsize_index_last seq x : index_last seq = Ok x -> vsize x <= vsize seq.
Proof.
  destruct seq; try discriminate; unfold index_last.
  - destruct s; [discriminate|]. intros [= <-]. cbn [vsize]. lia.
  - destruct l as [|y l]; [discriminate|]. intros [= <-].
    pose proof (vsize_In (List.last (y :: l) VNone) (y :: l)
                  (last_In (y :: l) VNone ltac:(discriminate))) as H.
    change (vsize (List.last (y :: l) VNone) <= S (list_sum (List.map vsize (y :: l)))). lia.
  - destruct args as [|y l]; [discriminate|]. intros [= <-].
    pose proof (vsize_In (List.last (y :: l) VNone) (y :: l)
                  (last_In (y :: l) VNone ltac:(discriminate))) as H.
    change (vsize (List.last (y :: l) VNone) <= S (list_sum (List.map vsize (y :: l)))). lia.
Qed.

Lemma vsize_last_extracted m x :
  RuntimeData.last_extracted m = Ok x ->
  x = UNSET \/ vsize x < vsize (VRuntimeData m).
Proof.
  unfold RuntimeData.last_extracted, RuntimeData._last, dict_getitem, dict_get_or.
  destruct (dict_get "extracted" m) as [seq|] eqn:E; simpl; [|discriminate].
  destruct (len seq) as [n|] eqn:L; simpl; [|discriminate].
  destruct (Nat.eqb n 0).
  - intros [= <-]. now left.
  - intros H. right. apply vsize_index_last in H.
    apply vsize_dict_get in E. lia.
Qed.

Lemma first_true_ext f g vs :
  Forall (fun v => f v = g v) vs ->
  RuntimeData.first_true f vs = RuntimeData.first_true g vs.
Proof.
  induction 1 as [|v vs Hv _ IH]; simpl; [reflexivity|].
  rewrite Hv. destruct (g v) as [[|]|]; simpl; auto.
Qed.

Lemma comprehension_ext f g vs :
  Forall (fun v => f v = g v) vs ->
  RuntimeData.comprehension f vs = RuntimeData.comprehension g vs.
Proof.
  induction 1 as [|v vs Hv _ IH]; simpl; [reflexivity|].
  rewrite Hv, IH. reflexivity.
Qed.

Lemma has_extracted_depth_irrelevant n : forall n' v,
  vsize v <= n -> vsize v <= n' ->
  RuntimeData.has_extracted_depth n v = RuntimeData.has_extracted_depth n' v.
Proof.
  induction n as [|n IH]; intros n' v Hn Hn'.
  { pose proof (vsize_pos v). lia. }
  destruct n' as [|n']. { pose proof (vsize_pos v). lia. }
  destruct v; try reflexivity. simpl.
  destruct (RuntimeData.last_extracted m) as [last|] eqn:E; simpl; [|reflexivity].
  apply vsize_last_extracted in E. 
  assert (Hlast : forall x, vsize x < vsize last -> vsize x <= n /\ vsize x <= n').
  { intros x Hx. destruct E as [->|E]; simpl in *; lia. }
  destruct last; try reflexivity.
  - destruct (List.filter isinstance_RuntimeData l); [reflexivity|]. 
    cbn [truth].
    rewrite (comprehension_ext (RuntimeData.has_extracted_depth n)
                               (RuntimeData.has_extracted_depth n')); [reflexivity|].
    apply List.Forall_forall. intros x Hx.
    destruct (Hlast x). { apply vsize_In in Hx. simpl. lia. }
    now apply IH.
  - destruct (Nat.eqb _ 0); [reflexivity|].
    destruct (negb _); [reflexivity|].
    apply first_true_ext, List.Forall_forall. intros x Hx.
    destruct (Hlast x). { apply vsize_values in Hx. simpl. lia. }
    now apply IH.
  - destruct (Nat.eqb _ 0); [reflexivity|].
    destruct (negb _); [reflexivity|].
    apply first_true_ext, List.Forall_forall. intros x Hx.
    destruct (Hlast x). { apply vsize_values in Hx. simpl. lia. }
    now apply IH.
Qed.

Lemma has_extracted_unfold m :
  RuntimeData.has_extracted (VRuntimeData m) = RuntimeData.has_extracted_body m.
Proof.
  unfold RuntimeData.has_extracted, RuntimeData.has_extracted_body.
  remember (vsize (VRuntimeData m)) as n eqn:Hn.
  destruct n as [|n]; [simpl in Hn; discriminate|].
  cbn [RuntimeData.has_extracted_depth].
  destruct (RuntimeData.last_extracted m) as [last|] eqn:E; simpl; [|reflexivity].
  apply vsize_last_extracted in E.
  assert (Hlast : forall x, vsize x < vsize last -> vsize x <= n).
  { intros x Hx. destruct E as [->|E]; simpl in *; lia. }
  assert (Hrec : forall x, vsize x < vsize last ->
            RuntimeData.has_extracted_depth n x = RuntimeData.has_extracted_depth (vsize x) x).
  { intros x Hx. apply has_extracted_depth_irrelevant; auto. }
  destruct last; try reflexivity.
  - destruct (List.filter isinstance_RuntimeData l); [reflexivity|].
    cbn [truth].
    rewrite (comprehension_ext (RuntimeData.has_extracted_depth n)
               (fun x => RuntimeData.has_extracted_depth (vsize x) x)); [reflexivity|].
    apply List.Forall_forall. intros x Hx. apply Hrec.
    apply vsize_In in Hx. simpl. lia.
  - destruct (Nat.eqb _ 0); [reflexivity|].
    destruct (negb _); [reflexivity|].
    apply first_true_ext, List.Forall_forall. intros x Hx. apply Hrec.
    apply vsize_values in Hx. simpl. lia.
  - destruct (Nat.eqb _ 0); [reflexivity|].
    destruct (negb _); [reflexivity|].
    apply first_true_ext, List.Forall_forall. intros x Hx. apply Hrec.
    apply vsize_values in Hx. simpl. lia.
Qed.

Lemma filter_length_le {A} (p : A -> bool) l :
  List.length (List.filter p l) <= List.length l.
Proof. induction l as [|x l IH]; simpl; [lia|]. destruct (p x); simpl; lia. Qed.

Lemma filter_all {A} (p : A -> bool) l :
  List.Forall (fun x => p x = true) l -> List.filter p l = l.
Proof.
  induction 1 as [|x l Hx _ IH]; simpl; [reflexivity|]. now rewrite Hx, IH.
Qed.

Lemma filter_none {A} (p : A -> bool) l :
  List.Forall (fun x => p x = false) l -> List.filter p l = [].
Proof.
  induction 1 as [|x l Hx _ IH]; simpl; [reflexivity|]. now rewrite Hx.
Qed.

Lemma filter_some {A} (p : A -> bool) l :
  List.Exists (fun x => p x = true) l -> List.length (List.filter p l) <> 0.
Proof.
  induction 1 as [x l Hx|x l _ IH]; simpl.
  - rewrite Hx. simpl. lia.
  - destruct (p x); simpl; lia.
Qed.

Lemma filter_not_all {A} (p : A -> bool) l :
  List.Exists (fun x => p x = false) l ->
  List.length (List.filter p l) <> List.length l.
Proof.
  induction 1 as [x l Hx|x l _ IH]; simpl.
  - rewrite Hx. pose proof (filter_length_le p l). lia.
  - destruct (p x); simpl; [lia|]. pose proof (filter_length_le p l). lia.
Qed.

(** The loop over the values answers true exactly when it meets a true
    value after values that all answered false. *)
Lemma first_true_true f vs :
  RuntimeData.first_true f vs = Ok true <->
  exists pre v post,
    vs = pre ++ v :: post /\
    List.Forall (fun u => f u = Ok false) pre /\ f v = Ok true.
Proof.
  induction vs as [|x vs IH]; simpl.
  - split; [discriminate|].
    intros (pre & v & post & H & _). destruct pre; discriminate.
  - destruct (f x) as [[|]|cls args] eqn:E; simpl.
    + split; [|reflexivity]. intros _. exists [], x, vs. auto.
    + rewrite IH. split.
      * intros (pre & v & post & -> & Hpre & Hv).
        exists (x :: pre), v, post. auto.
      * intros (pre & v & post & Heq & Hpre & Hv).
        destruct pre as [|y pre]; simpl in Heq; injection Heq as <- Heq.
        -- congruence.
        -- inversion Hpre; subst. eauto 6.
    + split; [discriminate|].
      intros (pre & v & post & Heq & Hpre & Hv).
      destruct pre as [|y pre]; simpl in Heq; injection Heq as <- Heq.
      * congruence.
      * inversion Hpre; subst. congruence.
Qed.

(** When every value answers, the loop is a disjunction. *)
Lemma first_true_total f vs :
  List.Forall (fun v => exists b, f v = Ok b) vs ->
  (exists b, RuntimeData.first_true f vs = Ok b) /\
  (RuntimeData.first_true f vs = Ok true <-> List.Exists (fun v => f v = Ok true) vs).
Proof.
  induction 1 as [|x vs [b Hb] _ [[b' IH1] IH2]]; simpl.
  - split; [eauto|]. split; [discriminate|]. intros H. inversion H.
  - rewrite Hb. simpl. destruct b.
    + split; [eauto|]. split; auto.
    + split; [eauto|]. rewrite IH2. split; [auto|].
      intros H. inversion H; subst; [congruence|assumption].
Qed.

(** The loop over the values raises exactly what the first value that
    raises does, when the values before it all answered false. *)
Lemma first_true_raises f vs cls args :
  RuntimeData.first_true f vs = Raise cls args <->
  exists pre v post,
    vs = pre ++ v :: post /\
    List.Forall (fun u => f u = Ok false) pre /\ f v = Raise cls args.
Proof.
  induction vs as [|x vs IH]; simpl.
  - split; [discriminate|].
    intros (pre & v & post & H & _). destruct pre; discriminate.
  - destruct (f x) as [[|]|cls' args'] eqn:E; simpl.
    + split; [discriminate|].
      intros (pre & v & post & Heq & Hpre & Hv).
      destruct pre as [|y pre]; simpl in Heq; injection Heq as <- Heq.
      * congruence.
      * inversion Hpre; subst. congruence.
    + rewrite IH. split.
      * intros (pre & v & post & -> & Hpre & Hv).
        exists (x :: pre), v, post. auto.
      * intros (pre & v & post & Heq & Hpre & Hv).
        destruct pre as [|y pre]; simpl in Heq; injection Heq as <- Heq.
        -- congruence.
        -- inversion Hpre; subst. eauto 6.
    + split.
      * intros [= -> ->]. exists [], x, vs. auto.
      * intros (pre & v & post & Heq & Hpre & Hv).
        destruct pre as [|y pre]; simpl in Heq; injection Heq as <- Heq.
        -- congruence.
        -- inversion Hpre; subst. congruence.
Qed.

(** The loop over the values answers false exactly when every value
    answered false. *)
Lemma first_true_false f vs :
  RuntimeData.first_true f vs = Ok false <->
  List.Forall (fun u => f u = Ok false) vs.
Proof.
  induction vs as [|x vs IH]; simpl.
  - split; auto.
  - destruct (f x) as [[|]|cls args] eqn:E; simpl.
    + split; [discriminate|]. intros H. inversion H; subst. congruence.
    + rewrite IH. split; [auto|]. intros H. now inversion H.
    + split; [discriminate|]. intros H. inversion H; subst. congruence.
Qed.

(** The mapping branch of [has_extracted]. *)
Lemma has_extracted_mapping_branch self last lm :
  RuntimeData.last_extracted self = Ok last ->
  last = VDict lm \/ last = VRuntimeData lm ->
  RuntimeData.has_extracted (VRuntimeData self) =
    let values := dict_values lm in
    let lvalues := List.length values in
    let ldata := List.length (List.filter isinstance_RuntimeData values) in
    if Nat.eqb ldata 0 then Ok (truth (VList values))
    else if negb (Nat.eqb ldata lvalues) then Raise ValueError []
    else RuntimeData.first_true RuntimeData.has_extracted values.
Proof.
  intros E Hl. rewrite has_extracted_unfold.
  unfold RuntimeData.has_extracted_body. rewrite E.
  destruct Hl as [-> | ->]; reflexivity.
Qed.

(** C9.  On a record holding its [extracted] and [rendered] sequences,
    [last_extracted] is the last entry of [extracted], and [UNSET] when
    that sequence is empty; [last_rendered] is the last entry of
    [rendered], and the empty string when that sequence is empty.  Both
    return on every sequence: neither raises on an empty one. *)
Theorem last_of_sequences (self : dict) (extracted rendered : list value) :
  dict_get "extracted" self = Some (VList extracted) ->
  dict_get "rendered" self = Some (VList rendered) ->
  RuntimeData.last_extracted self = Ok (List.last extracted UNSET) /\
  RuntimeData.last_rendered self = Ok (List.last rendered (VStr "")) /\
  (extracted = [] -> RuntimeData.last_extracted self = Ok UNSET) /\
  (rendered = [] -> RuntimeData.last_rendered self = Ok (VStr "")).
Proof.
  intros He Hr.
  pose proof (_last_list self "extracted" UNSET extracted He) as H1.
  pose proof (_last_list self "rendered" (VStr "") rendered Hr) as H2.
  unfold RuntimeData.last_extracted, RuntimeData.last_rendered.
  repeat split; auto.
  - intros ->. exact H1.
  - intros ->. exact H2.
Qed.

Lemma last_of_sequences_witness :
  RuntimeData.last_extracted (Samples.record_with [VInt 1; VInt 2]) = Ok (VInt 2) /\
  RuntimeData.last_rendered (Samples.record_with [VInt 1; VInt 2]) = Ok (VStr "").
Proof.
  destruct (last_of_sequences (Samples.record_with [VInt 1; VInt 2])
              [VInt 1; VInt 2] [] eq_refl eq_refl) as (H1 & H2 & _).
  split; [exact H1 | exact H2].
Defined.

(** C10.  Whatever the constructor is given, the record it builds holds
    an empty list under each of ['extracted'], ['rendered'] and
    ['errors']; so its [last_extracted] is [UNSET], its [last_rendered]
    the empty string, and its [has_extracted] false. *)
Theorem RuntimeData_init_sequences (args kw : list (string * value)) :
  let self := RuntimeData.__init__ args kw in
  dict_get "extracted" self = Some (VList []) /\
  dict_get "rendered" self = Some (VList []) /\
  dict_get "errors" self = Some (VList []) /\
  RuntimeData.last_extracted self = Ok UNSET /\
  RuntimeData.last_rendered self = Ok (VStr "") /\
  RuntimeData.has_extracted (VRuntimeData self) = Ok false.
Proof.
  intros self.
  assert (He : dict_get "extracted" self = Some (VList [])).
  { unfold self, RuntimeData.__init__.
    rewrite !dict_get_set_ne by discriminate. apply dict_get_set_eq. }
  assert (Hr : dict_get "rendered" self = Some (VList [])).
  { unfold self, RuntimeData.__init__.
    rewrite dict_get_set_ne by discriminate. apply dict_get_set_eq. }
  assert (Hx : dict_get "errors" self = Some (VList [])).
  { unfold self, RuntimeData.__init__. apply dict_get_set_eq. }
  assert (Hle : RuntimeData.last_extracted self = Ok UNSET).
  { unfold RuntimeData.last_extracted. now rewrite (_last_list _ _ _ [] He). }
  assert (Hlr : RuntimeData.last_rendered self = Ok (VStr "")).
  { unfold RuntimeData.last_rendered. now rewrite (_last_list _ _ _ [] Hr). }
  repeat split; auto.
  rewrite has_extracted_unfold. unfold RuntimeData.has_extracted_body.
  now rewrite Hle.
Qed.

(** C7, as the code has it.  When the last extracted value is a mapping
    holding both a record and something that is no record, reading
    [has_extracted] raises [ValueError].  When every value of the
    mapping is a record, the values' own [has_extracted] are read in
    iteration order up to the first true one: the answer is true exactly
    when some value answers true after values that all answered false;
    the read raises exactly when some value's own read raises after
    values that all answered false, and then raises what that value
    raises; the answer is false exactly when every value answered
    false; and when no value raises, the answer is true exactly when
    some value's is. *)
Theorem has_extracted_mapping_of_records (self : dict) (last : value) (lm : dict) :
  RuntimeData.last_extracted self = Ok last ->
  last = VDict lm \/ last = VRuntimeData lm ->
  let values := dict_values lm in
  (List.Exists (fun v => isinstance_RuntimeData v = true) values ->
   List.Exists (fun v => isinstance_RuntimeData v = false) values ->
   RuntimeData.has_extracted (VRuntimeData self) = Raise ValueError []) /\
  (List.Forall (fun v => isinstance_RuntimeData v = true) values ->
   (RuntimeData.has_extracted (VRuntimeData self) = Ok true <->
    exists pre v post,
      values = pre ++ v :: post /\
      List.Forall (fun u => RuntimeData.has_extracted u = Ok false) pre /\
      RuntimeData.has_extracted v = Ok true) /\
   (List.Forall (fun v => exists b, RuntimeData.has_extracted v = Ok b) values ->
    (exists b, RuntimeData.has_extracted (VRuntimeData self) = Ok b) /\
    (RuntimeData.has_extracted (VRuntimeData self) = Ok true <->
     List.Exists (fun v => RuntimeData.has_extracted v = Ok true) values)) /\
   (forall cls args,
      RuntimeData.has_extracted (VRuntimeData self) = Raise cls args <->
      exists pre v post,
        values = pre ++ v :: post /\
        List.Forall (fun u => RuntimeData.has_extracted u = Ok false) pre /\
        RuntimeData.has_extracted v = Raise cls args) /\
   (RuntimeData.has_extracted (VRuntimeData self) = Ok false <->
    List.Forall (fun u => RuntimeData.has_extracted u = Ok false) values)).
Proof.
  intros E Hl values.
  pose proof (has_extracted_mapping_branch self last lm E Hl) as Hb.
  cbv zeta in Hb. fold values in Hb.
  split.
  - intros Hsome Hnot. rewrite Hb.
    apply filter_some in Hsome. apply filter_not_all in Hnot.
    destruct (Nat.eqb_spec (List.length (List.filter isinstance_RuntimeData values)) 0);
      [contradiction|].
    destruct (Nat.eqb_spec (List.length (List.filter isinstance_RuntimeData values))
                (List.length values)); [contradiction|reflexivity].
  - intros Hall.
    assert (Hloop : RuntimeData.has_extracted (VRuntimeData self) =
                    RuntimeData.first_true RuntimeData.has_extracted values).
    { rewrite Hb, (filter_all _ _ Hall).
      destruct values as [|v vs]; [reflexivity|].
      simpl List.length. simpl Nat.eqb. rewrite Nat.eqb_refl. reflexivity. }
    rewrite Hloop. split; [|split; [|split]].
    + apply first_true_true.
    + apply first_true_total.
    + intros cls args. apply first_true_raises.
    + apply first_true_false.
Qed.

Lemma has_extracted_mapping_of_records_witness :
  RuntimeData.has_extracted Samples.mixed = Raise ValueError [].
Proof.
  refine (proj1 (has_extracted_mapping_of_records
            (Samples.record_with
               [VDict [("x", VRuntimeData RuntimeData.new); ("y", VInt 1)]])
            (VDict [("x", VRuntimeData RuntimeData.new); ("y", VInt 1)])
            [("x", VRuntimeData RuntimeData.new); ("y", VInt 1)]
            eq_refl (or_introl eq_refl)) _ _).
  - apply Exists_cons_hd. reflexivity.
  - apply Exists_cons_tl, Exists_cons_hd. reflexivity.
Defined.

(** Every value of the mapping is a record and the second one's
    [has_extracted] is true, yet reading [has_extracted] does not answer
    true: the first value's own read raises [ValueError] first, and so
    does the read. *)
Lemma has_extracted_some_true_counterexample :
  let values := [Samples.mixed; Samples.entered] in
  RuntimeData.last_extracted Samples.over_children =
    Ok (VDict [("a", Samples.mixed); ("b", Samples.entered)]) /\
  List.Forall (fun v => isinstance_RuntimeData v = true) values /\
  List.Exists (fun v => RuntimeData.has_extracted v = Ok true) values /\
  RuntimeData.has_extracted (VRuntimeData Samples.over_children) <> Ok true /\
  RuntimeData.has_extracted Samples.mixed = Raise ValueError [] /\
  RuntimeData.has_extracted (VRuntimeData Samples.over_children) = Raise ValueError [].
Proof.
  repeat split.
  - repeat constructor.
  - apply Exists_cons_tl, Exists_cons_hd. vm_compute. reflexivity.
  - vm_compute. discriminate.
Qed.

(** C8, as the code has it.  When the last extracted value is a mapping
    none of whose values is a record, [has_extracted] is the truth of
    the list of the mapping's values: true exactly when the mapping has
    an entry, whatever the entries' values are. *)
Theorem has_extracted_plain_mapping (self : dict) (last : value) (lm : dict) :
  RuntimeData.last_extracted self = Ok last ->
  last = VDict lm \/ last = VRuntimeData lm ->
  List.Forall (fun v => isinstance_RuntimeData v = false) (dict_values lm) ->
  RuntimeData.has_extracted (VRuntimeData self) = Ok (truth (VList (dict_values lm))) /\
  (RuntimeData.has_extracted (VRuntimeData self) = Ok true <-> lm <> []).
Proof.
  intros E Hl Hnone.
  assert (H : RuntimeData.has_extracted (VRuntimeData self) =
              Ok (truth (VList (dict_values lm)))).
  { rewrite (has_extracted_mapping_branch self last lm E Hl).
    cbv zeta. now rewrite (filter_none _ _ Hnone). }
  split; [exact H|]. rewrite H.
  destruct lm as [|kv lm]; simpl; split; congruence.
Qed.

Lemma has_extracted_plain_mapping_witness :
  RuntimeData.has_extracted (VRuntimeData Samples.blank_field) = Ok true.
Proof.
  refine (proj1 (has_extracted_plain_mapping Samples.blank_field
            (VDict [("k", VStr "")]) [("k", VStr "")]
            eq_refl (or_introl eq_refl) _)).
  repeat constructor.
Defined.

(** The mapping's only value is the empty string, no value is a record,
    every value is false, and [has_extracted] is true. *)
Lemma has_extracted_falsy_values_counterexample :
  let lm := [("k", VStr "")] in
  RuntimeData.last_extracted Samples.blank_field = Ok (VDict lm) /\
  List.Forall (fun v => isinstance_RuntimeData v = false) (dict_values lm) /\
  List.Forall (fun v => truth v = false) (dict_values lm) /\
  RuntimeData.has_extracted (VRuntimeData Samples.blank_field) <> Ok false.
Proof.
  repeat split.
  - repeat constructor.
  - repeat constructor.
  - vm_compute. discriminate.
Qed.

Lemma callable_eq_dec (c c' : callable) : {c = c'} + {c <> c'}.
Proof. decide equality. apply String.string_dec. Defined.

(* ================================================================== *)
(** * The depth of the calls *)
(* ================================================================== *)

Lemma height_children w : height w = S (max_height (children w)).
Proof.
  destruct w as [g ex ren pre nm at_ cs]. reflexivity.
Qed.

Lemma height_set_children w cs : height (set_children w cs) = S (max_height cs).
Proof. now rewrite height_children. Qed.

Lemma height_set_getter w g : height (set_getter w g) = height w.
Proof. now rewrite !height_children. Qed.

Lemma height_pos w : 1 <= height w.
Proof. rewrite height_children. lia. Qed.

Lemma set_children_same_height w cs :
  max_height cs = max_height (children w) -> height (set_children w cs) = height w.
Proof. intros H. now rewrite height_set_children, height_children, H. Qed.

Ltac split_call e :=
  let s := fresh "s" in let w := fresh "w" in
  let d := fresh "d" in let r := fresh "r" in
  let E := fresh "E" in
  destruct e as [[[s w] d] r] eqn:E.

Ltac split_run e :=
  let s := fresh "s" in let w := fresh "w" in
  let r := fresh "r" in let E := fresh "E" in
  destruct e as [[s w] r] eqn:E.

Section Depth.

Context {World : Type}.
Variable call_external :
  string -> list value -> Widget -> value -> World -> World * result value.
Variable str_callable : callable -> string.

Local Abbreviation call_on := (callable -> list value -> Widget -> value -> World -> called World).

Section Keeps.

Context {A : Type}.
Variable f : Widget -> A.
Variable inv : call_on.
Hypothesis Hinv : keeps f inv.

Lemma inv_keeps c anc w d s s' w' d' r :
  inv c anc w d s = (s', w', d', r) -> f w' = f w.
Proof using Hinv. intros E. pose proof (Hinv c anc w d s) as H. now rewrite E in H. Qed.

Lemma preprocess_loop_keeps anc pps : forall s w d s' w' r,
  preprocess_loop World str_callable inv anc pps s w d = (s', w', r) ->
  f w' = f w.
Proof using Hinv.
  induction pps as [|pp pps IH]; simpl; intros s w d s' w' r.
  - now intros [= _ <- _].
  - split_call (inv pp anc w d s). apply inv_keeps in E.
    destruct r0.
    + intros H. apply IH in H. congruence.
    + intros [= _ <- _]. assumption.
Qed.

Lemma runpreprocessors_body_keeps anc w request data s s' w' r :
  runpreprocessors_body World str_callable inv anc w request data s = (s', w', r) ->
  f w' = f w.
Proof using Hinv.
  unfold runpreprocessors_body.
  destruct (dict_has "value" data && dict_has "request" data).
  { now intros [= _ <- _]. }
  assert (Hpre : forall s0 w0 (r0 : result value),
    f w0 = f w ->
    match r0 with
    | Raise cls args => (s0, w0, Raise cls args)
    | Ok data0 =>
        preprocess_loop World str_callable inv anc (preprocessors w0) s0 w0 data0
    end = (s', w', r) -> f w' = f w).
  { intros s0 w0 [d0|cls args] Hw0.
    - intros H. apply preprocess_loop_keeps in H. congruence.
    - intros [= _ <- _]. assumption. }
  destruct (getter w) as [| | | | | | | |g|] eqn:G;
    try (intros H; apply preprocess_loop_keeps in H; exact H).
  split_call (inv g anc w (VRuntimeData (dict_set "request" request data)) s).
  apply inv_keeps in E. apply Hpre. assumption.
Qed.

Lemma extract_loop_keeps anc exs : forall s w d s' w' r,
  extract_loop World str_callable inv anc exs s w d = (s', w', r) ->
  f w' = f w.
Proof using Hinv.
  induction exs as [|ex exs IH]; simpl; intros s w d s' w' r.
  - now intros [= _ <- _].
  - split_call (inv ex anc w d s). apply inv_keeps in E.
    destruct r0 as [v|cls args].
    + destruct (append_item d0 "extracted" v).
      * intros H. apply IH in H. congruence.
      * intros [= _ <- _]. assumption.
    + destruct cls; try (intros [= _ <- _]; assumption).
      destruct (append_item d0 "errors" _); [|intros [= _ <- _]; assumption].
      destruct abort; [intros [= _ <- _]; assumption|].
      intros H. apply IH in H. congruence.
Qed.

Lemma extract_body_keeps anc w request s s' w' r :
  extract_body World str_callable inv anc w request s = (s', w', r) ->
  f w' = f w.
Proof using Hinv.
  unfold extract_body.
  split_run (runpreprocessors_body World str_callable inv anc w request RuntimeData.new s).
  apply runpreprocessors_body_keeps in E.
  destruct r0.
  - intros H. apply extract_loop_keeps in H. congruence.
  - intros [= _ <- _]. assumption.
Qed.

Lemma render_loop_keeps anc rens : forall s w d s' w' d' r,
  render_loop World str_callable inv anc rens s w d = (s', w', d', r) ->
  f w' = f w.
Proof using Hinv.
  induction rens as [|ren rens IH]; simpl; intros s w d s' w' d' r.
  - now intros [= _ <- _ _].
  - split_call (inv ren anc w d s). apply inv_keeps in E.
    destruct r0 as [v|cls args].
    + destruct (append_item d0 "rendered" v).
      * intros H. apply IH in H. congruence.
      * intros [= _ <- _ _]. assumption.
    + intros [= _ <- _ _]. assumption.
Qed.

Lemma call_body_keeps anc w request data s s' w' d' r :
  call_body World str_callable inv anc w request data s = (s', w', d', r) ->
  f w' = f w.
Proof using Hinv.
  unfold call_body.
  assert (Hren : forall s0 w0 (r0 : result value),
    f w0 = f w ->
    match r0 with
    | Raise cls args => (s0, w0, data, Raise cls args)
    | Ok data0 => render_loop World str_callable inv anc (renderers w0) s0 w0 data0
    end = (s', w', d', r) -> f w' = f w).
  { intros s0 w0 [d0|cls args] Hw0.
    - intros H. apply render_loop_keeps in H. congruence.
    - intros [= _ <- _ _]. assumption. }
  destruct (is_None data && negb (truth request)).
  { split_run (runpreprocessors_body World str_callable inv anc w request RuntimeData.new s).
    apply runpreprocessors_body_keeps in E. now apply Hren. }
  destruct (is_None data && truth request).
  { split_run (extract_body World str_callable inv anc w request s).
    apply extract_body_keeps in E. now apply Hren. }
  apply (Hren s w (Ok data)). reflexivity.
Qed.

End Keeps.

Local Abbreviation keeps_height := (keeps height).

Section KeepsHeight.

Variable inv : call_on.
Hypothesis Hinv : keeps_height inv.

Lemma extract_children_height here cs : forall data res s s' cs' r,
  extract_children World str_callable inv here cs data res s = (s', cs', r) ->
  max_height cs' = max_height cs.
Proof using Hinv.
  induction cs as [|[n c] cs IH]; simpl; intros data res s s' cs' r.
  - now intros [= _ <- _].
  - destruct (getitem data "request") as [request|]; [|now intros [= _ <- _]].
    split_run (extract_body World str_callable inv here c request s).
    apply (extract_body_keeps height _ Hinv) in E.
    destruct r0 as [d|].
    + destruct (extract_children World str_callable inv here cs data
                  (dict_set n d res) s0) as [[s1 cs1] r1] eqn:E1.
      apply IH in E1. intros [= _ <- _]. simpl. congruence.
    + intros [= _ <- _]. simpl. congruence.
Qed.

Lemma render_children_height here cs : forall data res s s' cs' d' r,
  render_children World str_callable inv here cs data res s = (s', cs', d', r) ->
  max_height cs' = max_height cs.
Proof using Hinv.
  induction cs as [|[n c] cs IH]; simpl; intros data res s s' cs' d' r.
  - now intros [= _ <- _ _].
  - destruct (child_kw data n) as [[request kwdata]|]; [|now intros [= _ <- _ _]].
    split_call (call_body World str_callable inv here c request
                  match kwdata with Some sub => sub | None => VNone end s).
    apply (call_body_keeps height _ Hinv) in E.
    destruct (let! out := r0 in add_unicode res out) as [acc|].
    + match goal with |- context [render_children _ _ _ _ _ ?dd _ _] =>
        destruct (render_children World str_callable inv here cs dd acc s0)
          as [[[s1 cs1] d1] r1] eqn:E1 end.
      apply IH in E1. intros [= _ <- _ _]. simpl. congruence.
    + intros [= _ <- _ _]. simpl. congruence.
Qed.

End KeepsHeight.

Lemma delegate_children_height cs data :
  max_height (fst (delegate_children cs data)) = max_height cs.
Proof.
  induction cs as [|[n c] cs IH]; simpl; [reflexivity|].
  destruct (let! value := getitem data "value" in method_get value n VNone);
    [|reflexivity].
  destruct (delegate_children cs data) as [rest r].
  cbn [fst max_height] in *.
  now rewrite height_set_getter, IH.
Qed.

Lemma invoke_keeps_height n : keeps_height (invoke World call_external str_callable n).
Proof.
  induction n as [|n IH]; intros c anc w d s; destruct c; simpl;
    try reflexivity;
    try (destruct (call_external id anc w d s); reflexivity);
    try (unfold compound_preprocessor_body;
         destruct (truth _); [|reflexivity];
         pose proof (delegate_children_height (children w) d) as H;
         destruct (delegate_children (children w) d) as [cs r];
         unfold widget_of; simpl in *; now apply set_children_same_height).
  - unfold compound_extractor_body.
    destruct (extract_children _ _ _ _ _ _ _ _) as [[s1 cs1] r1] eqn:E.
    apply (extract_children_height _ IH) in E.
    unfold widget_of; simpl. now apply set_children_same_height.
  - unfold compound_renderer_body.
    destruct (render_children _ _ _ _ _ _ _ _) as [[[s1 cs1] d1] r1] eqn:E.
    apply (render_children_height _ IH) in E.
    unfold widget_of; simpl. now apply set_children_same_height.
Qed.

Section Agree.

(** Two ways of calling that agree on every node of height at most [h],
    the first leaving heights as they are. *)
Variables inv1 inv2 : call_on.
Variable h : nat.
Hypothesis Hagree :
  forall c anc w d s, height w <= h -> inv1 c anc w d s = inv2 c anc w d s.
Hypothesis Hkeep : keeps_height inv1.

Lemma preprocess_loop_agree anc pps : forall s w d,
  height w <= h ->
  preprocess_loop World str_callable inv1 anc pps s w d =
  preprocess_loop World str_callable inv2 anc pps s w d.
Proof using Hagree Hkeep.
  induction pps as [|pp pps IH]; simpl; intros s w d Hw; [reflexivity|].
  rewrite <- Hagree by assumption.
  split_call (inv1 pp anc w d s). apply (inv_keeps height _ Hkeep) in E.
  destruct r; [|reflexivity]. apply IH. lia.
Qed.

Lemma runpreprocessors_body_agree anc w request data s :
  height w <= h ->
  runpreprocessors_body World str_callable inv1 anc w request data s =
  runpreprocessors_body World str_callable inv2 anc w request data s.
Proof using Hagree Hkeep.
  intros Hw. unfold runpreprocessors_body.
  destruct (dict_has "value" data && dict_has "request" data); [reflexivity|].
  destruct (getter w) as [| | | | | | | |g|] eqn:G;
    try (apply preprocess_loop_agree; assumption).
  rewrite <- Hagree by assumption.
  split_call (inv1 g anc w (VRuntimeData (dict_set "request" request data)) s).
  apply (inv_keeps height _ Hkeep) in E.
  destruct (let! v := r in setitem d "value" v); [|reflexivity].
  apply preprocess_loop_agree. lia.
Qed.

Lemma extract_loop_agree anc exs : forall s w d,
  height w <= h ->
  extract_loop World str_callable inv1 anc exs s w d =
  extract_loop World str_callable inv2 anc exs s w d.
Proof using Hagree Hkeep.
  induction exs as [|ex exs IH]; simpl; intros s w d Hw; [reflexivity|].
  rewrite <- Hagree by assumption.
  split_call (inv1 ex anc w d s). apply (inv_keeps height _ Hkeep) in E.
  destruct r as [v|cls args].
  - destruct (append_item d0 "extracted" v); [|reflexivity]. apply IH. lia.
  - destruct cls; try reflexivity.
    destruct (append_item d0 "errors" _); [|reflexivity].
    destruct abort; [reflexivity|]. apply IH. lia.
Qed.

Lemma extract_body_agree anc w request s :
  height w <= h ->
  extract_body World str_callable inv1 anc w request s =
  extract_body World str_callable inv2 anc w request s.
Proof using Hagree Hkeep.
  intros Hw. unfold extract_body.
  rewrite <- runpreprocessors_body_agree by assumption.
  split_run (runpreprocessors_body World str_callable inv1 anc w request RuntimeData.new s).
  apply (runpreprocessors_body_keeps height _ Hkeep) in E.
  destruct r; [|reflexivity]. apply extract_loop_agree. lia.
Qed.

Lemma render_loop_agree anc rens : forall s w d,
  height w <= h ->
  render_loop World str_callable inv1 anc rens s w d =
  render_loop World str_callable inv2 anc rens s w d.
Proof using Hagree Hkeep.
  induction rens as [|ren rens IH]; simpl; intros s w d Hw; [reflexivity|].
  rewrite <- Hagree by assumption.
  split_call (inv1 ren anc w d s). apply (inv_keeps height _ Hkeep) in E.
  destruct r as [v|cls args]; [|reflexivity].
  destruct (append_item d0 "rendered" v); [|reflexivity]. apply IH. lia.
Qed.

Lemma call_body_agree anc w request data s :
  height w <= h ->
  call_body World str_callable inv1 anc w request data s =
  call_body World str_callable inv2 anc w request data s.
Proof using Hagree Hkeep.
  intros Hw. unfold call_body.
  destruct (is_None data && negb (truth request)).
  { rewrite <- runpreprocessors_body_agree by assumption.
    split_run (runpreprocessors_body World str_callable inv1 anc w request RuntimeData.new s).
    apply (runpreprocessors_body_keeps height _ Hkeep) in E.
    destruct r; [|reflexivity]. apply render_loop_agree. lia. }
  destruct (is_None data && truth request).
  { rewrite <- extract_body_agree by assumption.
    split_run (extract_body World str_callable inv1 anc w request s).
    apply (extract_body_keeps height _ Hkeep) in E.
    destruct r; [|reflexivity]. apply render_loop_agree. lia. }
  apply render_loop_agree. assumption.
Qed.

Lemma extract_children_agree here cs : forall data res s,
  max_height cs <= h ->
  extract_children World str_callable inv1 here cs data res s =
  extract_children World str_callable inv2 here cs data res s.
Proof using Hagree Hkeep.
  induction cs as [|[n c] cs IH]; simpl; intros data res s Hcs; [reflexivity|].
  destruct (getitem data "request") as [request|]; [|reflexivity].
  rewrite <- extract_body_agree by lia.
  split_run (extract_body World str_callable inv1 here c request s).
  destruct r; [|reflexivity]. rewrite IH by lia. reflexivity.
Qed.

Lemma render_children_agree here cs : forall data res s,
  max_height cs <= h ->
  render_children World str_callable inv1 here cs data res s =
  render_children World str_callable inv2 here cs data res s.
Proof using Hagree Hkeep.
  induction cs as [|[n c] cs IH]; simpl; intros data res s Hcs; [reflexivity|].
  destruct (child_kw data n) as [[request kwdata]|]; [|reflexivity].
  rewrite <- call_body_agree by lia.
  split_call (call_body World str_callable inv1 here c request
                match kwdata with Some sub => sub | None => VNone end s).
  destruct (let! out := r in add_unicode res out); [|reflexivity].
  rewrite IH by lia. reflexivity.
Qed.

End Agree.

Lemma invoke_keeps_chains n : keeps chains (invoke World call_external str_callable n).
Proof.
  intros c anc w d s. destruct n, c; simpl; try reflexivity;
    try (destruct (call_external id anc w d s); reflexivity);
    try (unfold compound_preprocessor_body;
         destruct (truth _); [|reflexivity];
         destruct (delegate_children (children w) d); reflexivity).
  - unfold compound_extractor_body.
    destruct (extract_children _ _ _ _ _ _ _ _) as [[s1 cs1] r1]. reflexivity.
  - unfold compound_renderer_body.
    destruct (render_children _ _ _ _ _ _ _ _) as [[[s1 cs1] d1] r1]. reflexivity.
Qed.

(** Calls of depth [n] are all the calls there are on a node of height
    at most [n]. *)
Lemma invoke_enough n : forall m c anc w d s,
  height w <= n -> n <= m ->
  invoke World call_external str_callable n c anc w d s =
  invoke World call_external str_callable m c anc w d s.
Proof.
  induction n as [|n IH]; intros m c anc w d s Hw Hm.
  { pose proof (height_pos w). lia. }
  destruct m as [|m]; [lia|].
  rewrite height_children in Hw.
  destruct c; simpl; try reflexivity.
  - unfold compound_extractor_body.
    rewrite (extract_children_agree
               (invoke World call_external str_callable n)
               (invoke World call_external str_callable m) n); try reflexivity.
    + intros. apply IH; lia.
    + apply invoke_keeps_height.
    + lia.
  - unfold compound_renderer_body.
    rewrite (render_children_agree
               (invoke World call_external str_callable n)
               (invoke World call_external str_callable m) n); try reflexivity.
    + intros. apply IH; lia.
    + apply invoke_keeps_height.
    + lia.
Qed.

End Depth.

(* ================================================================== *)
(** * The entry points *)
(* ================================================================== *)

Section Entry.

Context {World : Type}.
Variable call_external :
  string -> list value -> Widget -> value -> World -> World * result value.
Variable str_callable : callable -> string.

Local Abbreviation Invoke := (invoke World call_external str_callable).
Local Abbreviation Call := (call World call_external str_callable).
Local Abbreviation Extract := (Widget_extract World call_external str_callable).
Local Abbreviation Render := (Widget_call World call_external str_callable).
Local Abbreviation Preprocess :=
  (Widget_runpreprocessors World call_external str_callable).
Local Abbreviation Preprocess_chain :=
  (preprocess_chain World call_external str_callable).
Local Abbreviation Extract_chain := (extract_chain World call_external str_callable).
Local Abbreviation Render_chain := (render_chain World call_external str_callable).

Lemma call_height c anc w d s s' w' d' r :
  Call c anc w d s = (s', w', d', r) -> height w' = height w.
Proof.
  intros E.
  pose proof (invoke_keeps_height call_external str_callable (height w) c anc w d s) as H.
  unfold call in E. now rewrite E in H.
Qed.

Lemma invoke_call k c anc w d s :
  height w <= k -> Invoke k c anc w d s = Call c anc w d s.
Proof. intros H. unfold call. symmetry. now apply invoke_enough. Qed.

Lemma extract_body_enough k anc w request s :
  height w <= k ->
  extract_body World str_callable (Invoke k) anc w request s = Extract anc w request s.
Proof.
  intros H. unfold Widget_extract. symmetry.
  apply (extract_body_agree str_callable _ _ (height w)); [|apply invoke_keeps_height|lia].
  intros. apply invoke_enough; lia.
Qed.

Lemma call_body_enough k anc w request data s :
  height w <= k ->
  call_body World str_callable (Invoke k) anc w request data s =
  Render anc w request data s.
Proof.
  intros H. unfold Widget_call. symmetry.
  apply (call_body_agree str_callable _ _ (height w)); [|apply invoke_keeps_height|lia].
  intros. apply invoke_enough; lia.
Qed.

(** The loops, one callable at a time. *)

Lemma preprocess_chain_nil anc s w d : Preprocess_chain anc [] s w d = (s, w, Ok d).
Proof. reflexivity. Qed.

Lemma preprocess_chain_cons anc pp rest s w d :
  Preprocess_chain anc (pp :: rest) s w d =
  let '(s1, w1, _, r) := Call pp anc w d s in
  match r with
  | Raise cls args => (s1, w1, Raise cls (annotated str_callable pp anc w1 args))
  | Ok d2 => Preprocess_chain anc rest s1 w1 d2
  end.
Proof.
  unfold preprocess_chain at 1. simpl. fold (Call pp anc w d s).
  split_call (Call pp anc w d s). apply call_height in E.
  destruct r; [|reflexivity]. unfold preprocess_chain. now rewrite E.
Qed.

Lemma extract_chain_nil anc s w d : Extract_chain anc [] s w d = (s, w, Ok d).
Proof. reflexivity. Qed.

Lemma extract_chain_cons anc ex rest s w d :
  Extract_chain anc (ex :: rest) s w d =
  let '(s1, w1, d1, r) := Call ex anc w d s in
  match r with
  | Ok v =>
      match append_item d1 "extracted" v with
      | Ok d2 => Extract_chain anc rest s1 w1 d2
      | Raise cls args => (s1, w1, Raise cls args)
      end
  | Raise (ExtractionError abort) args =>
      match append_item d1 "errors" (VExc (ExtractionError abort) args) with
      | Ok d2 => if abort then (s1, w1, Ok d2) else Extract_chain anc rest s1 w1 d2
      | Raise cls args => (s1, w1, Raise cls args)
      end
  | Raise cls args => (s1, w1, Raise cls (annotated str_callable ex anc w1 args))
  end.
Proof.
  unfold extract_chain at 1. simpl. fold (Call ex anc w d s).
  split_call (Call ex anc w d s). apply call_height in E.
  unfold extract_chain. rewrite E. reflexivity.
Qed.

Lemma render_chain_nil anc s w d :
  Render_chain anc [] s w d = (s, w, d, attr_last_rendered d).
Proof. reflexivity. Qed.

Lemma render_chain_cons anc ren rest s w d :
  Render_chain anc (ren :: rest) s w d =
  let '(s1, w1, d1, r) := Call ren anc w d s in
  match r with
  | Raise cls args => (s1, w1, d1, Raise cls (annotated str_callable ren anc w1 args))
  | Ok v =>
      match append_item d1 "rendered" v with
      | Ok d2 => Render_chain anc rest s1 w1 d2
      | Raise cls args => (s1, w1, d1, Raise cls args)
      end
  end.
Proof.
  unfold render_chain at 1. simpl. fold (Call ren anc w d s).
  split_call (Call ren anc w d s). apply call_height in E.
  unfold render_chain. rewrite E. reflexivity.
Qed.

(** The entry points, in terms of the loops. *)

Lemma Widget_runpreprocessors_eq anc w request data s :
  Preprocess anc w request data s =
  if dict_has "value" data && dict_has "request" data then
    (s, w, Ok (VRuntimeData data))
  else
    let data1 := dict_set "request" request data in
    match getter w with
    | VCallable g =>
        let '(s1, w1, d1, r) := Call g anc w (VRuntimeData data1) s in
        match (let! v := r in setitem d1 "value" v) with
        | Raise cls args => (s1, w1, Raise cls args)
        | Ok d2 => Preprocess_chain anc (preprocessors w1) s1 w1 d2
        end
    | v =>
        Preprocess_chain anc (preprocessors w) s w
          (VRuntimeData (dict_set "value" v data1))
    end.
Proof.
  unfold Widget_runpreprocessors, runpreprocessors_body.
  destruct (dict_has "value" data && dict_has "request" data); [reflexivity|].
  cbv zeta.
  destruct (getter w) as [| | | | | | | |g|]; try reflexivity.
  fold (Call g anc w (VRuntimeData (dict_set "request" request data)) s).
  split_call (Call g anc w (VRuntimeData (dict_set "request" request data)) s).
  apply call_height in E.
  destruct (let! v := r in setitem d "value" v); [|reflexivity].
  unfold preprocess_chain. now rewrite E.
Qed.

Lemma Widget_extract_eq anc w request s :
  Extract anc w request s =
  let '(s0, w0, r) := Preprocess anc w request RuntimeData.new s in
  match r with
  | Raise cls args => (s0, w0, Raise cls args)
  | Ok d0 => Extract_chain anc (extractors w0) s0 w0 d0
  end.
Proof.
  unfold Widget_extract, extract_body.
  fold (Preprocess anc w request RuntimeData.new s).
  split_run (Preprocess anc w request RuntimeData.new s).
  apply (runpreprocessors_body_keeps str_callable height _
           (invoke_keeps_height call_external str_callable (height w))) in E.
  destruct r; [|reflexivity]. unfold extract_chain. now rewrite E.
Qed.

Lemma Widget_call_eq anc w request data s :
  Render anc w request data s =
  let '(s0, w0, r) :=
    if is_None data && negb (truth request) then
      Preprocess anc w request RuntimeData.new s
    else if is_None data && truth request then Extract anc w request s
    else (s, w, Ok data) in
  match r with
  | Raise cls args => (s0, w0, data, Raise cls args)
  | Ok d0 => Render_chain anc (renderers w0) s0 w0 d0
  end.
Proof.
  unfold Widget_call, call_body.
  fold (Preprocess anc w request RuntimeData.new s).
  fold (Extract anc w request s).
  destruct (is_None data && negb (truth request)).
  { split_run (Preprocess anc w request RuntimeData.new s).
    apply (runpreprocessors_body_keeps str_callable height _
             (invoke_keeps_height call_external str_callable (height w))) in E.
    destruct r; [|reflexivity]. unfold render_chain. now rewrite E. }
  destruct (is_None data && truth request); [|reflexivity].
  split_run (Extract anc w request s).
  apply (extract_body_keeps str_callable height _
           (invoke_keeps_height call_external str_callable (height w))) in E.
  destruct r; [|reflexivity]. unfold render_chain. now rewrite E.
Qed.

(** ** The loops and their step-by-step readings *)

Lemma preprocess_chain_run anc pps : forall s w d s' w' d',
  Preprocess_chain anc pps s w d = (s', w', Ok d') <->
  preprocess_run World call_external str_callable anc pps s w d s' w' d'.
Proof.
  induction pps as [|pp pps IH]; intros s w d s' w' d'.
  - rewrite preprocess_chain_nil. split.
    + intros [= -> -> ->]. constructor.
    + intros H. inversion H; subst. reflexivity.
  - rewrite preprocess_chain_cons. split.
    + split_call (Call pp anc w d s). destruct r as [d2|]; [|discriminate].
      intros H. apply IH in H. econstructor; eauto.
    + intros H. inversion H; subst.
      match goal with H : call _ _ _ _ _ _ _ _ = _ |- _ => rewrite H end.
      now apply IH.
Qed.

Lemma extract_chain_run anc exs : forall s w d s' w' d',
  Extract_chain anc exs s w d = (s', w', Ok d') <->
  exists log, extract_run World call_external str_callable anc exs s w d log s' w' d'.
Proof.
  induction exs as [|ex exs IH]; intros s w d s' w' d'.
  - rewrite extract_chain_nil. split.
    + intros [= -> -> ->]. eexists. constructor.
    + intros [log H]. inversion H; subst. reflexivity.
  - rewrite extract_chain_cons. split.
    + split_call (Call ex anc w d s). destruct r as [v|cls args].
      * destruct (append_item d0 "extracted" v) as [d2|] eqn:A; [|discriminate].
        intros H. apply IH in H. destruct H as [log H].
        eexists. eapply extract_value; eauto.
      * destruct cls; try discriminate.
        destruct (append_item d0 "errors" _) as [d2|] eqn:A; [|discriminate].
        destruct abort.
        -- intros [= <- <- <-]. eexists. eapply extract_abort; eauto.
        -- intros H. apply IH in H. destruct H as [log H].
           eexists. eapply extract_error; eauto.
    + intros [log H]. inversion H; subst;
        match goal with H : call _ _ _ _ _ _ _ _ = _ |- _ => rewrite H end;
        match goal with H : append_item _ _ _ = _ |- _ => rewrite H end;
        try reflexivity; apply IH; eauto.
Qed.

Lemma render_chain_run anc rens : forall s w d s' w' d' out,
  Render_chain anc rens s w d = (s', w', d', Ok out) <->
  exists vs,
    render_run World call_external str_callable anc rens s w d vs s' w' d' /\
    attr_last_rendered d' = Ok out.
Proof.
  induction rens as [|ren rens IH]; intros s w d s' w' d' out.
  - rewrite render_chain_nil. split.
    + intros [= -> -> -> H]. eexists. split; [constructor|assumption].
    + intros (vs & H & Hout). inversion H; subst. now rewrite Hout.
  - rewrite render_chain_cons. split.
    + split_call (Call ren anc w d s). destruct r as [v|]; [|discriminate].
      destruct (append_item d0 "rendered" v) as [d2|] eqn:A; [|discriminate].
      intros H. apply IH in H. destruct H as (vs & H & Hout).
      eexists. split; [eapply render_step; eauto|assumption].
    + intros (vs & H & Hout). inversion H; subst.
      match goal with H : call _ _ _ _ _ _ _ _ = _ |- _ => rewrite H end.
      match goal with H : append_item _ _ _ = _ |- _ => rewrite H end.
      apply IH. eauto.
Qed.

(** ** The chains stay as they are *)

Lemma call_chains c anc w d s s' w' d' r :
  Call c anc w d s = (s', w', d', r) -> chains w' = chains w.
Proof.
  intros E.
  pose proof (invoke_keeps_chains call_external str_callable (height w) c anc w d s) as H.
  unfold call in E. now rewrite E in H.
Qed.

Lemma Widget_runpreprocessors_chains anc w request data s s' w' r :
  Preprocess anc w request data s = (s', w', r) -> chains w' = chains w.
Proof.
  apply (runpreprocessors_body_keeps str_callable chains _
           (invoke_keeps_chains call_external str_callable (height w))).
Qed.

Lemma Widget_extract_chains anc w request s s' w' r :
  Extract anc w request s = (s', w', r) -> chains w' = chains w.
Proof.
  apply (extract_body_keeps str_callable chains _
           (invoke_keeps_chains call_external str_callable (height w))).
Qed.

(** ** What a call does to the record *)

Lemma getitem_setitem_eq d k x d' :
  setitem d k x = Ok d' -> getitem d' k = Ok x.
Proof.
  destruct d; try discriminate; intros [= <-]; simpl;
    unfold dict_getitem; now rewrite dict_get_set_eq.
Qed.

Lemma getitem_setitem_ne d k x d' k' :
  setitem d k x = Ok d' -> k <> k' -> getitem d' k' = getitem d k'.
Proof.
  destruct d; try discriminate; intros [= <-] Hne; simpl;
    unfold dict_getitem; now rewrite dict_get_set_ne.
Qed.

Lemma setitem_isinstance d k x d' :
  setitem d k x = Ok d' -> isinstance_RuntimeData d' = isinstance_RuntimeData d.
Proof. destruct d; try discriminate; now intros [= <-]. Qed.

Lemma setitem_defined d k v x :
  getitem d k = Ok v -> exists d', setitem d k x = Ok d'.
Proof. destruct d; try discriminate; intros _; simpl; eauto. Qed.

Lemma append_item_eq d k l x d' :
  getitem d k = Ok (VList l) -> append_item d k x = Ok d' ->
  getitem d' k = Ok (VList (l ++ [x])).
Proof.
  unfold append_item. intros ->. simpl. apply getitem_setitem_eq.
Qed.

Lemma append_item_ne d k x d' k' :
  append_item d k x = Ok d' -> k <> k' -> getitem d' k' = getitem d k'.
Proof.
  unfold append_item. destruct (getitem d k) as [[]|]; try discriminate.
  simpl. apply getitem_setitem_ne.
Qed.

Lemma append_item_isinstance d k x d' :
  append_item d k x = Ok d' -> isinstance_RuntimeData d' = isinstance_RuntimeData d.
Proof.
  unfold append_item. destruct (getitem d k) as [[]|]; try discriminate.
  simpl. apply setitem_isinstance.
Qed.

Lemma append_item_defined d k l x :
  getitem d k = Ok (VList l) -> exists d', append_item d k x = Ok d'.
Proof.
  unfold append_item. intros H. rewrite H. simpl. eapply setitem_defined; eauto.
Qed.

(** Every callable but [compound_renderer] leaves the record alone. *)
Lemma call_record c anc w d s s' w' d' r :
  c <> Fn_compound_renderer ->
  Call c anc w d s = (s', w', d', r) -> d' = d.
Proof.
  intros Hc. unfold call. rewrite height_children.
  destruct c; simpl; try congruence.
  - unfold compound_extractor_body.
    destruct (extract_children _ _ _ _ _ _ _ _) as [[s1 cs1] r1]. congruence.
  - unfold compound_preprocessor_body. destruct (truth _); [|congruence].
    destruct (delegate_children (children w) d). congruence.
  - destruct (call_external id anc w d s). congruence.
Qed.

Lemma store_child_data_other data n d k :
  k <> "extracted" -> getitem (store_child_data data n d) k = getitem data k.
Proof.
  intros Hk. unfold store_child_data.
  destruct (getitem data "extracted") as [ext|]; [|reflexivity].
  destruct (index_first ext) as [first|]; [|reflexivity].
  destruct (setitem first n d) as [first'|]; [|reflexivity].
  destruct (setitem data "extracted" _) as [data'|] eqn:E; [|reflexivity].
  eapply getitem_setitem_ne; eauto.
Qed.

Lemma store_child_data_isinstance data n d :
  isinstance_RuntimeData (store_child_data data n d) = isinstance_RuntimeData data.
Proof.
  unfold store_child_data.
  destruct (getitem data "extracted") as [ext|]; [|reflexivity].
  destruct (index_first ext) as [first|]; [|reflexivity].
  destruct (setitem first n d) as [first'|]; [|reflexivity].
  destruct (setitem data "extracted" _) as [data'|] eqn:E; [|reflexivity].
  eapply setitem_isinstance; eauto.
Qed.

Lemma render_children_record inv here cs : forall data res s s' cs' d' r,
  render_children World str_callable inv here cs data res s = (s', cs', d', r) ->
  isinstance_RuntimeData d' = isinstance_RuntimeData data /\
  forall k, k <> "extracted" -> getitem d' k = getitem data k.
Proof.
  induction cs as [|[n c] cs IH]; simpl; intros data res s s' cs' d' r.
  - intros [= _ _ <- _]. auto.
  - destruct (child_kw data n) as [[request kwdata]|]; [|intros [= _ _ <- _]; auto].
    split_call (call_body World str_callable inv here c request
                  match kwdata with Some sub => sub | None => VNone end s).
    set (data1 := match kwdata with
                  | Some sub => if is_None sub then data else store_child_data data n d
                  | None => data
                  end).
    assert (H1 : isinstance_RuntimeData data1 = isinstance_RuntimeData data /\
                 forall k, k <> "extracted" -> getitem data1 k = getitem data k).
    { unfold data1. destruct kwdata as [sub|]; [|auto].
      destruct (is_None sub); [auto|].
      split; [apply store_child_data_isinstance|].
      intros. now apply store_child_data_other. }
    destruct H1 as [Hi Hk].
    destruct (let! out := r0 in add_unicode res out) as [acc|].
    + destruct (render_children World str_callable inv here cs data1 acc s0)
        as [[[s1 cs1] d1] r1] eqn:E1.
      apply IH in E1. destruct E1 as [Hi1 Hk1].
      intros [= _ _ <- _]. split; [congruence|].
      intros k Hne. rewrite Hk1, Hk; auto.
    + intros [= _ _ <- _]. auto.
Qed.

(** Every callable leaves the record a record, and leaves alone what it
    holds under any key but ['extracted']. *)
Lemma call_record_other c anc w d s s' w' d' r :
  Call c anc w d s = (s', w', d', r) ->
  isinstance_RuntimeData d' = isinstance_RuntimeData d /\
  forall k, k <> "extracted" -> getitem d' k = getitem d k.
Proof.
  destruct (callable_eq_dec c Fn_compound_renderer) as [->|Hc].
  - unfold call. rewrite height_children. simpl.
    unfold compound_renderer_body.
    destruct (render_children _ _ _ _ _ _ _ _) as [[[s1 cs1] d1] r1] eqn:E.
    apply render_children_record in E. intros [= _ _ <- _]. exact E.
  - intros E. apply call_record in E; [|assumption]. subst d'. auto.
Qed.

(** ** Extraction *)

Lemma extract_run_record anc exs s w d log s' w' d' :
  extract_run World call_external str_callable anc exs s w d log s' w' d' ->
  ~ In Fn_compound_renderer exs ->
  forall extracted errors,
  getitem d "extracted" = Ok (VList extracted) ->
  getitem d "errors" = Ok (VList errors) ->
  getitem d' "extracted" = Ok (VList (extracted ++ successes log)) /\
  getitem d' "errors" = Ok (VList (errors ++ failures log)).
Proof.
  induction 1 as [s w d
                 |ex rest s w d s1 w1 d1 v d2 log s' w' d' Hc Ha _ IH
                 |ex rest s w d s1 w1 d1 args d2 log s' w' d' Hc Ha _ IH
                 |ex rest s w d s1 w1 d1 args d2 Hc Ha];
    intros Hno extracted errors He Hr.
  - simpl. now rewrite !app_nil_r.
  - apply call_record in Hc; [subst d1|intros ->; apply Hno; now left].
    destruct (IH (fun H => Hno (or_intror H)) (extracted ++ [v]) errors) as [H1 H2].
    + eapply append_item_eq; eauto.
    + erewrite append_item_ne; eauto; discriminate.
    + simpl. now rewrite <- app_assoc in H1.
  - apply call_record in Hc; [subst d1|intros ->; apply Hno; now left].
    destruct (IH (fun H => Hno (or_intror H)) extracted
                (errors ++ [VExc (ExtractionError false) args])) as [H1 H2].
    + erewrite append_item_ne; eauto; discriminate.
    + eapply append_item_eq; eauto.
    + simpl. now rewrite <- app_assoc in H2.
  - apply call_record in Hc; [subst d1|intros ->; apply Hno; now left].
    simpl. rewrite app_nil_r. split.
    + erewrite append_item_ne; eauto; discriminate.
    + eapply append_item_eq; eauto.
Qed.

Lemma extract_run_order anc exs s w d log s' w' d' :
  extract_run World call_external str_callable anc exs s w d log s' w' d' ->
  (exists rest, exs = List.map fst log ++ rest) /\
  (forall pre e post, log = pre ++ e :: post -> aborting e -> post = []) /\
  (List.Forall (fun e => ~ aborting e) log -> List.map fst log = exs).
Proof.
  induction 1 as [s w d
                 |ex rest s w d s1 w1 d1 v d2 log s' w' d' Hc Ha _ IH
                 |ex rest s w d s1 w1 d1 args d2 log s' w' d' Hc Ha _ IH
                 |ex rest s w d s1 w1 d1 args d2 Hc Ha].
  - split; [exists []; reflexivity|]. split; [|reflexivity].
    intros [|] ? ? H; discriminate H.
  - destruct IH as ([rest' ->] & Hstop & Hall). split; [exists rest'; reflexivity|].
    split.
    + intros [|e0 pre] e post Heq Hab; simpl in Heq; injection Heq as <- Heq.
      * destruct Hab as [args Hab]. discriminate.
      * eapply Hstop; eauto.
    + intros Hf. inversion Hf; subst. simpl. f_equal. auto.
  - destruct IH as ([rest' ->] & Hstop & Hall). split; [exists rest'; reflexivity|].
    split.
    + intros [|e0 pre] e post Heq Hab; simpl in Heq; injection Heq as <- Heq.
      * destruct Hab as [args' Hab]. discriminate.
      * eapply Hstop; eauto.
    + intros Hf. inversion Hf; subst. simpl. f_equal. auto.
  - split; [exists rest; reflexivity|]. split.
    + intros [|e0 pre] e post Heq Hab; simpl in Heq; injection Heq as <- Heq.
      * now subst post.
      * destruct pre; discriminate.
    + intros Hf. inversion Hf as [|? ? Hn _]; subst.
      exfalso. apply Hn. eexists. reflexivity.
Qed.

Lemma extract_run_defined anc exs : forall s w d extracted errors,
  ~ In Fn_compound_renderer exs ->
  (forall ex w1 d1 s1, In ex exs -> recoverable (outcome_of (Call ex anc w1 d1 s1))) ->
  getitem d "extracted" = Ok (VList extracted) ->
  getitem d "errors" = Ok (VList errors) ->
  exists log s' w' d',
    extract_run World call_external str_callable anc exs s w d log s' w' d'.
Proof.
  induction exs as [|ex exs IH]; intros s w d extracted errors Hno Hrec He Hr.
  - repeat eexists. constructor.
  - pose proof (Hrec ex w d s (or_introl eq_refl)) as Hout.
    split_call (Call ex anc w d s). unfold outcome_of in Hout. simpl in Hout.
    pose proof E as Hd. apply call_record in Hd; [subst d0|intros ->; apply Hno; now left].
    assert (Hno' : ~ In Fn_compound_renderer exs) by (intros H; apply Hno; now right).
    assert (Hrec' : forall ex w1 d1 s1, In ex exs ->
                      recoverable (outcome_of (Call ex anc w1 d1 s1))).
    { intros. apply Hrec. now right. }
    destruct r as [v|cls args].
    + destruct (append_item_defined d "extracted" extracted v He) as [d2 Ha].
      destruct (IH s0 w0 d2 (extracted ++ [v]) errors Hno' Hrec') as (log & s' & w' & d' & H).
      * eapply append_item_eq; eauto.
      * erewrite append_item_ne; eauto; discriminate.
      * repeat eexists. eapply extract_value; eauto.
    + destruct cls as [abort| | | | | | |]; try contradiction.
      destruct (append_item_defined d "errors" errors
                  (VExc (ExtractionError abort) args) Hr) as [d2 Ha].
      destruct abort.
      * repeat eexists. eapply extract_abort; eauto.
      * destruct (IH s0 w0 d2 extracted (errors ++ [VExc (ExtractionError false) args])
                    Hno' Hrec') as (log & s' & w' & d' & H).
        -- erewrite append_item_ne; eauto; discriminate.
        -- eapply append_item_eq; eauto.
        -- repeat eexists. eapply extract_error; eauto.
Qed.

(** C1.  After preprocessing has left a record with its [extracted] and
    [errors] sequences, [extract] runs the extractor chain in order.  A
    returned value is appended to [extracted]; a raised
    [ExtractionError] is appended to [errors], nothing is appended to
    [extracted] for it, and the chain ends there exactly when the
    error's [abort] is set: otherwise the next extractor runs.  So
    [extracted] gains the values of the extractors that returned, in
    order, and [errors] one entry per extractor that failed, in order;
    when the first extractor fails with [abort] set, [extracted] is left
    as it was (empty, on a fresh record) and no other extractor runs.
    When every extractor returns or raises an [ExtractionError],
    [extract] returns.  The chain is one of extractors: it does not
    hold [compound_renderer], which renders on the entries of
    [extracted] in place. *)
Theorem extract_chain_of_extractors
    (anc : list value) (w : Widget) (request : value) (s : World)
    (s0 : World) (w0 : Widget) (d0 : value) (extracted errors : list value) :
  Preprocess anc w request RuntimeData.new s = (s0, w0, Ok d0) ->
  getitem d0 "extracted" = Ok (VList extracted) ->
  getitem d0 "errors" = Ok (VList errors) ->
  ~ In Fn_compound_renderer (extractors w) ->
  (forall s' w' d',
     Extract anc w request s = (s', w', Ok d') <->
     exists log,
       extract_run World call_external str_callable anc (extractors w) s0 w0 d0 log s' w' d') /\
  (forall log s' w' d',
     extract_run World call_external str_callable anc (extractors w) s0 w0 d0 log s' w' d' ->
     getitem d' "extracted" = Ok (VList (extracted ++ successes log)) /\
     getitem d' "errors" = Ok (VList (errors ++ failures log)) /\
     (exists rest, extractors w = List.map fst log ++ rest) /\
     (forall pre e post, log = pre ++ e :: post -> aborting e -> post = []) /\
     (List.Forall (fun e => ~ aborting e) log -> List.map fst log = extractors w)) /\
  (forall ex rest s1 w1 d1 args,
     extractors w = ex :: rest ->
     Call ex anc w0 d0 s0 = (s1, w1, d1, Raise (ExtractionError true) args) ->
     exists d',
       Extract anc w request s = (s1, w1, Ok d') /\
       getitem d' "extracted" = Ok (VList extracted) /\
       getitem d' "errors" = Ok (VList (errors ++ [VExc (ExtractionError true) args]))) /\
  ((forall ex w1 d1 s1, In ex (extractors w) ->
      recoverable (outcome_of (Call ex anc w1 d1 s1))) ->
   exists s' w' d', Extract anc w request s = (s', w', Ok d')).
Proof.
  intros Hpre He Hr Hno.
  assert (Hch : extractors w0 = extractors w).
  { apply Widget_runpreprocessors_chains in Hpre. unfold chains in Hpre. congruence. }
  assert (Heq : forall s' w' d',
            Extract anc w request s = (s', w', Ok d') <->
            exists log,
              extract_run World call_external str_callable anc (extractors w)
                s0 w0 d0 log s' w' d').
  { intros s' w' d'. rewrite Widget_extract_eq, Hpre, Hch. apply extract_chain_run. }
  split; [exact Heq|]. split; [|split].
  - intros log s' w' d' Hrun.
    destruct (extract_run_record _ _ _ _ _ _ _ _ _ Hrun Hno _ _ He Hr) as [H1 H2].
    destruct (extract_run_order _ _ _ _ _ _ _ _ _ Hrun) as (H3 & H4 & H5).
    auto 6.
  - intros ex rest s1 w1 d1 args Hex Hc.
    pose proof Hc as Hd.
    apply call_record in Hd; [subst d1|intros ->; apply Hno; rewrite Hex; now left].
    destruct (append_item_defined d0 "errors" errors
                (VExc (ExtractionError true) args) Hr) as [d2 Ha].
    exists d2. split; [|split].
    + apply Heq. rewrite Hex. eexists. eapply extract_abort; eauto.
    + erewrite append_item_ne; eauto; discriminate.
    + eapply append_item_eq; eauto.
  - intros Hrec.
    destruct (extract_run_defined anc (extractors w) s0 w0 d0 extracted errors
                Hno Hrec He Hr) as (log & s' & w' & d' & Hrun).
    exists s', w', d'. apply Heq. eauto.
Qed.

(** ** Preprocessing *)

Lemma preprocess_run_same anc pps : forall s w d s' w' d',
  (forall pp w1 d1 s1 v, In pp pps ->
     outcome_of (Call pp anc w1 d1 s1) = Ok v -> v = d1) ->
  preprocess_run World call_external str_callable anc pps s w d s' w' d' ->
  d' = d.
Proof.
  intros s w d s' w' d' Hsame Hrun.
  induction Hrun as [s w d|pp rest s w d s1 w1 d1 d2 s' w' d' Hc _ IH].
  - reflexivity.
  - assert (d2 = d).
    { eapply (Hsame pp w d s); [now left|]. now rewrite Hc. }
    subst d2. apply IH. intros. eapply Hsame; eauto. now right.
Qed.

(** C3.  A record that already holds both ['value'] and ['request'] is
    returned as it is: nothing is called, the outside and the widget
    stay as they were.  Otherwise the request is stored, then the
    getter under ['value'] (the value it returns when called with the
    widget and the record if it is callable, itself if not), and the
    preprocessors run in order, each on the record the one before it
    returned.  So preprocessing a record again that came out of
    preprocessing with both keys does nothing; and it comes out with
    both keys whenever the preprocessors hand back the record they
    were given. *)
Theorem preprocessing_once
    (anc : list value) (w : Widget) (request : value) (data : dict) (s : World) :
  (dict_has "value" data = true -> dict_has "request" data = true ->
   Preprocess anc w request data s = (s, w, Ok (VRuntimeData data))) /\
  (dict_has "value" data && dict_has "request" data = false ->
   let data1 := dict_set "request" request data in
   ((forall g, getter w <> VCallable g) ->
      forall s' w' d',
        Preprocess anc w request data s = (s', w', Ok d') <->
        preprocess_run World call_external str_callable anc (preprocessors w)
          s w (VRuntimeData (dict_set "value" (getter w) data1)) s' w' d') /\
   (forall g s1 w1 d1 v d2,
      getter w = VCallable g ->
      Call g anc w (VRuntimeData data1) s = (s1, w1, d1, Ok v) ->
      setitem d1 "value" v = Ok d2 ->
      forall s' w' d',
        Preprocess anc w request data s = (s', w', Ok d') <->
        preprocess_run World call_external str_callable anc (preprocessors w)
          s1 w1 d2 s' w' d') /\
   ((forall g, getter w <> VCallable g) ->
      (forall pp w1 d1 s1 v1, In pp (preprocessors w) ->
         outcome_of (Call pp anc w1 d1 s1) = Ok v1 -> v1 = d1) ->
      forall s' w' d',
        Preprocess anc w request data s = (s', w', Ok d') ->
        d' = VRuntimeData (dict_set "value" (getter w) data1) /\
        dict_has "value" (dict_set "value" (getter w) data1) = true /\
        dict_has "request" (dict_set "value" (getter w) data1) = true)) /\
  (forall s' w' data' request',
     Preprocess anc w request data s = (s', w', Ok (VRuntimeData data')) ->
     dict_has "value" data' = true -> dict_has "request" data' = true ->
     Preprocess anc w' request' data' s' = (s', w', Ok (VRuntimeData data'))).
Proof.
  assert (Hskip : forall w0 request0 data0 s0,
            dict_has "value" data0 = true -> dict_has "request" data0 = true ->
            Preprocess anc w0 request0 data0 s0 = (s0, w0, Ok (VRuntimeData data0))).
  { intros w0 request0 data0 s0 Hv Hq.
    rewrite Widget_runpreprocessors_eq, Hv, Hq. reflexivity. }
  assert (Hlit : dict_has "value" data && dict_has "request" data = false ->
            (forall g, getter w <> VCallable g) ->
            forall s' w' d',
              Preprocess anc w request data s = (s', w', Ok d') <->
              preprocess_run World call_external str_callable anc (preprocessors w)
                s w (VRuntimeData (dict_set "value" (getter w)
                                     (dict_set "request" request data)))
                s' w' d').
  { intros Hno Hnc s' w' d'.
    rewrite Widget_runpreprocessors_eq, Hno. cbv zeta.
    destruct (getter w) eqn:Hg; try apply preprocess_chain_run.
    exfalso. eapply Hnc. reflexivity. }
  split; [apply Hskip|]. split.
  - intros Hno data1. split; [|split].
    + apply Hlit. exact Hno.
    + intros g s1 w1 d1 v d2 Hg Hc Hset s' w' d'.
      rewrite Widget_runpreprocessors_eq, Hno. cbv zeta. rewrite Hg.
      fold data1. rewrite Hc. simpl. rewrite Hset.
      apply call_chains in Hc. unfold chains in Hc.
      replace (preprocessors w1) with (preprocessors w) by congruence.
      apply preprocess_chain_run.
    + intros Hnc Hsame s' w' d' Hrun.
      apply (Hlit Hno Hnc) in Hrun.
      apply preprocess_run_same in Hrun; [|exact Hsame].
      split; [exact Hrun|]. unfold dict_has.
      rewrite dict_get_set_eq.
      rewrite dict_get_set_ne by discriminate.
      unfold data1. rewrite dict_get_set_eq. auto.
  - intros s' w' data' request' _ Hv Hq. now apply Hskip.
Qed.

(** ** Rendering *)

Lemma attr_last_rendered_list d rendered :
  isinstance_RuntimeData d = true ->
  getitem d "rendered" = Ok (VList rendered) ->
  attr_last_rendered d = Ok (List.last rendered (VStr "")).
Proof.
  destruct d; try discriminate. intros _. simpl. unfold dict_getitem.
  destruct (dict_get "rendered" m) as [v|] eqn:E; [|discriminate].
  intros [= ->]. unfold RuntimeData.last_rendered. now apply _last_list.
Qed.

Lemma render_run_record anc rens s w d vs s' w' d' :
  render_run World call_external str_callable anc rens s w d vs s' w' d' ->
  forall rendered,
  getitem d "rendered" = Ok (VList rendered) ->
  getitem d' "rendered" = Ok (VList (rendered ++ vs)) /\
  List.length vs = List.length rens /\
  isinstance_RuntimeData d' = isinstance_RuntimeData d.
Proof.
  induction 1 as [s w d|ren rest s w d s1 w1 d1 v d2 vs s' w' d' Hc Ha _ IH];
    intros rendered Hr.
  - now rewrite app_nil_r.
  - apply call_record_other in Hc. destruct Hc as [Hi Hk].
    assert (Hr1 : getitem d1 "rendered" = Ok (VList rendered)).
    { rewrite Hk; [assumption|discriminate]. }
    destruct (IH (rendered ++ [v]) (append_item_eq _ _ _ _ _ Hr1 Ha)) as (H1 & H2 & H3).
    rewrite <- app_assoc in H1. simpl in *. repeat split; auto.
    rewrite H3. erewrite append_item_isinstance; eauto.
Qed.

Lemma render_run_defined anc rens : forall s w d rendered,
  (forall ren w1 d1 s1, In ren rens ->
     exists v, outcome_of (Call ren anc w1 d1 s1) = Ok v) ->
  getitem d "rendered" = Ok (VList rendered) ->
  exists vs s' w' d',
    render_run World call_external str_callable anc rens s w d vs s' w' d'.
Proof.
  induction rens as [|ren rens IH]; intros s w d rendered Hret Hr.
  - repeat eexists. constructor.
  - destruct (Hret ren w d s (or_introl eq_refl)) as [v Hv].
    split_call (Call ren anc w d s). unfold outcome_of in Hv. simpl in Hv. subst r.
    pose proof E as Hk. apply call_record_other in Hk. destruct Hk as [_ Hk].
    assert (Hr1 : getitem d0 "rendered" = Ok (VList rendered)).
    { rewrite Hk; [assumption|discriminate]. }
    destruct (append_item_defined d0 "rendered" rendered v Hr1) as [d2 Ha].
    destruct (IH s0 w0 d2 (rendered ++ [v])) as (vs & s' & w' & d' & H).
    + intros. apply Hret. now right.
    + exact (append_item_eq _ _ _ _ _ Hr1 Ha).
    + repeat eexists. eapply render_step; eauto.
Qed.

(** C4.  Called without a record and with a request that is empty, a
    widget preprocesses a fresh record and extracts nothing; called
    without a record and with a request that is not empty, it runs
    [extract] on the request; called with a record, it takes the record
    as it comes.  In each case the renderers then run in order on the
    widget and the record, each returned value is appended to
    [rendered], and the call returns the record's [last_rendered], the
    last value appended. *)
Theorem widget_call_stages
    (anc : list value) (w : Widget) (request data : value) (s : World) :
  (is_None data = true -> truth request = false ->
   Render anc w request data s =
     let '(s0, w0, r) := Preprocess anc w request RuntimeData.new s in
     match r with
     | Raise cls args => (s0, w0, data, Raise cls args)
     | Ok d0 => Render_chain anc (renderers w) s0 w0 d0
     end) /\
  (is_None data = true -> truth request = true ->
   Render anc w request data s =
     let '(s0, w0, r) := Extract anc w request s in
     match r with
     | Raise cls args => (s0, w0, data, Raise cls args)
     | Ok d0 => Render_chain anc (renderers w) s0 w0 d0
     end) /\
  (is_None data = false ->
   Render anc w request data s = Render_chain anc (renderers w) s w data) /\
  (forall s0 w0 d0 s' w' d' out,
     Render_chain anc (renderers w) s0 w0 d0 = (s', w', d', Ok out) <->
     exists vs,
       render_run World call_external str_callable anc (renderers w) s0 w0 d0 vs s' w' d' /\
       attr_last_rendered d' = Ok out) /\
  (forall s0 w0 d0 vs s' w' d' rendered,
     render_run World call_external str_callable anc (renderers w) s0 w0 d0 vs s' w' d' ->
     getitem d0 "rendered" = Ok (VList rendered) ->
     getitem d' "rendered" = Ok (VList (rendered ++ vs)) /\
     List.length vs = List.length (renderers w) /\
     (isinstance_RuntimeData d0 = true ->
      attr_last_rendered d' = Ok (List.last (rendered ++ vs) (VStr "")))) /\
  (forall s0 w0 d0 rendered,
     (forall ren w1 d1 s1, In ren (renderers w) ->
        exists v, outcome_of (Call ren anc w1 d1 s1) = Ok v) ->
     getitem d0 "rendered" = Ok (VList rendered) ->
     isinstance_RuntimeData d0 = true ->
     exists s' w' d' out, Render_chain anc (renderers w) s0 w0 d0 = (s', w', d', Ok out)).
Proof.
  assert (Hrec : forall s0 w0 d0 vs s' w' d' rendered,
     render_run World call_external str_callable anc (renderers w) s0 w0 d0 vs s' w' d' ->
     getitem d0 "rendered" = Ok (VList rendered) ->
     getitem d' "rendered" = Ok (VList (rendered ++ vs)) /\
     List.length vs = List.length (renderers w) /\
     (isinstance_RuntimeData d0 = true ->
      attr_last_rendered d' = Ok (List.last (rendered ++ vs) (VStr "")))).
  { intros s0 w0 d0 vs s' w' d' rendered Hrun Hr.
    destruct (render_run_record _ _ _ _ _ _ _ _ _ Hrun _ Hr) as (H1 & H2 & H3).
    repeat split; auto. intros Hi. apply attr_last_rendered_list; congruence. }
  split; [|split; [|split; [|split; [|split]]]].
  - intros Hn Hq. rewrite Widget_call_eq, Hn, Hq. simpl.
    split_run (Preprocess anc w request RuntimeData.new s).
    apply Widget_runpreprocessors_chains in E. unfold chains in E.
    destruct r; [|reflexivity]. f_equal. congruence.
  - intros Hn Hq. rewrite Widget_call_eq, Hn, Hq. simpl.
    split_run (Extract anc w request s).
    apply Widget_extract_chains in E. unfold chains in E.
    destruct r; [|reflexivity]. f_equal. congruence.
  - intros Hn. rewrite Widget_call_eq, Hn. reflexivity.
  - intros. apply render_chain_run.
  - exact Hrec.
  - intros s0 w0 d0 rendered Hret Hr Hi.
    destruct (render_run_defined anc (renderers w) s0 w0 d0 rendered Hret Hr)
      as (vs & s' & w' & d' & Hrun).
    destruct (Hrec _ _ _ _ _ _ _ _ Hrun Hr) as (_ & _ & Hout).
    exists s', w', d', (List.last (rendered ++ vs) (VStr "")).
    apply render_chain_run. eauto.
Qed.

(** ** The compound protocol *)

Lemma dict_set_fresh k v (m : dict) :
  dict_get k m = None -> dict_set k v m = m ++ [(k, v)].
Proof.
  induction m as [|[k' v'] m IH]; simpl; [reflexivity|].
  destruct (String.eqb k k'); [discriminate|]. intros H. now rewrite IH.
Qed.

Lemma dict_get_app_fresh k k' v (m : dict) :
  k <> k' -> dict_get k m = None -> dict_get k (m ++ [(k', v)]) = None.
Proof.
  intros Hne. induction m as [|[k0 v0] m IH]; simpl.
  - destruct (String.eqb_spec k k'); congruence.
  - destruct (String.eqb k k0); [discriminate|]. exact IH.
Qed.

Lemma dict_get_In k v (m : dict) :
  List.NoDup (dict_keys m) -> In (k, v) m -> dict_get k m = Some v.
Proof.
  unfold dict_keys. induction m as [|[k' v'] m IH]; simpl; [tauto|].
  intros Hnd. apply List.NoDup_cons_iff in Hnd. destruct Hnd as [Hk Hnd].
  intros [[= -> ->]|Hin].
  - now rewrite String.eqb_refl.
  - destruct (String.eqb_spec k k') as [->|]; [|auto].
    exfalso. apply Hk. apply in_map_iff. exists (k', v). auto.
Qed.

(** Items with distinct names, assigned one by one, are the mapping. *)
Lemma assign_distinct (items : list (string * value)) : forall res : dict,
  List.NoDup (List.map fst items) ->
  (forall k, In k (List.map fst items) -> dict_get k res = None) ->
  fold_left (fun m kv => dict_set (fst kv) (snd kv) m) items res = res ++ items.
Proof.
  induction items as [|[k v] items IH]; intros res Hnd Hfresh; simpl.
  - now rewrite app_nil_r.
  - apply List.NoDup_cons_iff in Hnd. destruct Hnd as [Hk Hnd].
    rewrite dict_set_fresh by (apply Hfresh; now left).
    rewrite IH; [now rewrite <- app_assoc|assumption|].
    intros k' Hin. apply dict_get_app_fresh.
    + intros ->. contradiction.
    + apply Hfresh. now right.
Qed.

Lemma extract_children_each k here cs : forall data res s request,
  max_height cs <= k ->
  getitem data "request" = Ok request ->
  extract_children World str_callable (Invoke k) here cs data res s =
  let '(s', cs', r) :=
    extract_each World call_external str_callable here cs request s in
  (s', cs',
   let! items := r in
   Ok (VDict (fold_left (fun m kv => dict_set (fst kv) (snd kv) m) items res))).
Proof.
  induction cs as [|[n c] cs IH]; intros data res s request Hk Hreq; simpl.
  - reflexivity.
  - rewrite Hreq. simpl in Hk.
    rewrite extract_body_enough by lia.
    split_run (Extract here c request s).
    destruct r as [d|]; [|reflexivity].
    rewrite (IH data (dict_set n d res) s0 request) by (lia || assumption).
    destruct (extract_each World call_external str_callable here cs request s0)
      as [[s1 cs1] [items|]]; reflexivity.
Qed.

Lemma extract_each_names here cs : forall request s s' cs' items,
  extract_each World call_external str_callable here cs request s = (s', cs', Ok items) ->
  List.map fst items = List.map fst cs.
Proof.
  induction cs as [|[n c] cs IH]; intros request s s' cs' items; simpl.
  - now intros [= _ _ <-].
  - split_run (Extract here c request s). destruct r as [d|]; [|discriminate].
    destruct (extract_each World call_external str_callable here cs request s0)
      as [[s1 cs1] [items1|]] eqn:E1; [|discriminate].
    intros [= _ _ <-]. simpl. f_equal. eapply IH; eauto.
Qed.

(** The entry of the [i]-th child is what its own [extract] returns on
    the request, after the children before it. *)
Lemma extract_each_nth here cs : forall request s s' cs' items i name child,
  extract_each World call_external str_callable here cs request s = (s', cs', Ok items) ->
  nth_error cs i = Some (name, child) ->
  exists s'' child' d,
    Extract here child request
      (fst (fst (extract_each World call_external str_callable here
                   (firstn i cs) request s))) = (s'', child', Ok d) /\
    nth_error items i = Some (name, d).
Proof.
  induction cs as [|[n c] cs IH]; intros request s s' cs' items i name child; simpl.
  - destruct i; discriminate.
  - split_run (Extract here c request s). destruct r as [d|]; [|discriminate].
    destruct (extract_each World call_external str_callable here cs request s0)
      as [[s1 cs1] [items1|]] eqn:E1; [|discriminate].
    intros [= _ _ <-]. destruct i as [|i]; simpl.
    + intros [= -> ->]. rewrite E. eauto.
    + intros Hn. rewrite E.
      destruct (IH request s0 s1 cs1 items1 i name child E1 Hn)
        as (s'' & child' & d' & H1 & H2).
      destruct (extract_each World call_external str_callable here
                  (firstn i cs) request s0) as [[s2 cs2] r2]. simpl in *. eauto.
Qed.

(** C6.  On a widget whose children have distinct names,
    [compound_extractor] calls [extract] on every child with the
    request of the parent's record, child after child, and returns the
    mapping from the children's names to the records: its keys are the
    children's names, and a child's entry is the record that child's own
    [extract] returns when called with that request in its turn. *)
Theorem compound_extractor_children
    (anc : list value) (w : Widget) (data request : value) (s : World) :
  getitem data "request" = Ok request ->
  List.NoDup (List.map fst (children w)) ->
  let '(s', cs', r) :=
    extract_each World call_external str_callable (path anc w) (children w) request s in
  compound_extractor World call_external str_callable anc w data s =
    (s', set_children w cs', data, let! items := r in Ok (VDict items)) /\
  (forall items, r = Ok items ->
     dict_keys items = List.map fst (children w) /\
     forall i name child,
       nth_error (children w) i = Some (name, child) ->
       exists s'' child' d,
         Extract (path anc w) child request
           (fst (fst (extract_each World call_external str_callable (path anc w)
                        (firstn i (children w)) request s))) = (s'', child', Ok d) /\
         dict_get name items = Some d).
Proof.
  intros Hreq Hnd.
  destruct (extract_each World call_external str_callable (path anc w) (children w)
              request s) as [[s' cs'] r] eqn:E.
  split.
  - unfold compound_extractor, call. rewrite height_children. simpl.
    unfold compound_extractor_body.
    rewrite (extract_children_each _ _ _ _ _ _ request) by (lia || assumption).
    rewrite E. destruct r as [items|]; [|reflexivity]. simpl.
    rewrite assign_distinct; [reflexivity| |intros; reflexivity].
    apply extract_each_names in E. now rewrite E.
  - intros items ->. pose proof (extract_each_names _ _ _ _ _ _ _ E) as Hnames.
    split; [exact Hnames|].
    intros i name child Hn.
    destruct (extract_each_nth _ _ _ _ _ _ _ _ _ _ E Hn) as (s'' & child' & d & H1 & H2).
    exists s'', child', d. split; [exact H1|].
    apply dict_get_In.
    + unfold dict_keys. now rewrite Hnames.
    + eapply nth_error_In; eauto.
Qed.

Lemma string_append_assoc (a b c : string) :
  ((a ++ b) ++ c = a ++ (b ++ c))%string.
Proof.
  induction a as [|x a IH]; [reflexivity|].
  change (String x ((a ++ b) ++ c) = String x (a ++ (b ++ c)))%string.
  now rewrite IH.
Qed.

Lemma add_unicode_onto res out :
  add_unicode res out = let! o := add_unicode "" out in Ok (res ++ o)%string.
Proof. destruct out; reflexivity. Qed.

(** What the parent's record holds after a child rendered on its entry
    of the first extracted value: the entry is replaced, the entries of
    the other names and the rest of the record are as before. *)
Lemma store_child_data_first data n d first others sub :
  getitem data "extracted" = Ok (VList (first :: others)) ->
  getitem first n = Ok sub ->
  exists first',
    getitem (store_child_data data n d) "extracted" = Ok (VList (first' :: others)) /\
    forall n', n <> n' -> getitem first' n' = getitem first n'.
Proof.
  intros He Hs. unfold store_child_data. rewrite He. simpl.
  destruct (setitem_defined first n sub d Hs) as [first' Hf]. rewrite Hf.
  destruct (setitem_defined data "extracted" _ (VList (first' :: others)) He) as [data' Hd].
  rewrite Hd. exists first'. split.
  - eapply getitem_setitem_eq; eauto.
  - intros n' Hne. eapply getitem_setitem_ne; eauto.
Qed.

Lemma render_children_each k here cs : forall data res s request first first0 others,
  max_height cs <= k ->
  List.NoDup (List.map fst cs) ->
  getitem data "request" = Ok request ->
  getitem data "extracted" = Ok (VList (first0 :: others)) ->
  (forall n, In n (List.map fst cs) -> getitem first0 n = getitem first n) ->
  forall s' cs' r,
    render_each World call_external str_callable here cs request
      (fun name => getitem first name) s = (s', cs', r) ->
    exists d',
      render_children World str_callable (Invoke k) here cs data res s =
      (s', cs', d',
       let! outs := r in Ok (VStr (res ++ fold_right String.append "" outs)%string)).
Proof.
  induction cs as [|[n c] cs IH];
    intros data res s request first first0 others Hk Hnd Hreq Hext Hsame s' cs' r; simpl.
  - intros [= <- <- <-]. exists data. simpl.
    replace (res ++ "")%string with res; [reflexivity|].
    clear. induction res as [|x res IH]; [reflexivity|].
    change (String x res = String x (res ++ ""))%string. now rewrite <- IH.
  - simpl in Hk. apply List.NoDup_cons_iff in Hnd. destruct Hnd as [Hn Hnd].
    unfold child_kw. rewrite Hext. simpl.
    rewrite (Hsame n) by now left.
    destruct (getitem first n) as [sub|cls args] eqn:Hsub; simpl.
    2:{ intros [= <- <- <-]. eexists. reflexivity. }
    rewrite Hreq. simpl.
    rewrite call_body_enough by lia.
    split_call (Render here c request sub s).
    destruct r0 as [v|cls args]; simpl.
    2:{ intros [= <- <- <-]. eexists. reflexivity. }
    rewrite (add_unicode_onto res v).
    destruct (add_unicode "" v) as [out|cls args] eqn:Hout; simpl.
    2:{ intros [= <- <- <-]. eexists. reflexivity. }
    set (data1 := if is_None sub then data else store_child_data data n d).
    assert (H1 : getitem data1 "request" = Ok request /\
                 exists first1,
                   getitem data1 "extracted" = Ok (VList (first1 :: others)) /\
                   forall n', In n' (List.map fst cs) -> getitem first1 n' = getitem first n').
    { unfold data1. destruct (is_None sub).
      - split; [assumption|]. exists first0. split; [assumption|].
        intros. apply Hsame. now right.
      - split.
        + rewrite store_child_data_other by discriminate. assumption.
        + assert (Hs0 : getitem first0 n = Ok sub).
          { rewrite (Hsame n) by now left. assumption. }
          destruct (store_child_data_first data n d first0 others sub Hext Hs0)
            as (first1 & Hf1 & Hother).
          exists first1. split; [assumption|].
          intros n' Hin. rewrite Hother.
          * apply Hsame. now right.
          * intros ->. contradiction. }
    destruct H1 as (Hreq1 & first1 & Hext1 & Hsame1).
    destruct (render_each World call_external str_callable here cs request
                (fun name => getitem first name) s0) as [[s1 cs1] r1] eqn:E1.
    destruct (IH data1 (res ++ out)%string s0 request first first1 others
                ltac:(lia) Hnd Hreq1 Hext1 Hsame1 s1 cs1 r1 E1) as [d' Hd'].
    rewrite Hd'. intros [= <- <- <-]. exists d'.
    destruct r1 as [outs|]; [|reflexivity]. simpl.
    now rewrite string_append_assoc.
Qed.

Lemma render_children_each_request k here cs : forall data res s request extracted,
  max_height cs <= k ->
  getitem data "request" = Ok request ->
  getitem data "extracted" = Ok extracted ->
  truth extracted = false ->
  forall s' cs' r,
    render_each World call_external str_callable here cs request
      (fun _ => Ok VNone) s = (s', cs', r) ->
    render_children World str_callable (Invoke k) here cs data res s =
    (s', cs', data,
     let! outs := r in Ok (VStr (res ++ fold_right String.append "" outs)%string)).
Proof.
  induction cs as [|[n c] cs IH];
    intros data res s request extracted Hk Hreq Hext Hemp s' cs' r; simpl.
  - intros [= <- <- <-]. simpl.
    replace (res ++ "")%string with res; [reflexivity|].
    clear. induction res as [|x res IH]; [reflexivity|].
    change (String x res = String x (res ++ ""))%string. now rewrite <- IH.
  - simpl in Hk. unfold child_kw. rewrite Hext. simpl. rewrite Hemp, Hreq. simpl.
    rewrite call_body_enough by lia.
    split_call (Render here c request VNone s).
    destruct r0 as [v|cls args]; simpl.
    2:{ now intros [= <- <- <-]. }
    rewrite (add_unicode_onto res v).
    destruct (add_unicode "" v) as [out|cls args] eqn:Hout; simpl.
    2:{ now intros [= <- <- <-]. }
    destruct (render_each World call_external str_callable here cs request
                (fun _ => Ok VNone) s0) as [[s1 cs1] r1] eqn:E1.
    rewrite (IH data (res ++ out)%string s0 request extracted
               ltac:(lia) Hreq Hext Hemp s1 cs1 r1 E1).
    intros [= <- <- <-]. destruct r1 as [outs|]; [|reflexivity]. simpl.
    now rewrite string_append_assoc.
Qed.

(** C5.  On a widget whose children have distinct names: when the
    parent's record has extracted entries, [compound_renderer] calls
    every child, child after child, with the parent's request and, as
    the child's record, the entry under the child's name of the first
    extracted entry, however many entries there are; it returns the
    children's outputs joined in that order.  When the parent's record
    has no extracted entry, every child is called with the request
    alone. *)
Theorem compound_renderer_children
    (anc : list value) (w : Widget) (data request : value) (s : World) :
  getitem data "request" = Ok request ->
  List.NoDup (List.map fst (children w)) ->
  (forall first others,
     getitem data "extracted" = Ok (VList (first :: others)) ->
     let '(s', cs', r) :=
       render_each World call_external str_callable (path anc w) (children w)
         request (fun name => getitem first name) s in
     exists d',
       compound_renderer World call_external str_callable anc w data s =
       (s', set_children w cs', d',
        let! outs := r in Ok (VStr (fold_right String.append "" outs)))) /\
  (forall extracted,
     getitem data "extracted" = Ok extracted ->
     truth extracted = false ->
     let '(s', cs', r) :=
       render_each World call_external str_callable (path anc w) (children w)
         request (fun _ => Ok VNone) s in
     compound_renderer World call_external str_callable anc w data s =
     (s', set_children w cs', data,
      let! outs := r in Ok (VStr (fold_right String.append "" outs)))).
Proof.
  intros Hreq Hnd. split.
  - intros first others Hext.
    destruct (render_each World call_external str_callable (path anc w) (children w)
                request (fun name => getitem first name) s) as [[s' cs'] r] eqn:E.
    unfold compound_renderer, call. rewrite height_children. simpl.
    unfold compound_renderer_body.
    destruct (render_children_each (max_height (children w)) (path anc w) (children w)
                data "" s request first first others (Nat.le_refl _) Hnd Hreq Hext
                (fun _ _ => eq_refl) s' cs' r E) as [d' Hd'].
    rewrite Hd'. exists d'. reflexivity.
  - intros extracted Hext Hemp.
    destruct (render_each World call_external str_callable (path anc w) (children w)
                request (fun _ => Ok VNone) s) as [[s' cs'] r] eqn:E.
    unfold compound_renderer, call. rewrite height_children. simpl.
    unfold compound_renderer_body.
    rewrite (render_children_each_request (max_height (children w)) (path anc w)
               (children w) data "" s request extracted (Nat.le_refl _) Hreq Hext Hemp
               s' cs' r E).
    reflexivity.
Qed.

End Entry.

(* ================================================================== *)
(** * Composition of blueprints *)
(* ================================================================== *)

Lemma split_word sep s : contains_char sep s = false -> split sep s = [s].
Proof.
  induction s as [|c s IH]; simpl; [reflexivity|].
  destruct (Ascii.eqb c sep); [discriminate|]. simpl. intros H. now rewrite IH.
Qed.

Lemma split_chained sep a b :
  contains_char sep a = false ->
  split sep (a ++ String sep b)%string = a :: split sep b.
Proof.
  induction a as [|c a IH]; intros H.
  - change (split sep (String sep b) = "" :: split sep b).
    simpl. now rewrite Ascii.eqb_refl.
  - change (split sep (String c (a ++ String sep b)) = String c a :: split sep b).
    simpl in *. destruct (Ascii.eqb c sep); [discriminate|].
    simpl in H. now rewrite IH.
Qed.

Lemma Widget_setitem_chains w name child :
  chains (Widget_setitem w name child) = chains w.
Proof. reflexivity. Qed.

Lemma fold_setitem_chains assigned : forall w,
  chains (fold_left (fun w nc => Widget_setitem w (fst nc) (snd nc)) assigned w) = chains w.
Proof.
  induction assigned as [|[n c] assigned IH]; intros w; simpl; [reflexivity|].
  now rewrite IH.
Qed.

Section Composed.

Variable call_subwidget_func :
  string -> Widget -> Factory -> result (list (string * Widget)).

Lemma run_subwidgets_chains subwidgets self : forall widget built,
  run_subwidgets call_subwidget_func subwidgets self widget = Ok built ->
  chains built = chains widget.
Proof.
  induction subwidgets as [|f fs IH]; intros widget built; simpl.
  - now intros [= <-].
  - destruct (call_subwidget_func f widget self) as [assigned|]; [|discriminate].
    simpl. intros H. apply IH in H. now rewrite H, fold_setitem_chains.
Qed.

Lemma run_subwidgets_defined subwidgets self : forall widget,
  (forall f w, In f subwidgets -> exists cs, call_subwidget_func f w self = Ok cs) ->
  exists built, run_subwidgets call_subwidget_func subwidgets self widget = Ok built.
Proof.
  induction subwidgets as [|f fs IH]; intros widget Hall; simpl; [eauto|].
  destruct (Hall f widget (or_introl eq_refl)) as [cs ->]. simpl.
  apply IH. intros. apply Hall. now right.
Qed.

(** C2.  With [a] and [b] registered (names without a colon, and, as
    [register] has it, without a leading asterisk), the widget composed
    from ["a:b"] has the extractors of [b] followed by those of [a],
    the renderers of [b] followed by those of [a], and as preprocessors
    the global ones, then those of [a], then those of [b]; it is built
    whenever the subwidget functions of [a] and [b] return. *)
Theorem compose_chained
    (self : Factory) (a b : string)
    (ea ra pa eb rb pb : list callable) (sa sb : list string)
    (name : option string) (value : value) (props : dict)
    (custom : gmap string blueprint) :
  _factories self !! a = Some (ea, ra, pa, sa) ->
  _factories self !! b = Some (eb, rb, pb, sb) ->
  contains_char ":" a = false ->
  contains_char ":" b = false ->
  startswith_asterisk a = false ->
  startswith_asterisk b = false ->
  Factory_call call_subwidget_func self (a ++ ":" ++ b) name value props custom =
    run_subwidgets call_subwidget_func (sa ++ sb) self
      (Widget_init (eb ++ ea) (rb ++ ra)
                   (_global_preprocessors self ++ pa ++ pb) name value props) /\
  (forall widget,
     Factory_call call_subwidget_func self (a ++ ":" ++ b) name value props custom =
       Ok widget ->
     extractors widget = eb ++ ea /\
     renderers widget = rb ++ ra /\
     preprocessors widget = _global_preprocessors self ++ pa ++ pb) /\
  ((forall f w, In f (sa ++ sb) -> exists cs, call_subwidget_func f w self = Ok cs) ->
   exists widget,
     Factory_call call_subwidget_func self (a ++ ":" ++ b) name value props custom =
       Ok widget).
Proof.
  intros Ha Hb Hca Hcb Hsa Hsb.
  assert (Heq :
    Factory_call call_subwidget_func self (a ++ ":" ++ b) name value props custom =
    run_subwidgets call_subwidget_func (sa ++ sb) self
      (Widget_init (eb ++ ea) (rb ++ ra)
                   (_global_preprocessors self ++ pa ++ pb) name value props)).
  { unfold Factory_call.
    change (a ++ ":" ++ b)%string with (a ++ String ":" b)%string.
    rewrite split_chained, split_word by assumption.
    cbn [compose]. rewrite Hsa, Hsb. unfold registry_getitem, blueprint in *.
    rewrite Ha, Hb. cbn [bind]. now rewrite !app_nil_r. }
  split; [exact Heq|]. split.
  - intros widget Hw. rewrite Heq in Hw.
    apply run_subwidgets_chains in Hw. unfold chains in Hw. simpl in Hw.
    injection Hw as H1 H2 H3. repeat split; try assumption.
    rewrite H3. now destruct (_global_preprocessors self ++ pa ++ pb).
  - intros Hall. rewrite Heq. now apply run_subwidgets_defined.
Qed.

End Composed.

(* ================================================================== *)
(** * The theorems at work *)
(* ================================================================== *)

Lemma extract_chain_of_extractors_witness :
  exists d',
    Widget_extract (list string) Samples.external Samples.name_of []
      (Samples.text "f1" (VStr "hello")) (VDict [("x", VStr "y")]) [] =
      (["keep"; "extract_value"], Samples.text "f1" (VStr "hello"), Ok d') /\
    getitem d' "extracted" = Ok (VList []) /\
    getitem d' "errors" = Ok (VList [VExc (ExtractionError true) [VStr "invalid"]]).
Proof.
  refine (proj1 (proj2 (proj2
    (extract_chain_of_extractors Samples.external Samples.name_of []
       (Samples.text "f1" (VStr "hello")) (VDict [("x", VStr "y")]) []
       ["keep"] (Samples.text "f1" (VStr "hello"))
       (VRuntimeData
          [("extracted", VList []); ("rendered", VList []); ("errors", VList []);
           ("request", VDict [("x", VStr "y")]); ("value", VStr "hello")])
       [] [] _ _ _ _)))
    (External "extract_value") [] ["keep"; "extract_value"]
    (Samples.text "f1" (VStr "hello")) _ [VStr "invalid"] _ _).
  - vm_compute. reflexivity.
  - reflexivity.
  - reflexivity.
  - simpl. intros [H|[]]. discriminate H.
  - reflexivity.
  - vm_compute. reflexivity.
Defined.

Lemma preprocessing_once_witness :
  Widget_runpreprocessors (list string) Samples.external Samples.name_of []
    (Samples.text "f1" (VStr "hello")) (VDict [])
    [("value", VStr "kept"); ("request", VDict [("k", VStr "v")])] [] =
  ([], Samples.text "f1" (VStr "hello"),
   Ok (VRuntimeData [("value", VStr "kept"); ("request", VDict [("k", VStr "v")])])).
Proof.
  exact (proj1
    (preprocessing_once Samples.external Samples.name_of []
       (Samples.text "f1" (VStr "hello")) (VDict [])
       [("value", VStr "kept"); ("request", VDict [("k", VStr "v")])] [])
    eq_refl eq_refl).
Defined.

Lemma widget_call_stages_witness :
  Widget_call (list string) Samples.external Samples.name_of []
    (Samples.text "f1" (VStr "hello")) (VDict [])
    (VRuntimeData (dict_set "value" (VStr "given") RuntimeData.new)) [] =
  render_chain (list string) Samples.external Samples.name_of []
    [External "render_value"] [] (Samples.text "f1" (VStr "hello"))
    (VRuntimeData (dict_set "value" (VStr "given") RuntimeData.new)).
Proof.
  exact (proj1 (proj2 (proj2
    (widget_call_stages Samples.external Samples.name_of []
       (Samples.text "f1" (VStr "hello")) (VDict [])
       (VRuntimeData (dict_set "value" (VStr "given") RuntimeData.new)) [])))
    eq_refl).
Defined.

Lemma compound_extractor_children_witness :
  exists s' cs' items,
    compound_extractor (list string) Samples.external Samples.name_of []
      Samples.form (VRuntimeData (dict_set "request" (VDict []) RuntimeData.new)) [] =
    (s', set_children Samples.form cs',
     VRuntimeData (dict_set "request" (VDict []) RuntimeData.new),
     Ok (VDict items)) /\
    dict_keys items = ["a"; "b"].
Proof.
  pose proof (compound_extractor_children Samples.external Samples.name_of []
                Samples.form (VRuntimeData (dict_set "request" (VDict []) RuntimeData.new))
                (VDict []) [] eq_refl) as H.
  assert (Hnd : List.NoDup (List.map fst (children Samples.form))).
  { simpl. repeat constructor; simpl; intuition discriminate. }
  specialize (H Hnd).
  destruct (extract_each (list string) Samples.external Samples.name_of
              (path [] Samples.form) (children Samples.form) (VDict []) [])
    as [[s' cs'] r] eqn:E.
  destruct r as [items|cls args]; [|vm_compute in E; discriminate E].
  destruct H as [H1 H2]. exists s', cs', items. split; [exact H1|].
  exact (proj1 (H2 items eq_refl)).
Defined.

Lemma compound_renderer_children_witness :
  exists s' cs' d',
    compound_renderer (list string) Samples.external Samples.name_of []
      Samples.form
      (VRuntimeData (dict_set "request" (VDict []) RuntimeData.new)) [] =
    (s', set_children Samples.form cs', d', Ok (VStr "34")).
Proof.
  pose proof (proj2 (compound_renderer_children Samples.external Samples.name_of []
                Samples.form (VRuntimeData (dict_set "request" (VDict []) RuntimeData.new))
                (VDict []) [] eq_refl
                ltac:(simpl; repeat constructor; simpl; intuition discriminate))
              (VList []) eq_refl eq_refl) as H.
  destruct (render_each (list string) Samples.external Samples.name_of
              (path [] Samples.form) (children Samples.form) (VDict [])
              (fun _ => Ok VNone) []) as [[s' cs'] r] eqn:E.
  exists s', cs', (VRuntimeData (dict_set "request" (VDict []) RuntimeData.new)).
  rewrite H. vm_compute in E. injection E as _ _ <-. reflexivity.
Defined.

Lemma compose_chained_witness :
  exists widget,
    Factory_call Samples.no_subwidgets Samples.two_blueprints "a:b"
      (Some "f") VNone [] ∅ = Ok widget /\
    extractors widget = [External "eb"; External "ea"] /\
    renderers widget = [External "rb"; External "ra"] /\
    preprocessors widget = [External "global"; External "pa"; External "pb"].
Proof.
  destruct (compose_chained Samples.no_subwidgets Samples.two_blueprints "a" "b"
              [External "ea"] [External "ra"] [External "pa"]
              [External "eb"] [External "rb"] [External "pb"] [] []
              (Some "f") VNone [] ∅
              ltac:(vm_compute; reflexivity) ltac:(vm_compute; reflexivity)
              eq_refl eq_refl eq_refl eq_refl) as (_ & Hchains & Hbuilt).
  destruct Hbuilt as [widget Hw].
  { intros f w []. }
  exists widget. split; [exact Hw|]. exact (Hchains widget Hw).
Defined.

(* ================================================================== *)
(** * Further properties of the record *)
(* ================================================================== *)

Lemma dict_get_of_items_last (items : list (string * value)) : forall (m : dict) k,
  dict_get k (fold_left (fun m kv => dict_set (fst kv) (snd kv) m) items m) =
  match dict_get k (List.rev items) with
  | Some v => Some v
  | None => dict_get k m
  end.
Proof.
  induction items as [|[k0 v0] items IH]; intros m k; simpl.
  - reflexivity.
  - rewrite IH. clear IH.
    assert (Happ : forall (l : dict), dict_get k (l ++ [(k0, v0)]) =
              match dict_get k l with
              | Some v => Some v
              | None => if String.eqb k k0 then Some v0 else None
              end).
    { induction l as [|[k1 v1] l IHl]; simpl; [reflexivity|].
      destruct (String.eqb k k1); [reflexivity|exact IHl]. }
    rewrite Happ. destruct (dict_get k (List.rev items)); [reflexivity|].
    destruct (String.eqb k k0) eqn:E.
    + apply String.eqb_eq in E. subst k0. apply dict_get_set_eq.
    + apply String.eqb_neq in E. apply dict_get_set_ne. congruence.
Qed.

(** X1.  The constructor keeps what it is given under every key but its
    three sequences: such a key reads as its last binding among the
    positional items followed by the keywords, so a keyword overrides a
    positional item and a later item an earlier one. *)
Theorem RuntimeData_init_other_keys (args kw : list (string * value)) (k : string) :
  k <> "extracted" -> k <> "rendered" -> k <> "errors" ->
  dict_get k (RuntimeData.__init__ args kw) = dict_get k (List.rev (args ++ kw)).
Proof.
  intros He Hr Hx. unfold RuntimeData.__init__, dict_of_items.
  rewrite !dict_get_set_ne by congruence.
  rewrite dict_get_of_items_last. simpl. now destruct (dict_get k (List.rev (args ++ kw))).
Qed.

Lemma RuntimeData_init_other_keys_witness :
  dict_get "request"
    (RuntimeData.__init__ [("request", VInt 1); ("extracted", VInt 5)]
                          [("request", VInt 2)]) = Some (VInt 2).
Proof.
  exact (RuntimeData_init_other_keys [("request", VInt 1); ("extracted", VInt 5)]
           [("request", VInt 2)] "request"
           ltac:(discriminate) ltac:(discriminate) ltac:(discriminate)).
Defined.

(** X2.  A record that lost a sequence makes its accessor raise the
    [KeyError] of the missing key; on an entry whose length cannot be
    taken the accessor raises whatever taking the length raises;
    whatever [last_extracted] raises, [has_extracted] raises too. *)
Theorem accessors_on_broken_record (self : dict) (key : string) (default : value) :
  (dict_get key self = None ->
   RuntimeData._last self key default = Raise KeyError [VStr key]) /\
  (forall v cls args, dict_get key self = Some v -> len v = Raise cls args ->
   RuntimeData._last self key default = Raise cls args) /\
  (forall cls args, RuntimeData.last_extracted self = Raise cls args ->
   RuntimeData.has_extracted (VRuntimeData self) = Raise cls args).
Proof.
  split; [|split].
  - intros H. unfold RuntimeData._last, dict_getitem. now rewrite H.
  - intros v cls args H Hl. unfold RuntimeData._last, dict_getitem. rewrite H. simpl.
    now rewrite Hl.
  - intros cls args H. rewrite has_extracted_unfold.
    unfold RuntimeData.has_extracted_body. now rewrite H.
Qed.

Lemma accessors_on_broken_record_witness :
  RuntimeData.has_extracted (VRuntimeData [("rendered", VList [])]) =
  Raise KeyError [VStr "extracted"].
Proof.
  destruct (accessors_on_broken_record [("rendered", VList [])] "extracted" UNSET)
    as (H1 & _ & H3).
  apply H3. apply H1. reflexivity.
Defined.

(** X3.  When the last extracted value is neither a mapping nor a list
    holding a record, [has_extracted] is the truth of that value: false
    for [UNSET] (nothing extracted), [None], an empty string or an empty
    list, true for a non-empty string or a non-empty list of plain
    values. *)
Theorem has_extracted_plain_value (self : dict) (last : value) :
  RuntimeData.last_extracted self = Ok last ->
  (forall lm, last <> VDict lm /\ last <> VRuntimeData lm) ->
  (forall l, last = VList l ->
     List.Forall (fun v => isinstance_RuntimeData v = false) l) ->
  RuntimeData.has_extracted (VRuntimeData self) = Ok (truth last).
Proof.
  intros E Hmap Hlist. rewrite has_extracted_unfold.
  unfold RuntimeData.has_extracted_body. rewrite E. simpl.
  destruct last; try reflexivity.
  - rewrite (filter_none _ _ (Hlist l eq_refl)). reflexivity.
  - destruct (Hmap m) as [H _]. congruence.
  - destruct (Hmap m) as [_ H]. congruence.
Qed.

Lemma has_extracted_plain_value_witness :
  RuntimeData.has_extracted (VRuntimeData (Samples.record_with [VStr "a"; VList [VStr ""]])) =
  Ok true.
Proof.
  refine (has_extracted_plain_value
            (Samples.record_with [VStr "a"; VList [VStr ""]]) (VList [VStr ""])
            eq_refl _ _).
  - intros lm. split; discriminate.
  - intros l [= <-]. repeat constructor.
Defined.

Lemma comprehension_total f l :
  List.Forall (fun v => exists b, f v = Ok b) l ->
  exists hits,
    RuntimeData.comprehension f l = Ok hits /\
    (hits <> [] <-> List.Exists (fun v => f v = Ok true) l).
Proof.
  induction 1 as [|x l [b Hb] _ (hits & IH1 & IH2)]; simpl.
  - exists []. split; [reflexivity|]. split; [congruence|]. intros H. inversion H.
  - rewrite Hb, IH1. simpl. destruct b.
    + exists (x :: hits). split; [reflexivity|]. split; [auto|discriminate].
    + exists hits. split; [reflexivity|]. rewrite IH2. split; [auto|].
      intros H. inversion H; subst; [congruence|assumption].
Qed.

Lemma comprehension_raises f pre x post cls args :
  List.Forall (fun v => exists b, f v = Ok b) pre ->
  f x = Raise cls args ->
  RuntimeData.comprehension f (pre ++ x :: post) = Raise cls args.
Proof.
  induction 1 as [|y pre [b Hb] _ IH]; intros Hx; simpl.
  - now rewrite Hx.
  - rewrite Hb. simpl. now rewrite IH.
Qed.

(** X4.  When the last extracted value is a list holding a record, the
    [has_extracted] of every element is read, in order: if all of them
    answer, the answer is true exactly when one of them is true; the
    first element whose read raises makes the read raise the same, and
    an element that is no record has no [has_extracted] to read, which
    is an [AttributeError]: a list mixing records and other values is
    refused. *)
Theorem has_extracted_list_of_records (self : dict) (l : list value) :
  RuntimeData.last_extracted self = Ok (VList l) ->
  List.Exists (fun v => isinstance_RuntimeData v = true) l ->
  (List.Forall (fun v => exists b, RuntimeData.has_extracted v = Ok b) l ->
   exists b,
     RuntimeData.has_extracted (VRuntimeData self) = Ok b /\
     (b = true <-> List.Exists (fun v => RuntimeData.has_extracted v = Ok true) l)) /\
  (forall pre x post cls args,
     l = pre ++ x :: post ->
     List.Forall (fun v => exists b, RuntimeData.has_extracted v = Ok b) pre ->
     RuntimeData.has_extracted x = Raise cls args ->
     RuntimeData.has_extracted (VRuntimeData self) = Raise cls args) /\
  (forall pre x post,
     l = pre ++ x :: post ->
     List.Forall (fun v => exists b, RuntimeData.has_extracted v = Ok b) pre ->
     isinstance_RuntimeData x = false ->
     exists args,
       RuntimeData.has_extracted (VRuntimeData self) = Raise AttributeError args).
Proof.
  intros E Hsome.
  assert (Hb : RuntimeData.has_extracted (VRuntimeData self) =
               let! hits := RuntimeData.comprehension RuntimeData.has_extracted l in
               Ok (truth (VList hits))).
  { rewrite has_extracted_unfold. unfold RuntimeData.has_extracted_body. rewrite E.
    simpl. apply filter_some in Hsome.
    destruct (List.filter isinstance_RuntimeData l); [simpl in Hsome; lia|reflexivity]. }
  assert (Hraise : forall pre x post cls args,
     l = pre ++ x :: post ->
     List.Forall (fun v => exists b, RuntimeData.has_extracted v = Ok b) pre ->
     RuntimeData.has_extracted x = Raise cls args ->
     RuntimeData.has_extracted (VRuntimeData self) = Raise cls args).
  { intros pre x post cls args -> Hpre Hx. rewrite Hb.
    now rewrite (comprehension_raises _ pre x post cls args Hpre Hx). }
  split; [|split].
  - intros Hall. destruct (comprehension_total _ _ Hall) as (hits & H1 & H2).
    rewrite Hb, H1. simpl. exists (truth (VList hits)). split; [reflexivity|].
    rewrite <- H2. simpl. destruct hits; split; congruence.
  - exact Hraise.
  - intros pre x post Hl Hpre Hx. exists []. eapply Hraise; eauto.
    unfold RuntimeData.has_extracted.
    destruct x; try discriminate; reflexivity.
Qed.

Lemma has_extracted_list_of_records_witness :
  exists args,
    RuntimeData.has_extracted
      (VRuntimeData (Samples.record_with [VList [Samples.entered; VStr "plain"]])) =
    Raise AttributeError args.
Proof.
  refine (proj2 (proj2 (has_extracted_list_of_records
            (Samples.record_with [VList [Samples.entered; VStr "plain"]])
            [Samples.entered; VStr "plain"] eq_refl _))
          [Samples.entered] (VStr "plain") [] eq_refl _ eq_refl).
  - apply Exists_cons_hd. reflexivity.
  - constructor; [|constructor]. exists true. vm_compute. reflexivity.
Defined.

(* ================================================================== *)
(** * Further properties of the pipelines *)
(* ================================================================== *)

Section More.

Context {World : Type}.
Variable call_external :
  string -> list value -> Widget -> value -> World -> World * result value.
Variable str_callable : callable -> string.

Local Abbreviation Invoke := (invoke World call_external str_callable).
Local Abbreviation Call := (call World call_external str_callable).
Local Abbreviation Extract := (Widget_extract World call_external str_callable).
Local Abbreviation Render := (Widget_call World call_external str_callable).
Local Abbreviation Preprocess :=
  (Widget_runpreprocessors World call_external str_callable).
Local Abbreviation Preprocess_chain :=
  (preprocess_chain World call_external str_callable).
Local Abbreviation Extract_chain := (extract_chain World call_external str_callable).
Local Abbreviation Render_chain := (render_chain World call_external str_callable).

Lemma extract_children_names inv here cs : forall data res s s' cs' r,
  extract_children World str_callable inv here cs data res s = (s', cs', r) ->
  List.map fst cs' = List.map fst cs.
Proof.
  induction cs as [|[n c] cs IH]; simpl; intros data res s s' cs' r.
  - now intros [= _ <- _].
  - destruct (getitem data "request") as [request|]; [|now intros [= _ <- _]].
    destruct (extract_body World str_callable inv here c request s) as [[s0 c0] r0].
    destruct r0 as [d|]; [|now intros [= _ <- _]].
    destruct (extract_children World str_callable inv here cs data
                (dict_set n d res) s0) as [[s1 cs1] r1] eqn:E1.
    apply IH in E1. intros [= _ <- _]. simpl. now rewrite E1.
Qed.

Lemma render_children_names inv here cs : forall data res s s' cs' d' r,
  render_children World str_callable inv here cs data res s = (s', cs', d', r) ->
  List.map fst cs' = List.map fst cs.
Proof.
  induction cs as [|[n c] cs IH]; simpl; intros data res s s' cs' d' r.
  - now intros [= _ <- _ _].
  - destruct (child_kw data n) as [[request kwdata]|]; [|now intros [= _ <- _ _]].
    destruct (call_body World str_callable inv here c request
                match kwdata with Some sub => sub | None => VNone end s)
      as [[[s0 c0] d0] r0].
    destruct (let! out := r0 in add_unicode res out) as [acc|];
      [|now intros [= _ <- _ _]].
    match goal with |- context [render_children _ _ _ _ _ ?dd _ _] =>
      destruct (render_children World str_callable inv here cs dd acc s0)
        as [[[s1 cs1] d1] r1] eqn:E1 end.
    apply IH in E1. intros [= _ <- _ _]. simpl. now rewrite E1.
Qed.

Lemma delegate_children_names cs data :
  List.map fst (fst (delegate_children cs data)) = List.map fst cs.
Proof.
  induction cs as [|[n c] cs IH]; simpl; [reflexivity|].
  destruct (let! value := getitem data "value" in method_get value n VNone);
    [|reflexivity].
  destruct (delegate_children cs data) as [rest r]. simpl in *. now rewrite IH.
Qed.

Lemma set_children_shell w cs :
  List.map fst cs = List.map fst (children w) -> shell (set_children w cs) = shell w.
Proof. intros H. unfold shell, chains. simpl. now rewrite H. Qed.

Lemma invoke_keeps_shell n : keeps shell (Invoke n).
Proof.
  intros c anc w d s. destruct n, c; simpl; try reflexivity;
    try (destruct (call_external id anc w d s); reflexivity);
    try (unfold compound_preprocessor_body;
         destruct (truth (dict_get_or (attributes w) "delegation" (VBool false)));
           [|reflexivity];
         pose proof (delegate_children_names (children w) d) as H;
         destruct (delegate_children (children w) d) as [cs r];
         unfold widget_of; simpl in *; now apply set_children_shell).
  - unfold compound_extractor_body.
    destruct (extract_children _ _ _ _ _ _ _ _) as [[s1 cs1] r1] eqn:E.
    apply extract_children_names in E. unfold widget_of. simpl.
    now apply set_children_shell.
  - unfold compound_renderer_body.
    destruct (render_children _ _ _ _ _ _ _ _) as [[[s1 cs1] d1] r1] eqn:E.
    apply render_children_names in E. unfold widget_of. simpl.
    now apply set_children_shell.
Qed.

Lemma leaf_same_shell w w' :
  shell w' = shell w -> children w = [] -> w' = w.
Proof.
  destruct w as [g e r p n a cs], w' as [g' e' r' p' n' a' cs'].
  unfold shell, chains. simpl. intros [= -> -> -> -> -> -> Hcs] ->.
  destruct cs'; [reflexivity|discriminate].
Qed.

Lemma bare_children_eq w :
  bare w = mkWidget VNone (extractors w) (renderers w) (preprocessors w)
                    (__name__ w) (attributes w) (bare_children (children w)).
Proof. destruct w as [g ex ren pre nm at_ cs]. reflexivity. Qed.

Lemma bare_set_children w cs :
  bare_children cs = bare_children (children w) -> bare (set_children w cs) = bare w.
Proof. intros H. rewrite !bare_children_eq. simpl. now rewrite H. Qed.

Lemma bare_set_getter w g : bare (set_getter w g) = bare w.
Proof. now rewrite !bare_children_eq. Qed.

Section KeepsBare.

Variable inv : callable -> list value -> Widget -> value -> World ->
               called World.
Hypothesis Hinv : keeps bare inv.

Lemma extract_children_bare here cs : forall data res s s' cs' r,
  extract_children World str_callable inv here cs data res s = (s', cs', r) ->
  bare_children cs' = bare_children cs.
Proof using Hinv.
  induction cs as [|[n c] cs IH]; simpl; intros data res s s' cs' r.
  - now intros [= _ <- _].
  - destruct (getitem data "request") as [request|]; [|now intros [= _ <- _]].
    destruct (extract_body World str_callable inv here c request s)
      as [[s0 c0] r0] eqn:E.
    apply (extract_body_keeps str_callable bare _ Hinv) in E.
    destruct r0 as [d|].
    + destruct (extract_children World str_callable inv here cs data
                  (dict_set n d res) s0) as [[s1 cs1] r1] eqn:E1.
      apply IH in E1. intros [= _ <- _]. simpl. congruence.
    + intros [= _ <- _]. simpl. congruence.
Qed.

Lemma render_children_bare here cs : forall data res s s' cs' d' r,
  render_children World str_callable inv here cs data res s = (s', cs', d', r) ->
  bare_children cs' = bare_children cs.
Proof using Hinv.
  induction cs as [|[n c] cs IH]; simpl; intros data res s s' cs' d' r.
  - now intros [= _ <- _ _].
  - destruct (child_kw data n) as [[request kwdata]|]; [|now intros [= _ <- _ _]].
    destruct (call_body World str_callable inv here c request
                match kwdata with Some sub => sub | None => VNone end s)
      as [[[s0 c0] d0] r0] eqn:E.
    apply (call_body_keeps str_callable bare _ Hinv) in E.
    destruct (let! out := r0 in add_unicode res out) as [acc|].
    + match goal with |- context [render_children _ _ _ _ _ ?dd _ _] =>
        destruct (render_children World str_callable inv here cs dd acc s0)
          as [[[s1 cs1] d1] r1] eqn:E1 end.
      apply IH in E1. intros [= _ <- _ _]. simpl. congruence.
    + intros [= _ <- _ _]. simpl. congruence.
Qed.

End KeepsBare.

Lemma delegate_children_bare cs data :
  bare_children (fst (delegate_children cs data)) = bare_children cs.
Proof.
  induction cs as [|[n c] cs IH]; simpl; [reflexivity|].
  destruct (let! value := getitem data "value" in method_get value n VNone);
    [|reflexivity].
  destruct (delegate_children cs data) as [rest r].
  cbn [fst bare_children] in *.
  now rewrite bare_set_getter, IH.
Qed.

Lemma invoke_keeps_bare n : keeps bare (Invoke n).
Proof.
  induction n as [|n IH]; intros c anc w d s; destruct c; simpl;
    try reflexivity;
    try (destruct (call_external id anc w d s); reflexivity);
    try (unfold compound_preprocessor_body;
         destruct (truth _); [|reflexivity];
         pose proof (delegate_children_bare (children w) d) as H;
         destruct (delegate_children (children w) d) as [cs r];
         unfold widget_of; simpl in *; now apply bare_set_children).
  - unfold compound_extractor_body.
    destruct (extract_children _ _ _ _ _ _ _ _) as [[s1 cs1] r1] eqn:E.
    apply (extract_children_bare _ IH) in E.
    unfold widget_of; simpl. now apply bare_set_children.
  - unfold compound_renderer_body.
    destruct (render_children _ _ _ _ _ _ _ _) as [[[s1 cs1] d1] r1] eqn:E.
    apply (render_children_bare _ IH) in E.
    unfold widget_of; simpl. now apply bare_set_children.
Qed.

(** X5.  Whatever is called on a widget (a callable of a chain, its
    preprocessing, [extract] or the widget itself), the widget the call
    leaves has the getter, the three chains, the name, the attributes
    and the names and order of the children it had, and the tree below
    it is the tree it was but for the getters in it: getters below the
    node are all these calls ever write.  A widget without children
    comes out of any of them exactly as it went in. *)
Theorem calls_keep_the_widget (anc : list value) (w : Widget) (s : World)
    (s' : World) (w' : Widget) :
  (exists c data d' r, Call c anc w data s = (s', w', d', r)) \/
  (exists request data r, Preprocess anc w request data s = (s', w', r)) \/
  (exists request r, Extract anc w request s = (s', w', r)) \/
  (exists request data d' r, Render anc w request data s = (s', w', d', r)) ->
  shell w' = shell w /\
  bare w' = bare w /\
  (children w = [] -> w' = w).
Proof.
  intros H.
  assert (Hkept : shell w' = shell w /\ bare w' = bare w).
  { destruct H as [(c & data & d' & r & E) | [(request & data & r & E) |
                   [(request & r & E) | (request & data & d' & r & E)]]].
    - pose proof (invoke_keeps_shell (height w) c anc w data s) as H1.
      pose proof (invoke_keeps_bare (height w) c anc w data s) as H2.
      unfold call in E. rewrite E in H1, H2. split; [exact H1 | exact H2].
    - split.
      + exact (runpreprocessors_body_keeps str_callable shell _
                 (invoke_keeps_shell (height w)) _ _ _ _ _ _ _ _ E).
      + exact (runpreprocessors_body_keeps str_callable bare _
                 (invoke_keeps_bare (height w)) _ _ _ _ _ _ _ _ E).
    - split.
      + exact (extract_body_keeps str_callable shell _
                 (invoke_keeps_shell (height w)) _ _ _ _ _ _ _ E).
      + exact (extract_body_keeps str_callable bare _
                 (invoke_keeps_bare (height w)) _ _ _ _ _ _ _ E).
    - split.
      + exact (call_body_keeps str_callable shell _
                 (invoke_keeps_shell (height w)) _ _ _ _ _ _ _ _ _ E).
      + exact (call_body_keeps str_callable bare _
                 (invoke_keeps_bare (height w)) _ _ _ _ _ _ _ _ _ E). }
  destruct Hkept as [Hs Hb]. split; [exact Hs|]. split; [exact Hb|].
  intros Hleaf. now apply leaf_same_shell.
Qed.

Lemma extract_chain_other anc exs : forall s w d s' w' d',
  Extract_chain anc exs s w d = (s', w', Ok d') ->
  isinstance_RuntimeData d' = isinstance_RuntimeData d /\
  forall k, k <> "extracted" -> k <> "errors" -> getitem d' k = getitem d k.
Proof.
  induction exs as [|ex exs IH]; intros s w d s' w' d'.
  - rewrite extract_chain_nil. intros [= _ _ <-]. auto.
  - rewrite extract_chain_cons.
    destruct (Call ex anc w d s) as [[[s1 w1] d1] r] eqn:E.
    apply call_record_other in E. destruct E as [Hi Hk].
    assert (Hstep : forall key x d2,
              (key = "extracted" \/ key = "errors") ->
              append_item d1 key x = Ok d2 ->
              isinstance_RuntimeData d2 = isinstance_RuntimeData d /\
              forall k, k <> "extracted" -> k <> "errors" -> getitem d2 k = getitem d k).
    { intros key x d2 Hkey Ha. split.
      - rewrite (append_item_isinstance _ _ _ _ Ha). exact Hi.
      - intros k H1 H2. rewrite (append_item_ne _ _ _ _ k Ha).
        + now apply Hk.
        + destruct Hkey; congruence. }
    destruct r as [v|cls args].
    + destruct (append_item d1 "extracted" v) as [d2|] eqn:A; [|discriminate].
      destruct (Hstep _ _ _ (or_introl eq_refl) A) as [Hi2 Hk2].
      intros H. apply IH in H. destruct H as [Hi3 Hk3].
      split; [congruence|]. intros k H1 H2. rewrite Hk3, Hk2; auto.
    + destruct cls; try discriminate.
      destruct (append_item d1 "errors" _) as [d2|] eqn:A; [|discriminate].
      destruct (Hstep _ _ _ (or_intror eq_refl) A) as [Hi2 Hk2].
      destruct abort.
      * intros [= _ _ <-]. auto.
      * intros H. apply IH in H. destruct H as [Hi3 Hk3].
        split; [congruence|]. intros k H1 H2. rewrite Hk3, Hk2; auto.
Qed.

Lemma render_chain_other anc rens : forall s w d s' w' d' r,
  Render_chain anc rens s w d = (s', w', d', r) ->
  isinstance_RuntimeData d' = isinstance_RuntimeData d /\
  forall k, k <> "extracted" -> k <> "rendered" -> getitem d' k = getitem d k.
Proof.
  induction rens as [|ren rens IH]; intros s w d s' w' d' r.
  - rewrite render_chain_nil. intros [= _ _ <- _]. auto.
  - rewrite render_chain_cons.
    destruct (Call ren anc w d s) as [[[s1 w1] d1] r1] eqn:E.
    apply call_record_other in E. destruct E as [Hi Hk].
    assert (H1 : isinstance_RuntimeData d1 = isinstance_RuntimeData d /\
                 forall k, k <> "extracted" -> k <> "rendered" ->
                           getitem d1 k = getitem d k) by auto.
    destruct r1 as [v|cls args]; [|intros [= _ _ <- _]; exact H1].
    destruct (append_item d1 "rendered" v) as [d2|] eqn:A;
      [|intros [= _ _ <- _]; exact H1].
    intros H. apply IH in H. destruct H as [Hi3 Hk3]. split.
    + rewrite Hi3, (append_item_isinstance _ _ _ _ A). exact Hi.
    + intros k Hx Hy. rewrite Hk3, (append_item_ne _ _ _ _ k A); auto.
Qed.

(** X6.  [extract] proper touches nothing of the record but [extracted]
    and [errors]: what preprocessing left under any other key is what
    the returned record holds, and a record stays a record.  So on a
    widget without preprocessors whose getter is a plain value, the
    record [extract] returns holds the request under ['request'], the
    getter under ['value'] and nothing rendered. *)
Theorem extract_touches_its_sequences
    (anc : list value) (w : Widget) (request : value) (s : World)
    (s' : World) (w' : Widget) (d' : value) :
  Extract anc w request s = (s', w', Ok d') ->
  (exists s0 w0 d0,
     Preprocess anc w request RuntimeData.new s = (s0, w0, Ok d0) /\
     isinstance_RuntimeData d' = isinstance_RuntimeData d0 /\
     forall k, k <> "extracted" -> k <> "errors" -> getitem d' k = getitem d0 k) /\
  ((forall g, getter w <> VCallable g) -> preprocessors w = [] ->
   isinstance_RuntimeData d' = true /\
   getitem d' "request" = Ok request /\
   getitem d' "value" = Ok (getter w) /\
   getitem d' "rendered" = Ok (VList [])).
Proof.
  intros E. rewrite Widget_extract_eq in E.
  destruct (Preprocess anc w request RuntimeData.new s) as [[s0 w0] [d0|]] eqn:P;
    [|discriminate].
  apply extract_chain_other in E. destruct E as [Hi Hk].
  split; [exists s0, w0, d0; auto|].
  intros Hg Hp. rewrite Widget_runpreprocessors_eq in P.
  change (dict_has "value" RuntimeData.new && dict_has "request" RuntimeData.new)
    with false in P. cbv zeta iota in P. rewrite Hp in P.
  assert (Hd0 : d0 = VRuntimeData (dict_set "value" (getter w)
                       (dict_set "request" request RuntimeData.new))).
  { destruct (getter w) eqn:G; try (rewrite preprocess_chain_nil in P; congruence).
    exfalso. eapply Hg. reflexivity. }
  subst d0. rewrite Hi. split; [reflexivity|].
  rewrite !Hk by discriminate. repeat split; reflexivity.
Qed.

(** X7.  Rendering on a record that is given touches nothing of it but
    [rendered] and the entries of [extracted] the children render on:
    [errors], ['request'] and ['value'] are as they were, also when a
    renderer raises, whatever it raises; a record stays a record. *)
Theorem render_touches_its_sequences
    (anc : list value) (w : Widget) (request data : value) (s : World)
    (s' : World) (w' : Widget) (d' : value) (r : result value) :
  is_None data = false ->
  Render anc w request data s = (s', w', d', r) ->
  isinstance_RuntimeData d' = isinstance_RuntimeData data /\
  forall k, k <> "extracted" -> k <> "rendered" -> getitem d' k = getitem data k.
Proof.
  intros Hn E. rewrite Widget_call_eq, Hn in E. simpl in E.
  now apply render_chain_other in E.
Qed.

Lemma extract_chain_app anc pre s w d log s1 w1 d1 :
  extract_run World call_external str_callable anc pre s w d log s1 w1 d1 ->
  List.Forall (fun e => ~ aborting e) log ->
  forall more, Extract_chain anc (pre ++ more) s w d = Extract_chain anc more s1 w1 d1.
Proof.
  induction 1 as [s w d
                 |ex rest s w d s1 w1 d1 v d2 log s' w' d' Hc Ha _ IH
                 |ex rest s w d s1 w1 d1 args d2 log s' w' d' Hc Ha _ IH
                 |ex rest s w d s1 w1 d1 args d2 Hc Ha];
    intros Hlog more.
  - reflexivity.
  - inversion Hlog; subst. simpl. rewrite extract_chain_cons, Hc, Ha. now apply IH.
  - inversion Hlog; subst. simpl. rewrite extract_chain_cons, Hc, Ha. now apply IH.
  - inversion Hlog as [|? ? Hn _]; subst. exfalso. apply Hn. eexists. reflexivity.
Qed.

Lemma preprocess_chain_app anc pre s w d s1 w1 d1 :
  preprocess_run World call_external str_callable anc pre s w d s1 w1 d1 ->
  forall more,
    Preprocess_chain anc (pre ++ more) s w d = Preprocess_chain anc more s1 w1 d1.
Proof.
  induction 1 as [s w d|pp rest s w d s1 w1 d1 d2 s' w' d' Hc _ IH]; intros more.
  - reflexivity.
  - simpl. rewrite preprocess_chain_cons, Hc. apply IH.
Qed.

Lemma render_chain_app anc pre s w d vs s1 w1 d1 :
  render_run World call_external str_callable anc pre s w d vs s1 w1 d1 ->
  forall more, Render_chain anc (pre ++ more) s w d = Render_chain anc more s1 w1 d1.
Proof.
  induction 1 as [s w d|ren rest s w d s1 w1 d1 v d2 vs s' w' d' Hc Ha _ IH];
    intros more.
  - reflexivity.
  - simpl. rewrite render_chain_cons, Hc, Ha. apply IH.
Qed.

(** X8.  A chain run in two parts is the chain run in one: once the
    preprocessors, the extractors (none of them having aborted) or the
    renderers of the first part have run, what remains of the chain
    runs from the state they left, as if it were called on its own. *)
Theorem chains_run_in_parts (anc : list value) (pre more : list callable)
    (s : World) (w : Widget) (d : value) (s1 : World) (w1 : Widget) (d1 : value) :
  (preprocess_run World call_external str_callable anc pre s w d s1 w1 d1 ->
   Preprocess_chain anc (pre ++ more) s w d = Preprocess_chain anc more s1 w1 d1) /\
  (forall log,
     extract_run World call_external str_callable anc pre s w d log s1 w1 d1 ->
     List.Forall (fun e => ~ aborting e) log ->
     Extract_chain anc (pre ++ more) s w d = Extract_chain anc more s1 w1 d1) /\
  (forall vs,
     render_run World call_external str_callable anc pre s w d vs s1 w1 d1 ->
     Render_chain anc (pre ++ more) s w d = Render_chain anc more s1 w1 d1).
Proof.
  split; [|split].
  - intros H. now apply preprocess_chain_app.
  - intros log H Hlog. eapply extract_chain_app; eauto.
  - intros vs H. eapply render_chain_app; eauto.
Qed.

(** X9.  An extractor that raises anything but an [ExtractionError]
    ends [extract]'s chain wherever it stands: the exception leaves the
    chain with the extractor's [str] and the widget's path added to its
    [args], no record is returned, and no later extractor runs. *)
Theorem extractor_failure_is_fatal
    (anc : list value) (pre rest : list callable) (ex : callable)
    (s : World) (w : Widget) (d : value) (log : list (callable * result value))
    (s1 : World) (w1 : Widget) (d1 : value)
    (s2 : World) (w2 : Widget) (d2 : value) (cls : exc_class) (args : list value) :
  extract_run World call_external str_callable anc pre s w d log s1 w1 d1 ->
  List.Forall (fun e => ~ aborting e) log ->
  Call ex anc w1 d1 s1 = (s2, w2, d2, Raise cls args) ->
  (forall abort, cls <> ExtractionError abort) ->
  Extract_chain anc (pre ++ ex :: rest) s w d =
    (s2, w2, Raise cls (args ++ [VStr (str_callable ex)] ++ path anc w2)).
Proof.
  intros Hrun Hlog Hc Hcls.
  rewrite (extract_chain_app _ _ _ _ _ _ _ _ _ Hrun Hlog).
  rewrite extract_chain_cons, Hc.
  destruct cls; try reflexivity. exfalso. eapply Hcls. reflexivity.
Qed.

(** X10.  A renderer that raises, whatever it raises, ends the call
    wherever it stands in the chain: the exception leaves with the
    renderer's [str] and the widget's path added to its [args], and no
    later renderer runs.  An [ExtractionError] is no exception to this:
    raised by a renderer it is not taken into [errors]. *)
Theorem renderer_failure_is_fatal
    (anc : list value) (pre rest : list callable) (ren : callable)
    (s : World) (w : Widget) (d : value) (vs : list value)
    (s1 : World) (w1 : Widget) (d1 : value)
    (s2 : World) (w2 : Widget) (d2 : value) (cls : exc_class) (args : list value) :
  render_run World call_external str_callable anc pre s w d vs s1 w1 d1 ->
  Call ren anc w1 d1 s1 = (s2, w2, d2, Raise cls args) ->
  Render_chain anc (pre ++ ren :: rest) s w d =
    (s2, w2, d2, Raise cls (args ++ [VStr (str_callable ren)] ++ path anc w2)) /\
  getitem d2 "errors" = getitem d "errors".
Proof.
  intros Hrun Hc.
  assert (E : Render_chain anc (pre ++ ren :: rest) s w d =
              (s2, w2, d2, Raise cls (args ++ [VStr (str_callable ren)] ++ path anc w2))).
  { rewrite (render_chain_app _ _ _ _ _ _ _ _ _ Hrun).
    rewrite render_chain_cons, Hc. reflexivity. }
  split; [exact E|].
  apply render_chain_other in E. destruct E as [_ Hk]. apply Hk; discriminate.
Qed.

(** X11.  A preprocessor that raises, whatever it raises, ends
    preprocessing wherever it stands in the chain, the exception
    leaving with the preprocessor's [str] and the widget's path added to
    its [args]; a callable getter that raises ends it before any
    preprocessor runs, the exception leaving as it is.  Whatever
    preprocessing raises, [extract] raises unchanged, and so does a call
    of the widget without a record: no extractor and no renderer runs,
    and an [ExtractionError] raised in preprocessing is not taken into
    [errors]. *)
Theorem preprocessing_failure_is_fatal
    (anc : list value) (w : Widget) (request : value) (s : World) :
  (forall pre pp rest d s1 w1 d1 s2 w2 d2 cls args,
     preprocess_run World call_external str_callable anc pre s w d s1 w1 d1 ->
     Call pp anc w1 d1 s1 = (s2, w2, d2, Raise cls args) ->
     Preprocess_chain anc (pre ++ pp :: rest) s w d =
       (s2, w2, Raise cls (args ++ [VStr (str_callable pp)] ++ path anc w2))) /\
  (forall data g s1 w1 d1 cls args,
     dict_has "value" data && dict_has "request" data = false ->
     getter w = VCallable g ->
     Call g anc w (VRuntimeData (dict_set "request" request data)) s =
       (s1, w1, d1, Raise cls args) ->
     Preprocess anc w request data s = (s1, w1, Raise cls args)) /\
  (forall s1 w1 cls args,
     Preprocess anc w request RuntimeData.new s = (s1, w1, Raise cls args) ->
     Extract anc w request s = (s1, w1, Raise cls args) /\
     Render anc w request VNone s = (s1, w1, VNone, Raise cls args)).
Proof.
  split; [|split].
  - intros pre pp rest d s1 w1 d1 s2 w2 d2 cls args Hrun Hc.
    rewrite (preprocess_chain_app _ _ _ _ _ _ _ _ Hrun).
    rewrite preprocess_chain_cons, Hc. reflexivity.
  - intros data g s1 w1 d1 cls args Hno Hg Hc.
    rewrite Widget_runpreprocessors_eq, Hno. cbv zeta. rewrite Hg, Hc. reflexivity.
  - intros s1 w1 cls args P.
    assert (E : Extract anc w request s = (s1, w1, Raise cls args)).
    { rewrite Widget_extract_eq, P. reflexivity. }
    split; [exact E|].
    rewrite Widget_call_eq. simpl. destruct (truth request); simpl.
    + now rewrite E.
    + now rewrite P.
Qed.

(** ** More of the compound protocol *)

Lemma set_children_same w : set_children w (children w) = w.
Proof. now destruct w. Qed.

(** The children after delegation of the mapping [m]. *)
Local Abbreviation delegated m cs :=
  (List.map (fun nc : string * Widget =>
               (fst nc, set_getter (snd nc) (dict_get_or m (fst nc) VNone))) cs).

Lemma delegate_children_mapping cs data v (m : dict) :
  getitem data "value" = Ok v ->
  v = VDict m \/ v = VRuntimeData m ->
  delegate_children cs data = (delegated m cs, Ok tt).
Proof.
  intros Hv Hm. induction cs as [|[n c] cs IH]; simpl; [reflexivity|].
  rewrite Hv. simpl.
  replace (method_get v n VNone) with (Ok (A := value) (dict_get_or m n VNone))
    by (destruct Hm; subst; reflexivity).
  now rewrite IH.
Qed.

(** X12.  [compound_preprocessor] hands back the record it is given.
    On a widget whose [delegation] attribute is not set (or false) it
    does nothing else.  On a widget whose [delegation] attribute is
    true and a record whose value is a mapping, every child's getter
    becomes the entry of that mapping under the child's name, [None]
    when there is none; nothing else of the children changes, and doing
    it again changes nothing. *)
Theorem compound_preprocessor_delegates
    (anc : list value) (w : Widget) (data : value) (s : World) :
  (truth (dict_get_or (attributes w) "delegation" (VBool false)) = false ->
   compound_preprocessor World call_external str_callable anc w data s =
     (s, w, data, Ok data)) /\
  (forall v m,
     truth (dict_get_or (attributes w) "delegation" (VBool false)) = true ->
     getitem data "value" = Ok v ->
     v = VDict m \/ v = VRuntimeData m ->
     let w' := set_children w (delegated m (children w)) in
     compound_preprocessor World call_external str_callable anc w data s =
       (s, w', data, Ok data) /\
     compound_preprocessor World call_external str_callable anc w' data s =
       (s, w', data, Ok data)).
Proof.
  assert (Hstep : forall w0 v m,
     truth (dict_get_or (attributes w0) "delegation" (VBool false)) = true ->
     getitem data "value" = Ok v ->
     v = VDict m \/ v = VRuntimeData m ->
     compound_preprocessor World call_external str_callable anc w0 data s =
       (s, set_children w0 (delegated m (children w0)), data, Ok data)).
  { intros w0 v m Hd Hv Hm. unfold compound_preprocessor, call.
    rewrite height_children. simpl. unfold compound_preprocessor_body.
    rewrite Hd, (delegate_children_mapping _ _ _ _ Hv Hm). reflexivity. }
  split.
  - intros Hd. unfold compound_preprocessor, call.
    rewrite height_children. simpl. unfold compound_preprocessor_body.
    now rewrite Hd.
  - intros v m Hd Hv Hm w'. split; [now apply (Hstep w v m)|].
    rewrite (Hstep w' v m Hd Hv Hm). unfold w'.
    assert (Hidem : delegated m (children (set_children w (delegated m (children w)))) =
                    delegated m (children w)).
    { change (children (set_children w (delegated m (children w))))
        with (delegated m (children w)).
      induction (children w) as [|[n c] cs IH]; simpl; [reflexivity|].
      now rewrite IH. }
    rewrite Hidem. reflexivity.
Qed.

(** X13.  With [delegation] set and a child to delegate to,
    [compound_preprocessor] raises what reading the record's value
    raises ([KeyError] on a record without ['value']), and an
    [AttributeError] on a value that is no mapping and so has no [get];
    the widget is left as it was.  Without children the record is not
    read at all. *)
Theorem compound_preprocessor_needs_a_mapping
    (anc : list value) (w : Widget) (data : value) (s : World) :
  truth (dict_get_or (attributes w) "delegation" (VBool false)) = true ->
  (children w = [] ->
   compound_preprocessor World call_external str_callable anc w data s =
     (s, w, data, Ok data)) /\
  (children w <> [] ->
   (forall cls args,
      getitem data "value" = Raise cls args ->
      compound_preprocessor World call_external str_callable anc w data s =
        (s, w, data, Raise cls args)) /\
   (forall v,
      getitem data "value" = Ok v ->
      (forall m, v <> VDict m /\ v <> VRuntimeData m) ->
      exists args,
        compound_preprocessor World call_external str_callable anc w data s =
          (s, w, data, Raise AttributeError args))).
Proof.
  intros Hd.
  assert (Hu : compound_preprocessor World call_external str_callable anc w data s =
               let '(cs, r) := delegate_children (children w) data in
               (s, set_children w cs, data, let! _ := r in Ok data)).
  { unfold compound_preprocessor, call. rewrite height_children. simpl.
    unfold compound_preprocessor_body. now rewrite Hd. }
  split.
  - intros Hc. rewrite Hu, Hc. simpl. rewrite <- Hc. now rewrite set_children_same.
  - intros Hc. destruct (children w) as [|[n c] cs] eqn:E; [congruence|]. split.
    + intros cls args Hv. rewrite Hu. simpl. rewrite Hv. simpl.
      rewrite <- E. now rewrite set_children_same.
    + intros v Hv Hm. exists []. rewrite Hu. simpl. rewrite Hv. simpl.
      replace (method_get v n VNone) with (Raise (A := value) AttributeError []).
      * rewrite <- E. now rewrite set_children_same.
      * destruct v; try reflexivity; destruct (Hm m); congruence.
Qed.

(** X14.  On a widget without children the three compound callables
    read nothing of the record, whatever it is: [compound_extractor]
    returns an empty mapping, [compound_renderer] the empty string and
    [compound_preprocessor] the record, and nothing changes. *)
Theorem compound_without_children
    (anc : list value) (w : Widget) (data : value) (s : World) :
  children w = [] ->
  compound_extractor World call_external str_callable anc w data s =
    (s, w, data, Ok (VDict [])) /\
  compound_renderer World call_external str_callable anc w data s =
    (s, w, data, Ok (VStr "")) /\
  compound_preprocessor World call_external str_callable anc w data s =
    (s, w, data, Ok data).
Proof.
  intros Hc.
  assert (Hw : set_children w [] = w) by (rewrite <- Hc; apply set_children_same).
  unfold compound_extractor, compound_renderer, compound_preprocessor, call.
  rewrite height_children. simpl.
  unfold compound_extractor_body, compound_renderer_body, compound_preprocessor_body.
  rewrite Hc. simpl. rewrite Hw. repeat split.
  now destruct (truth _).
Qed.

(** X15.  With a child to go to, [compound_extractor] raises what
    reading the record's request raises and [compound_renderer] what
    reading its [extracted] raises ([KeyError] for a missing key),
    before any child is called; and [compound_renderer] raises the
    [KeyError] of the child's name when the first extracted entry is a
    mapping without an entry for the first child. *)
Theorem compound_needs_the_record
    (anc : list value) (w : Widget) (data : value) (s : World)
    (n : string) (c : Widget) (rest : list (string * Widget)) :
  children w = (n, c) :: rest ->
  (forall cls args,
     getitem data "request" = Raise cls args ->
     compound_extractor World call_external str_callable anc w data s =
       (s, w, data, Raise cls args)) /\
  (forall cls args,
     getitem data "extracted" = Raise cls args ->
     compound_renderer World call_external str_callable anc w data s =
       (s, w, data, Raise cls args)) /\
  (forall first others lm,
     getitem data "extracted" = Ok (VList (first :: others)) ->
     first = VDict lm \/ first = VRuntimeData lm ->
     dict_get n lm = None ->
     compound_renderer World call_external str_callable anc w data s =
       (s, w, data, Raise KeyError [VStr n])).
Proof.
  intros Hc.
  assert (Hw : set_children w ((n, c) :: rest) = w)
    by (rewrite <- Hc; apply set_children_same).
  unfold compound_extractor, compound_renderer, call.
  rewrite height_children. simpl.
  unfold compound_extractor_body, compound_renderer_body. rewrite Hc. simpl.
  split; [|split].
  - intros cls args H. now rewrite H, Hw.
  - intros cls args H. unfold child_kw. rewrite H. simpl. now rewrite Hw.
  - intros first others lm H Hm Hn. unfold child_kw. rewrite H. simpl.
    replace (getitem first n) with (Raise (A := value) KeyError [VStr n]).
    + simpl. now rewrite Hw.
    + destruct Hm; subst; simpl; unfold dict_getitem; now rewrite Hn.
Qed.

(** X16.  Preprocessing a widget whose one preprocessor is
    [compound_preprocessor], whose [delegation] attribute is true and
    whose getter is a mapping stores the request and the mapping in the
    record and hands each child its entry of the mapping as getter:
    the value of the parent is what its children start from. *)
Theorem preprocessing_delegates
    (anc : list value) (w : Widget) (request : value) (data m : dict) (s : World) :
  dict_has "value" data && dict_has "request" data = false ->
  getter w = VDict m ->
  preprocessors w = [Fn_compound_preprocessor] ->
  truth (dict_get_or (attributes w) "delegation" (VBool false)) = true ->
  Preprocess anc w request data s =
    (s, set_children w (delegated m (children w)),
     Ok (VRuntimeData (dict_set "value" (VDict m) (dict_set "request" request data)))).
Proof.
  intros Hno Hg Hp Hd.
  rewrite Widget_runpreprocessors_eq, Hno. cbv zeta. rewrite Hg, Hp.
  rewrite preprocess_chain_cons.
  set (d := VRuntimeData (dict_set "value" (VDict m) (dict_set "request" request data))).
  assert (Hv : getitem d "value" = Ok (VDict m)).
  { unfold d. simpl. unfold dict_getitem. now rewrite dict_get_set_eq. }
  assert (Hc : Call Fn_compound_preprocessor anc w d s =
               (s, set_children w (delegated m (children w)), d, Ok d)).
  { unfold call. rewrite height_children. simpl. unfold compound_preprocessor_body.
    rewrite Hd, (delegate_children_mapping _ _ _ m Hv (or_introl eq_refl)).
    reflexivity. }
  rewrite Hc. apply preprocess_chain_nil.
Qed.

End More.

(* ================================================================== *)
(** * Building widgets *)
(* ================================================================== *)

Lemma dict_get_assigned (f : string -> value) (keys : list string) : forall (m : dict) k,
  dict_get k (fold_left (fun attrs key => dict_set key (f key) attrs) keys m) =
  if existsb (String.eqb k) keys then Some (f k) else dict_get k m.
Proof.
  induction keys as [|k0 keys IH]; intros m k; simpl; [reflexivity|].
  rewrite IH. destruct (existsb (String.eqb k) keys).
  - now rewrite orb_true_r.
  - rewrite orb_false_r. destruct (String.eqb k k0) eqn:E.
    + apply String.eqb_eq in E. subst k0. apply dict_get_set_eq.
    + apply String.eqb_neq in E. apply dict_get_set_ne. congruence.
Qed.

Lemma existsb_keys k (m : dict) :
  existsb (String.eqb k) (dict_keys m) = dict_has k m.
Proof.
  unfold dict_has. induction m as [|[k0 v0] m IH]; simpl; [reflexivity|].
  destruct (String.eqb k k0); [reflexivity|exact IH].
Qed.

Lemma Widget_init_reads extractors renderers preprocessors uniquename value_or_getter
    (properties : dict) k :
  dict_get k (attributes (Widget_init extractors renderers preprocessors uniquename
                            value_or_getter properties)) = dict_get k properties.
Proof.
  unfold Widget_init. simpl.
  rewrite dict_get_assigned, existsb_keys. unfold dict_has, dict_get_or.
  now destruct (dict_get k properties).
Qed.

(** X17.  A new widget has no children, the getter, name and chains it
    was given, and as attributes the properties it was given: every
    key of the properties reads in the attributes as it does in the
    properties, and no other key is there. *)
Theorem Widget_init_attributes
    (extractors renderers preprocessors : list callable)
    (uniquename : option string) (value_or_getter : value) (properties : dict) :
  let w := Widget_init extractors renderers preprocessors uniquename
                       value_or_getter properties in
  (forall k, dict_get k (attributes w) = dict_get k properties) /\
  children w = [] /\
  shell w = (value_or_getter, (extractors, renderers, preprocessors), uniquename,
             attributes w, []).
Proof.
  intros w. split; [|split].
  - intros k. apply Widget_init_reads.
  - reflexivity.
  - unfold shell, chains, w. simpl. now destruct preprocessors.
Qed.

(* ================================================================== *)
(** * Further properties of the factory *)
(* ================================================================== *)

(** X18.  [register] refuses exactly the names with a leading asterisk,
    with [ValueError].  After registering any other name, the four
    accessors return the chains registered under it (the preprocessors
    behind the global ones), also when the name was registered before;
    the global preprocessors and the entries of the other names are as
    they were. *)
Theorem Factory_register_lookup (self : Factory) (name : string)
    (ex ren pre : list callable) (sub : list string) :
  (startswith_asterisk name = true ->
   Factory_register self name ex ren pre sub =
     Raise ValueError [VStr "Asterisk * as first sign not allowed as name."]) /\
  (startswith_asterisk name = false ->
   exists self',
     Factory_register self name ex ren pre sub = Ok self' /\
     Factory_extractors self' name = Ok ex /\
     Factory_renderers self' name = Ok ren /\
     Factory_preprocessors self' name = Ok (_global_preprocessors self ++ pre) /\
     Factory_subwidgets self' name = Ok sub /\
     _global_preprocessors self' = _global_preprocessors self /\
     forall other, name <> other ->
       _factories self' !! other = _factories self !! other).
Proof.
  unfold Factory_register. split; intros H; rewrite H; [reflexivity|].
  eexists. split; [reflexivity|].
  unfold Factory_extractors, Factory_renderers, Factory_preprocessors,
    Factory_subwidgets, registry_getitem, blueprint. simpl.
  rewrite lookup_insert_eq. simpl. repeat split.
  intros other Hne. now apply lookup_insert_ne.
Qed.

Lemma join_cons sep a b rest :
  join sep (a :: b :: rest) = (a ++ sep ++ join sep (b :: rest))%string.
Proof. reflexivity. Qed.

Lemma split_join (names : list string) :
  names <> [] ->
  List.Forall (fun name => contains_char ":" name = false) names ->
  split ":" (join ":" names) = names.
Proof.
  intros Hne Hall. induction Hall as [|a names Ha Hall IH]; [congruence|].
  destruct names as [|b rest].
  - simpl. now apply split_word.
  - rewrite join_cons.
    change (a ++ ":" ++ join ":" (b :: rest))%string
      with (a ++ String ":" (join ":" (b :: rest)))%string.
    rewrite split_chained by assumption. f_equal. apply IH. discriminate.
Qed.


Lemma compose_unresolved self custom pre name post : forall found acc,
  List.Forall2 (fun name bp => resolve self custom name = Some bp) pre found ->
  resolve self custom name = None ->
  compose self custom (pre ++ name :: post) acc = Raise KeyError [VStr (lookup_key name)].
Proof.
  induction pre as [|p pre IH]; intros found acc H Hn; inversion H; subst.
  - cbn [app compose]. unfold resolve, lookup_key, registry_getitem, blueprint in *.
    destruct (startswith_asterisk name); rewrite Hn; reflexivity.
  - match goal with H : resolve _ _ _ = Some ?bp |- _ => rename H into Hr end.
    cbn [app compose]. unfold resolve, registry_getitem, blueprint in Hr |- *.
    destruct (startswith_asterisk p); rewrite Hr; cbn [bind];
      destruct y as [[[ex ren] pr] sub], acc as [[[e r] q] sb];
      eapply IH; eauto.
Qed.


Section Built.

Variable call_subwidget_func :
  string -> Widget -> Factory -> result (list (string * Widget)).


(** X20.  Composing fails with the [KeyError] of the first name that is
    not found, the key being the name as it is for the registry and the
    name without its asterisk for [custom]; no widget is built and no
    subwidget function is called. *)
Theorem compose_unknown_name
    (self : Factory) (custom : gmap string blueprint)
    (pre post : list string) (unknown : string) (found : list blueprint)
    (name : option string) (value : value) (props : dict) :
  List.Forall (fun n => contains_char ":" n = false) (pre ++ unknown :: post) ->
  List.Forall2 (fun n bp => resolve self custom n = Some bp) pre found ->
  resolve self custom unknown = None ->
  Factory_call call_subwidget_func self (join ":" (pre ++ unknown :: post))
    name value props custom = Raise KeyError [VStr (lookup_key unknown)].
Proof.
  intros Hcolon Hres Hn. unfold Factory_call.
  rewrite split_join; [|destruct pre; discriminate|assumption].
  now rewrite (compose_unresolved _ _ _ _ _ _ _ Hres Hn).
Qed.

End Built.

Lemma register_ok self name ex ren pre sub :
  startswith_asterisk name = false ->
  Factory_register self name ex ren pre sub =
    Ok (mkFactory (<[name := (ex, ren, pre, sub)]> (_factories self))
                  (_global_preprocessors self)).
Proof. intros H. unfold Factory_register. now rewrite H. Qed.

Lemma accessors_found self name ex ren pre sub :
  (_factories self !! name : option blueprint) = Some (ex, ren, pre, sub) ->
  Factory_extractors self name = Ok ex /\
  Factory_renderers self name = Ok ren /\
  Factory_preprocessors self name = Ok (_global_preprocessors self ++ pre) /\
  Factory_subwidgets self name = Ok sub.
Proof.
  intros H. unfold Factory_extractors, Factory_renderers, Factory_preprocessors,
    Factory_subwidgets, registry_getitem. rewrite H. repeat split.
Qed.

Lemma compose_one self custom name ex ren pre sub :
  startswith_asterisk name = false ->
  (_factories self !! name : option blueprint) = Some (ex, ren, pre, sub) ->
  compose self custom [name] ([], [], [], []) = Ok (ex, ren, pre, sub).
Proof.
  intros Ha H. cbn [compose]. rewrite Ha. unfold registry_getitem. rewrite H.
  cbn [bind]. now rewrite !app_nil_r.
Qed.

(** X21.  Importing [compound.py] registers ['compound'], ['fieldset']
    and ['form'] on any factory.  The two derived blueprints take their
    preprocessors from the accessor, which puts the global
    preprocessors in front: so a widget composed from ['fieldset'] (or
    ['form']) has the compound extractor, the compound renderer
    followed by its own renderer, and as preprocessors the global ones
    of the time it is composed, then the global ones of the time of the
    import once more, then the compound preprocessor; composed from
    ['compound'] it has the global ones once. *)
Theorem import_compound_blueprints
    (call_subwidget_func : string -> Widget -> Factory -> result (list (string * Widget)))
    (self : Factory) (later : list callable)
    (name : option string) (value : value) (props : dict)
    (custom : gmap string blueprint) :
  exists imported,
    import_compound self = Ok imported /\
    _global_preprocessors imported = _global_preprocessors self /\
    let now := Factory_register_global_preprocessors imported later in
    Factory_call call_subwidget_func now "fieldset" name value props custom =
      Ok (Widget_init [Fn_compound_extractor]
            [Fn_compound_renderer; Fn_fieldset_renderer]
            ((_global_preprocessors self ++ later) ++
             _global_preprocessors self ++ [Fn_compound_preprocessor])
            name value props) /\
    Factory_call call_subwidget_func now "form" name value props custom =
      Ok (Widget_init [Fn_compound_extractor]
            [Fn_compound_renderer; Fn_form_renderer]
            ((_global_preprocessors self ++ later) ++
             _global_preprocessors self ++ [Fn_compound_preprocessor])
            name value props) /\
    Factory_call call_subwidget_func now "compound" name value props custom =
      Ok (Widget_init [Fn_compound_extractor] [Fn_compound_renderer]
            ((_global_preprocessors self ++ later) ++ [Fn_compound_preprocessor])
            name value props).
Proof.
  destruct self as [fs g].
  set (c := ([Fn_compound_extractor], [Fn_compound_renderer],
             [Fn_compound_preprocessor], @nil string) : blueprint).
  set (fld := ([Fn_compound_extractor], [Fn_compound_renderer; Fn_fieldset_renderer],
               g ++ [Fn_compound_preprocessor], @nil string) : blueprint).
  set (frm := ([Fn_compound_extractor], [Fn_compound_renderer; Fn_form_renderer],
               g ++ [Fn_compound_preprocessor], @nil string) : blueprint).
  set (f0 := mkFactory (<["compound" := c]> fs) g).
  set (f1 := mkFactory (<["fieldset" := fld]> (<["compound" := c]> fs)) g).
  set (f2 := mkFactory (<["form" := frm]> (<["fieldset" := fld]> (<["compound" := c]> fs))) g).
  assert (H0 : (_factories f0 !! "compound" : option blueprint) = Some c)
    by apply lookup_insert_eq.
  assert (H1 : (_factories f1 !! "compound" : option blueprint) = Some c).
  { unfold f1. cbn [_factories]. rewrite lookup_insert_ne by discriminate.
    apply lookup_insert_eq. }
  exists f2. split; [|split; [reflexivity|]].
  - assert (R0 : register_compound (mkFactory fs g) = Ok f0).
    { unfold register_compound. now rewrite register_ok by reflexivity. }
    assert (R1 : register_fieldset f0 = Ok f1).
    { destruct (accessors_found f0 "compound" _ _ _ _ H0) as (E1 & E2 & E3 & _).
      unfold register_fieldset. rewrite E1, E2, E3. cbn [bind].
      now rewrite register_ok by reflexivity. }
    assert (R2 : register_form f1 = Ok f2).
    { destruct (accessors_found f1 "compound" _ _ _ _ H1) as (E1 & E2 & E3 & _).
      unfold register_form. rewrite E1, E2, E3. cbn [bind].
      now rewrite register_ok by reflexivity. }
    unfold import_compound. rewrite R0. cbn [bind]. rewrite R1. cbn [bind]. exact R2.
  - cbv zeta. unfold Factory_call.
    change (split ":" "fieldset") with ["fieldset"].
    change (split ":" "form") with ["form"].
    change (split ":" "compound") with ["compound"].
    rewrite (compose_one _ custom "fieldset" _ _ _ _ eq_refl
               (ltac:(unfold f2; cbn [_factories Factory_register_global_preprocessors];
                      rewrite lookup_insert_ne by discriminate;
                      apply lookup_insert_eq)
                : (_factories (Factory_register_global_preprocessors f2 later)
                     !! "fieldset" : option blueprint) = Some fld)).
    rewrite (compose_one _ custom "form" _ _ _ _ eq_refl
               (ltac:(apply lookup_insert_eq)
                : (_factories (Factory_register_global_preprocessors f2 later)
                     !! "form" : option blueprint) = Some frm)).
    rewrite (compose_one _ custom "compound" _ _ _ _ eq_refl
               (ltac:(unfold f2; cbn [_factories Factory_register_global_preprocessors];
                      rewrite !lookup_insert_ne by discriminate;
                      apply lookup_insert_eq)
                : (_factories (Factory_register_global_preprocessors f2 later)
                     !! "compound" : option blueprint) = Some c)).
    cbn [bind run_subwidgets]. repeat split.
Qed.

(* ================================================================== *)
(** * The further properties at work *)
(* ================================================================== *)

Lemma calls_keep_the_widget_witness :
  bare (widget_of (Widget_call (list string) Samples.external Samples.name_of []
                     Cases.delegating (VDict []) VNone [])) =
  bare Cases.delegating /\
  List.map (fun nc : string * Widget => (fst nc, getter (snd nc)))
    (children (widget_of (Widget_call (list string) Samples.external Samples.name_of []
                            Cases.delegating (VDict []) VNone []))) <>
  List.map (fun nc : string * Widget => (fst nc, getter (snd nc)))
    (children Cases.delegating).
Proof.
  split; [|vm_compute; discriminate].
  destruct (Widget_call (list string) Samples.external Samples.name_of []
              Cases.delegating (VDict []) VNone [])
    as [[[s' w'] d'] r] eqn:E.
  refine (proj1 (proj2
    (calls_keep_the_widget Samples.external Samples.name_of []
       Cases.delegating [] s' w' _))).
  right; right; right. exists (VDict []), VNone, d', r. exact E.
Defined.

Lemma extract_touches_its_sequences_witness :
  exists s' w' d',
    Widget_extract (list string) Samples.external Samples.name_of []
      Cases.plain (VDict [("k", VStr "v")]) [] = (s', w', Ok d') /\
    getitem d' "request" = Ok (VDict [("k", VStr "v")]) /\
    getitem d' "value" = Ok (VStr "hello").
Proof.
  destruct (Widget_extract (list string) Samples.external Samples.name_of []
              Cases.plain (VDict [("k", VStr "v")]) []) as [[s' w'] r] eqn:E.
  destruct r as [d'|cls args]; [|vm_compute in E; discriminate E].
  exists s', w', d'. split; [reflexivity|].
  destruct (proj2 (extract_touches_its_sequences Samples.external Samples.name_of []
                     Cases.plain (VDict [("k", VStr "v")]) [] s' w' d' E))
    as (_ & H1 & H2 & _).
  - intros g. discriminate.
  - reflexivity.
  - split; assumption.
Defined.

Lemma render_touches_its_sequences_witness :
  getitem (snd (fst (Widget_call (list string) Samples.external Samples.name_of []
                       Cases.plain (VDict []) Cases.preprocessed [])))
          "errors" = Ok (VList []).
Proof.
  destruct (Widget_call (list string) Samples.external Samples.name_of []
              Cases.plain (VDict []) Cases.preprocessed [])
    as [[[s' w'] d'] r] eqn:E.
  destruct (render_touches_its_sequences Samples.external Samples.name_of []
              Cases.plain (VDict []) Cases.preprocessed [] s' w' d' r eq_refl E)
    as [_ H].
  simpl. rewrite H by discriminate. reflexivity.
Defined.

Lemma sample_render_run :
  render_run (list string) Samples.external Samples.name_of []
    [External "render_value"] [] Cases.plain Cases.preprocessed
    [VStr "hello"]
    ["render_value"] Cases.plain
    (VRuntimeData
       [("extracted", VList []); ("rendered", VList [VStr "hello"]);
        ("errors", VList []); ("request", VDict []); ("value", VStr "hello")]).
Proof.
  eapply render_step with (d1 := Cases.preprocessed).
  - reflexivity.
  - reflexivity.
  - apply render_done.
Defined.

Lemma chains_run_in_parts_witness :
  render_chain (list string) Samples.external Samples.name_of []
    ([External "render_value"] ++ [External "render_value"]) []
    Cases.plain Cases.preprocessed =
  render_chain (list string) Samples.external Samples.name_of []
    [External "render_value"] ["render_value"] Cases.plain
    (VRuntimeData
       [("extracted", VList []); ("rendered", VList [VStr "hello"]);
        ("errors", VList []); ("request", VDict []); ("value", VStr "hello")]).
Proof.
  exact (proj2 (proj2
    (chains_run_in_parts Samples.external Samples.name_of []
       [External "render_value"] [External "render_value"] []
       Cases.plain Cases.preprocessed ["render_value"] Cases.plain _))
    [VStr "hello"] sample_render_run).
Defined.

Lemma extractor_failure_is_fatal_witness :
  extract_chain (list string) Samples.external Samples.name_of [VStr "root"]
    ([] ++ External "boom" :: [External "extract_value"]) []
    Cases.plain Cases.preprocessed =
  (["boom"], Cases.plain,
   Raise (OtherException "NameError") [VStr "boom"; VStr "boom"; VStr "root"; VStr "plain"]).
Proof.
  refine (extractor_failure_is_fatal Samples.external Samples.name_of [VStr "root"]
            [] [External "extract_value"] (External "boom") []
            Cases.plain Cases.preprocessed [] [] Cases.plain Cases.preprocessed
            ["boom"] Cases.plain Cases.preprocessed
            (OtherException "NameError") [VStr "boom"] _ _ _ _).
  - apply extract_done.
  - constructor.
  - reflexivity.
  - intros abort. discriminate.
Defined.

Lemma renderer_failure_is_fatal_witness :
  render_chain (list string) Samples.external Samples.name_of []
    ([External "render_value"] ++ External "boom" :: [External "render_value"]) []
    Cases.plain Cases.preprocessed =
  (["render_value"; "boom"], Cases.plain,
   VRuntimeData
     [("extracted", VList []); ("rendered", VList [VStr "hello"]);
      ("errors", VList []); ("request", VDict []); ("value", VStr "hello")],
   Raise (OtherException "NameError") [VStr "boom"; VStr "boom"; VStr "plain"]).
Proof.
  refine (proj1 (renderer_failure_is_fatal Samples.external Samples.name_of []
            [External "render_value"] [External "render_value"] (External "boom") []
            Cases.plain Cases.preprocessed [VStr "hello"]
            ["render_value"] Cases.plain _
            ["render_value"; "boom"] Cases.plain _
            (OtherException "NameError") [VStr "boom"] sample_render_run _)).
  reflexivity.
Defined.

Lemma preprocessing_failure_is_fatal_witness :
  Widget_extract (list string) Samples.external Samples.name_of []
    Cases.computed (VDict []) [] =
  (["missing"], Cases.computed, Raise (OtherException "NameError") [VStr "missing"]).
Proof.
  destruct (preprocessing_failure_is_fatal Samples.external Samples.name_of []
              Cases.computed (VDict []) []) as (_ & Hgetter & Hflow).
  refine (proj1 (Hflow ["missing"] Cases.computed (OtherException "NameError")
                   [VStr "missing"] _)).
  refine (Hgetter RuntimeData.new (External "missing") ["missing"] Cases.computed
            (VRuntimeData (dict_set "request" (VDict []) RuntimeData.new))
            (OtherException "NameError") [VStr "missing"] eq_refl eq_refl _).
  reflexivity.
Defined.

Lemma compound_preprocessor_delegates_witness :
  List.map (fun nc : string * Widget => (fst nc, getter (snd nc)))
    (children (widget_of
       (compound_preprocessor (list string) Samples.external Samples.name_of []
          Cases.delegating
          (VRuntimeData (dict_set "value" (VDict [("a", VStr "A")]) RuntimeData.new)) []))) =
  [("a", VStr "A"); ("b", VNone)].
Proof.
  destruct (proj2 (compound_preprocessor_delegates Samples.external Samples.name_of []
              Cases.delegating
              (VRuntimeData (dict_set "value" (VDict [("a", VStr "A")]) RuntimeData.new)) [])
            (VDict [("a", VStr "A")]) [("a", VStr "A")] eq_refl eq_refl
            (or_introl eq_refl)) as [H _].
  rewrite H. reflexivity.
Defined.

Lemma compound_preprocessor_needs_a_mapping_witness :
  compound_preprocessor (list string) Samples.external Samples.name_of []
    Cases.delegating (VRuntimeData RuntimeData.new) [] =
  ([], Cases.delegating, VRuntimeData RuntimeData.new, Raise KeyError [VStr "value"]).
Proof.
  refine (proj1 (proj2 (compound_preprocessor_needs_a_mapping
            Samples.external Samples.name_of [] Cases.delegating
            (VRuntimeData RuntimeData.new) [] eq_refl) _) KeyError [VStr "value"] eq_refl).
  discriminate.
Defined.

Lemma compound_without_children_witness :
  compound_renderer (list string) Samples.external Samples.name_of []
    Cases.plain VNone [] = ([], Cases.plain, VNone, Ok (VStr "")).
Proof.
  exact (proj1 (proj2 (compound_without_children Samples.external Samples.name_of []
                         Cases.plain VNone [] eq_refl))).
Defined.

Lemma compound_needs_the_record_witness :
  compound_renderer (list string) Samples.external Samples.name_of []
    Samples.form
    (VRuntimeData (dict_set "request" (VDict [])
                     (Samples.record_with [VDict [("b", VNone)]]))) [] =
  ([], Samples.form,
   VRuntimeData (dict_set "request" (VDict [])
                   (Samples.record_with [VDict [("b", VNone)]])),
   Raise KeyError [VStr "a"]).
Proof.
  exact (proj2 (proj2 (compound_needs_the_record Samples.external Samples.name_of []
            Samples.form
            (VRuntimeData (dict_set "request" (VDict [])
                             (Samples.record_with [VDict [("b", VNone)]]))) []
            "a" (Samples.text "a" (VStr "3")) [("b", Samples.text "b" (VStr "4"))]
            eq_refl))
          (VDict [("b", VNone)]) [] [("b", VNone)] eq_refl (or_introl eq_refl) eq_refl).
Defined.

Lemma preprocessing_delegates_witness :
  List.map (fun nc : string * Widget => (fst nc, getter (snd nc)))
    (children (snd (fst
       (Widget_runpreprocessors (list string) Samples.external Samples.name_of []
          Cases.delegating (VDict []) RuntimeData.new [])))) =
  [("a", VStr "A"); ("b", VNone)].
Proof.
  rewrite (preprocessing_delegates Samples.external Samples.name_of []
             Cases.delegating (VDict []) RuntimeData.new [("a", VStr "A")] []
             eq_refl eq_refl eq_refl eq_refl).
  reflexivity.
Defined.

Lemma Factory_register_lookup_witness :
  exists self',
    Factory_register Samples.two_blueprints "a" [External "new"] [] [] [] = Ok self' /\
    Factory_extractors self' "a" = Ok [External "new"] /\
    Factory_extractors self' "b" = Ok [External "eb"].
Proof.
  destruct (proj2 (Factory_register_lookup Samples.two_blueprints "a"
                     [External "new"] [] [] []) eq_refl)
    as (self' & H1 & H2 & _ & _ & _ & _ & H7).
  exists self'. split; [exact H1|]. split; [exact H2|].
  unfold Factory_extractors, registry_getitem.
  rewrite (H7 "b" ltac:(discriminate)). vm_compute. reflexivity.
Defined.


Lemma compose_unknown_name_witness :
  Factory_call Samples.no_subwidgets Samples.two_blueprints (join ":" ["a"; "*c"; "b"])
    None VNone [] ∅ = Raise KeyError [VStr "c"].
Proof.
  exact (compose_unknown_name Samples.no_subwidgets Samples.two_blueprints ∅
           ["a"] ["b"] "*c"
           [([External "ea"], [External "ra"], [External "pa"], [])]
           None VNone []
           ltac:(repeat constructor)
           ltac:(repeat constructor; vm_compute; reflexivity)
           ltac:(vm_compute; reflexivity)).
Defined.
